(** * Load tester ([.context/scripts/load-test.py]): model and properties

    The development embeds the [LoadTester] class of the load-test script:
    the HTTP issuer [make_request], the two drivers [run_count_test] and
    [run_duration_test] with their [worker] coroutines, the statistics
    engine ([calculate_statistics], [percentile], [count_status_codes]) and
    the reporting entry points ([print_report], [save_report], [run],
    [main]).

    Python values are modelled as the interpreter has them: [int] as [Z],
    [float] as IEEE-754 binary64 ([spec_float] with 53 bits of precision),
    [dict] from status code to count as a finite map, lists as lists.
    Coroutines are modelled by a small-step relation over an explicit
    scheduler state, in which the driver and its tasks or workers
    interleave freely; the event loop is a deterministic function that
    picks one of the enabled steps, and is shown to finish every run.

    Not modelled: console output other than the final report, the
    connection pool of the HTTP client (its limit of twice the
    concurrency never binds before the driver's own), and an operator
    interrupt. *)

From Stdlib Require Import ZArith Lia List Bool.
From Stdlib Require Import Floats.SpecFloat.
From stdpp Require Import base tactics option list relations strings gmap fin_maps sorting.

Local Open Scope Z_scope.

(** ** Python floats: IEEE-754 binary64 *)

Module Float64.

Definition prec : Z := 53.
Definition emax : Z := 1024.

Definition zero : spec_float := S754_zero false.

(** [float(z)] for a Python integer: round to nearest, ties to even. *)
Definition of_int (z : Z) : spec_float := binary_normalize prec emax z 0 false.

Definition add : spec_float -> spec_float -> spec_float := SFadd prec emax.
Definition sub : spec_float -> spec_float -> spec_float := SFsub prec emax.
Definition mul : spec_float -> spec_float -> spec_float := SFmul prec emax.
Definition div : spec_float -> spec_float -> spec_float := SFdiv prec emax.
Definition ltb : spec_float -> spec_float -> bool := SFltb.

(** [int(x)]: truncation towards zero; infinities and NaN raise. *)
Definition to_int (x : spec_float) : option Z :=
  match x with
  | S754_zero _ => Some 0
  | S754_finite s m e =>
      let a := match e with
               | Zneg p => Z.shiftr (Zpos m) (Zpos p)
               | _ => Z.shiftl (Zpos m) e
               end in
      Some (if s then - a else a)
  | S754_infinity _ | S754_nan => None
  end.

End Float64.

(** ** Exceptions and results of Python calls *)

Inductive exn_class :=
  | AsyncioTimeoutError   (* asyncio.TimeoutError *)
  | ClientError           (* any other subclass of Exception raised by the HTTP client *)
  | IndexError
  | TypeError
  | ValueError
  | OverflowError
  | CancelledError        (* BaseException only *)
  | KeyboardInterrupt.    (* BaseException only *)

Record exn := Exn { exn_cls : exn_class; exn_str : string }.

(** [isinstance(e, Exception)] *)
Definition is_Exception (e : exn) : bool :=
  match exn_cls e with
  | CancelledError | KeyboardInterrupt => false
  | _ => true
  end.

Definition is_TimeoutError (e : exn) : bool :=
  match exn_cls e with
  | AsyncioTimeoutError => true
  | _ => false
  end.

Inductive pyres (A : Type) :=
  | Returns (a : A)
  | Raises (e : exn).
Arguments Returns {A} a.
Arguments Raises {A} e.

#[global] Instance pyres_ret : MRet pyres := fun A a => Returns a.
#[global] Instance pyres_bind : MBind pyres := fun A B k r =>
  match r with
  | Returns a => k a
  | Raises e => Raises e
  end.

(** ** Data model *)

(** The dict [result] built on the success path of [make_request]. *)
Record result := Result {
  result_request_id : Z;
  status_code : Z;
  result_response_time : spec_float;
  content_length : Z;
  result_timestamp : string
}.

(** The dict [error] built on both failure paths of [make_request]. *)
Record error := Error {
  error_request_id : Z;
  error_message : string;
  error_response_time : spec_float;
  error_timestamp : string
}.

Inductive outcome :=
  | Success (r : result)
  | Failure (e : error).

Definition outcome_request_id (o : outcome) : Z :=
  match o with
  | Success r => result_request_id r
  | Failure e => error_request_id e
  end.

Record LoadTester := mkLoadTester {
  url : string;
  concurrent : Z;
  total_requests : Z;
  duration : option Z;
  timeout : Z;
  results : list result;
  errors : list error;
  start_time : option spec_float;
  end_time : option spec_float
}.

(** [LoadTester.__init__] *)
Definition init (url : string) (concurrent total_requests : Z)
    (duration : option Z) (timeout : Z) : LoadTester :=
  {| url := url; concurrent := concurrent; total_requests := total_requests;
     duration := duration; timeout := timeout;
     results := []; errors := []; start_time := None; end_time := None |}.

Definition set_results (self : LoadTester) (rs : list result) : LoadTester :=
  {| url := url self; concurrent := concurrent self;
     total_requests := total_requests self; duration := duration self;
     timeout := timeout self; results := rs; errors := errors self;
     start_time := start_time self; end_time := end_time self |}.

Definition set_errors (self : LoadTester) (es : list error) : LoadTester :=
  {| url := url self; concurrent := concurrent self;
     total_requests := total_requests self; duration := duration self;
     timeout := timeout self; results := results self; errors := es;
     start_time := start_time self; end_time := end_time self |}.

Definition set_start_time (self : LoadTester) (t : spec_float) : LoadTester :=
  {| url := url self; concurrent := concurrent self;
     total_requests := total_requests self; duration := duration self;
     timeout := timeout self; results := results self; errors := errors self;
     start_time := Some t; end_time := end_time self |}.

Definition set_end_time (self : LoadTester) (t : spec_float) : LoadTester :=
  {| url := url self; concurrent := concurrent self;
     total_requests := total_requests self; duration := duration self;
     timeout := timeout self; results := results self; errors := errors self;
     start_time := start_time self; end_time := Some t |}.

(** ** The HTTP issuer *)

(** What the block [async with session.get(...) as response:
    content = await response.text()] does: it either delivers a status and
    a body, or an exception leaves it. *)
Inductive io :=
  | Got (status : Z) (content : string)
  | Failed (e : exn).

(** The network layer raises subclasses of [Exception] only. *)
Definition io_ordinary (r : io) : bool :=
  match r with
  | Got _ _ => true
  | Failed e => is_Exception e
  end.

(** [make_request]: [t0] and [t1] are the two readings of [time.time()],
    [now] is [datetime.now().isoformat()]. *)
Definition make_request (self : LoadTester) (r : io) (t0 t1 : spec_float)
    (now : string) (request_id : Z) : LoadTester * pyres outcome :=
  match r with
  | Got status content =>
      let result :=
        {| result_request_id := request_id;
           status_code := status;
           result_response_time := Float64.sub t1 t0;
           content_length := Z.of_nat (String.length content);
           result_timestamp := now |} in
      (set_results self (results self ++ [result]), Returns (Success result))
  | Failed e =>
      if is_TimeoutError e then
        let error :=
          {| error_request_id := request_id;
             error_message := "Timeout";
             error_response_time := Float64.sub t1 t0;
             error_timestamp := now |} in
        (set_errors self (errors self ++ [error]), Returns (Failure error))
      else if is_Exception e then
        let error :=
          {| error_request_id := request_id;
             error_message := exn_str e;
             error_response_time := Float64.sub t1 t0;
             error_timestamp := now |} in
        (set_errors self (errors self ++ [error]), Returns (Failure error))
      else (self, Raises e)
  end.

(** The request ids for which the tester holds an outcome. *)
Definition outcome_ids (self : LoadTester) : list Z :=
  map result_request_id (results self) ++ map error_request_id (errors self).

(** ** Python sequences *)

Section Sequences.
Context {A : Type}.

(** [l[i]] with Python's negative indices; out of range raises
    [IndexError]. *)
Definition py_getitem (l : list A) (i : Z) : pyres A :=
  let n := Z.of_nat (length l) in
  let j := if i <? 0 then n + i else i in
  if (j <? 0) || (n <=? j) then Raises (Exn IndexError "list index out of range")
  else match l !! Z.to_nat j with
       | Some x => Returns x
       | None => Raises (Exn IndexError "list index out of range")
       end.

(** [l[-k:]] for a positive literal [k]: the last [k] elements. *)
Definition py_last (k : nat) (l : list A) : list A :=
  drop (length l - k)%nat l.

Variable lt : A -> A -> bool.

(** [sorted]: a stable sort by [<]; insertion from the right keeps equal
    elements in their original order, as the built-in does. *)
Fixpoint insert_sorted (x : A) (l : list A) : list A :=
  match l with
  | [] => [x]
  | y :: l' => if lt y x then y :: insert_sorted x l' else x :: y :: l'
  end.

Definition sorted (data : list A) : list A := foldr insert_sorted [] data.

(** [min] and [max] of a non-empty sequence, first extremum wins. *)
Definition py_min (x : A) (l : list A) : A :=
  fold_left (fun m y => if lt y m then y else m) l x.

Definition py_max (x : A) (l : list A) : A :=
  fold_left (fun m y => if lt m y then y else m) l x.

(** [LoadTester.percentile]. [percentile / 100] is the true division of
    two integers and its product with [len(sorted_data)] is a product of
    floats: both are binary64 operations, rounded to nearest; [int]
    truncates the product. *)
Definition percentile (data : list A) (p : Z) : pyres A :=
  let sorted_data := sorted data in
  let len := Z.of_nat (length sorted_data) in
  match Float64.to_int
          (Float64.mul (Float64.div (Float64.of_int p) (Float64.of_int 100))
                       (Float64.of_int len)) with
  | None => Raises (Exn OverflowError "cannot convert float to integer")
  | Some index => py_getitem sorted_data (Z.min index (len - 1))
  end.

End Sequences.

(** The nearest-rank rule as the specification words it: the element of
    the ascending-sorted data at index [min(floor(p/100 * count),
    count - 1)], in exact arithmetic. *)
Definition nearest_rank {A} (lt : A -> A -> bool) (data : list A) (p : Z) : pyres A :=
  let len := Z.of_nat (length data) in
  py_getitem (sorted lt data) (Z.min (p * len / 100) (len - 1)).

(** No element is strictly below an earlier one. *)
Definition ascending {A} (lt : A -> A -> bool) (l : list A) : Prop :=
  forall i j x y, (i <= j)%nat -> l !! i = Some x -> l !! j = Some y -> lt y x = false.

(** The integer percentiles whose double-precision quotient by 100 lies
    so far below the exact one that a product with a list length can fall
    just short of an integer. *)
Definition inexact_percentiles : list Z := [29; 35; 41; 47; 57; 58; 69; 70; 82; 94].

(** What the analysis of the index needs of the constant
    [percentile / 100] (binary64): a 53-bit mantissa [M] with exponent
    [e] in [-59, -52], within half a unit in the last place of [p / 100],
    and either not below [p / 100] by more than [M / 2^54] units in the
    last place or listed among the inexact ones. *)
Definition percentile_constant_ok (p : Z) : bool :=
  match Float64.div (Float64.of_int p) (Float64.of_int 100) with
  | S754_finite false M e =>
      let dl := p * 2 ^ (- e) - 100 * Zpos M in
      (2 ^ 52 <=? Zpos M) && (Zpos M <? 2 ^ 53) && (-59 <=? e) && (e <=? -52)
      && (-50 <=? dl) && (dl <=? 50)
      && ((dl <=? 0) || (dl * 2 ^ 53 <=? 50 * Zpos M)
          || bool_decide (p ∈ inexact_percentiles))
  | _ => false
  end.

(** ** Statistics engine *)

(** The body of the loop of [count_status_codes]:
    [counts[code] = counts.get(code, 0) + 1]. *)
Definition bump (counts : gmap Z Z) (code : Z) : gmap Z Z :=
  <[code := default 0 (counts !! code) + 1]> counts.

(** [LoadTester.count_status_codes] *)
Definition count_status_codes (status_codes : list Z) : gmap Z Z :=
  fold_left bump status_codes ∅.

(** The sum of the counts of a histogram. *)
Definition sum_values (m : gmap Z Z) : Z := map_fold (fun _ v acc => v + acc) 0 m.

(** A Python number: the statistics mix [int] and [float]. *)
Inductive number :=
  | Int (z : Z)
  | Float (x : spec_float).

Record response_time_stats := {
  rt_min : spec_float;
  rt_max : spec_float;
  rt_mean : number;
  rt_median : number;
  rt_p95 : spec_float;
  rt_p99 : spec_float
}.

Record content_length_stats := {
  cl_min : Z;
  cl_max : Z;
  cl_mean : number
}.

Record stats := {
  stats_total_time : spec_float;
  stats_total_requests : Z;
  successful_requests : Z;
  failed_requests : Z;
  success_rate : number;
  requests_per_second : number;
  stats_response_time : response_time_stats;
  stats_content_length : content_length_stats;
  stats_status_codes : gmap Z Z
}.

Section Statistics.

(** [statistics.mean] and [statistics.median] of the standard library,
    called on non-empty data only. *)
Variable statistics_mean : list number -> number.
Variable statistics_median : list number -> number.

(** [LoadTester.calculate_statistics]; [Returns None] is Python's
    [return None]. *)
Definition calculate_statistics (self : LoadTester) : pyres (option stats) :=
  match results self with
  | [] => Returns None
  | r0 :: rs =>
      let response_times := map result_response_time (results self) in
      let status_codes := map status_code (results self) in
      let content_lengths := map content_length (results self) in
      match end_time self, start_time self with
      | Some t1, Some t0 =>
          let total_time := Float64.sub t1 t0 in
          let total_requests :=
            Z.of_nat (length (results self)) + Z.of_nat (length (errors self)) in
          let successful_requests := Z.of_nat (length (results self)) in
          p95 ← percentile Float64.ltb response_times 95;
          p99 ← percentile Float64.ltb response_times 99;
          Returns (Some
            {| stats_total_time := total_time;
               stats_total_requests := total_requests;
               successful_requests := successful_requests;
               failed_requests := Z.of_nat (length (errors self));
               success_rate :=
                 if 0 <? total_requests then
                   Float (Float64.mul
                            (Float64.div (Float64.of_int successful_requests)
                                         (Float64.of_int total_requests))
                            (Float64.of_int 100))
                 else Int 0;
               requests_per_second :=
                 if Float64.ltb Float64.zero total_time then
                   Float (Float64.div (Float64.of_int successful_requests) total_time)
                 else Int 0;
               stats_response_time :=
                 {| rt_min := py_min Float64.ltb (result_response_time r0)
                                     (map result_response_time rs);
                    rt_max := py_max Float64.ltb (result_response_time r0)
                                     (map result_response_time rs);
                    rt_mean := statistics_mean (map Float response_times);
                    rt_median := statistics_median (map Float response_times);
                    rt_p95 := p95;
                    rt_p99 := p99 |};
               stats_content_length :=
                 {| cl_min := py_min Z.ltb (content_length r0) (map content_length rs);
                    cl_max := py_max Z.ltb (content_length r0) (map content_length rs);
                    cl_mean := statistics_mean (map Int content_lengths) |};
               stats_status_codes := count_status_codes status_codes |})
      | _, _ => Raises (Exn TypeError "unsupported operand type(s) for -")
      end
  end.

(** One line of the status table of the report: code, count and
    [(count / successful_requests) * 100]. *)
Definition status_row (st : stats) (kv : Z * Z) : Z * Z * spec_float :=
  (kv.1, kv.2,
   Float64.mul (Float64.div (Float64.of_int kv.2)
                            (Float64.of_int (successful_requests st)))
               (Float64.of_int 100)).

(** What [print_report] writes to the console. *)
Inductive printed :=
  | NoDataNotice
  | Report (st : stats) (status_rows : list (Z * Z * spec_float))
           (recent_errors : list (Z * string)).

(** [LoadTester.print_report] *)
Definition print_report (self : LoadTester) : pyres printed :=
  o ← calculate_statistics self;
  match o with
  | None => Returns NoDataNotice
  | Some st =>
      Returns (Report st
        (map (status_row st)
             (sorted (fun a b => a.1 <? b.1) (map_to_list (stats_status_codes st))))
        (map (fun e => (error_request_id e, error_message e))
             (py_last 10 (errors self))))
  end.

Record report_data := {
  test_config : string * Z * Z * option Z * Z;
  report_timestamp : string;
  statistics : stats;
  raw_results : list result;
  report_errors : list error
}.

(** [LoadTester.save_report]: [Returns None] when nothing is written,
    otherwise the data dumped to [output_file]. *)
Definition save_report (self : LoadTester) (now : string) : pyres (option report_data) :=
  o ← calculate_statistics self;
  match o with
  | None => Returns None
  | Some st =>
      Returns (Some
        {| test_config := (url self, concurrent self, total_requests self,
                           duration self, timeout self);
           report_timestamp := now;
           statistics := st;
           raw_results := py_last 100 (results self);
           report_errors := py_last 50 (errors self) |})
  end.

End Statistics.

(** ** Environment of a run *)

(** Everything a run reads from outside: the successive readings of
    [time.time()], what the network does to the request with a given id,
    and the text of [datetime.now().isoformat()]. *)
Record env := Env {
  clock : nat -> spec_float;
  net : Z -> io;
  now_iso : nat -> string
}.

(** The progress display at every hundredth request reads the clock once. *)
Definition progress_ticks (k : Z) : nat := if k mod 100 =? 0 then 1%nat else 0%nat.

(** ** Duration-bound driver: [run_duration_test] and [worker] *)

Module Duration.

(** Where the driver coroutine is: in the admission loop, suspended in
    [request_queue.join()], or past the [finally] block. *)
Inductive phase := Admitting | Joining | Finished.

(** Where a [worker] coroutine is: suspended in [request_queue.get()],
    holding an id and waiting for the semaphore, inside [make_request],
    or out of its loop. *)
Inductive wstate :=
  | WGet
  | WAcquire (request_id : Z)
  | WRequest (request_id : Z) (t0 : spec_float)
  | WExit.

Record state := State {
  self : LoadTester;
  tick : nat;                          (* readings of the clock so far *)
  pc : phase;
  deadline : spec_float;               (* the local [end_time] *)
  request_id : Z;
  queue : list Z;                      (* [request_queue] *)
  unfinished : nat;                    (* its count of unfinished tasks *)
  sem : nat;                           (* value of [semaphore] *)
  workers : list wstate;
  admitted : list (Z * spec_float)     (* history: id put, reading checked *)
}.

Definition is_get (w : wstate) : bool :=
  match w with WGet => true | _ => false end.
Definition is_acquire (w : wstate) : bool :=
  match w with WAcquire _ => true | _ => false end.
Definition is_request (w : wstate) : bool :=
  match w with WRequest _ _ => true | _ => false end.

(** The id a worker has taken from the queue and not yet reported done. *)
Definition held_id (w : wstate) : option Z :=
  match w with
  | WAcquire r | WRequest r _ => Some r
  | _ => None
  end.

Definition held (ws : list wstate) : list Z := omap held_id ws.

(** Issuer invocations executing at this instant. *)
Definition in_flight (s : state) : nat := length (filter is_request (workers s)).

Section Steps.
Variable e : env.

(** State on entry to the admission loop, for [0 <= concurrent]. *)
Definition initial (tester : LoadTester) (d : Z) : state :=
  let t0 := clock e 0 in
  {| self := set_start_time tester t0;
     tick := 1;
     pc := Admitting;
     deadline := Float64.add t0 (Float64.of_int d);
     request_id := 0;
     queue := [];
     unfinished := 0;
     sem := Z.to_nat (concurrent tester);
     workers := replicate (Z.to_nat (concurrent tester)) WGet;
     admitted := [] |}.

(** [while time.time() < end_time] *)
Definition before_deadline (s : state) : bool :=
  Float64.ltb (clock e (tick s)) (deadline s).

(** [await request_queue.put(request_id); request_id += 1] *)
Definition enqueue (s : state) : state :=
  {| self := self s;
     tick := S (tick s) + progress_ticks (request_id s + 1);
     pc := Admitting;
     deadline := deadline s;
     request_id := request_id s + 1;
     queue := queue s ++ [request_id s];
     unfinished := S (unfinished s);
     sem := sem s;
     workers := workers s;
     admitted := admitted s ++ [(request_id s, clock e (tick s))] |}.

(** The loop test fails: on to [await request_queue.join()]. *)
Definition stop (s : state) : state :=
  {| self := self s; tick := S (tick s); pc := Joining;
     deadline := deadline s; request_id := request_id s;
     queue := queue s; unfinished := unfinished s; sem := sem s;
     workers := workers s; admitted := admitted s |}.

(** [join()] returns; the [finally] block cancels the workers; then
    [self.end_time = time.time()]. *)
Definition join (s : state) : state :=
  {| self := set_end_time (self s) (clock e (tick s));
     tick := S (tick s); pc := Finished;
     deadline := deadline s; request_id := request_id s;
     queue := queue s; unfinished := unfinished s; sem := sem s;
     workers := (fun _ => WExit) <$> workers s; admitted := admitted s |}.

(** [request_id = await asyncio.wait_for(request_queue.get(), 1.0)] *)
Definition w_get (i : nat) (rid : Z) (q : list Z) (s : state) : state :=
  {| self := self s; tick := tick s; pc := pc s;
     deadline := deadline s; request_id := request_id s;
     queue := q; unfinished := unfinished s; sem := sem s;
     workers := <[i := WAcquire rid]> (workers s); admitted := admitted s |}.

(** [except asyncio.TimeoutError: break] *)
Definition w_timeout (i : nat) (s : state) : state :=
  {| self := self s; tick := tick s; pc := pc s;
     deadline := deadline s; request_id := request_id s;
     queue := queue s; unfinished := unfinished s; sem := sem s;
     workers := <[i := WExit]> (workers s); admitted := admitted s |}.

(** [async with semaphore:] entered, [make_request] reads the clock. *)
Definition w_acquire (i : nat) (rid : Z) (s : state) : state :=
  {| self := self s; tick := S (tick s); pc := pc s;
     deadline := deadline s; request_id := request_id s;
     queue := queue s; unfinished := unfinished s; sem := pred (sem s);
     workers := <[i := WRequest rid (clock e (tick s))]> (workers s);
     admitted := admitted s |}.

(** [make_request] returned: the semaphore is released and
    [request_queue.task_done()] is called. *)
Definition w_done (i : nat) (self' : LoadTester) (s : state) : state :=
  {| self := self'; tick := S (tick s); pc := pc s;
     deadline := deadline s; request_id := request_id s;
     queue := queue s; unfinished := pred (unfinished s); sem := S (sem s);
     workers := <[i := WGet]> (workers s); admitted := admitted s |}.

(** The call of [make_request] a worker is in, completed at the
    current reading of the clock. *)
Definition issue (s : state) (rid : Z) (t0 : spec_float) : LoadTester * pyres outcome :=
  make_request (self s) (net e rid) t0 (clock e (tick s)) (now_iso e (tick s)) rid.

(** One step of the driver or of one worker. Worker steps may
    interleave with the driver in any order; the time-out of
    [wait_for] needs the event loop to run for a second with the
    queue empty, which cannot happen inside the admission loop: [put]
    on an unbounded [asyncio.Queue] never suspends the driver. *)
Inductive step : state -> state -> Prop :=
  | step_enqueue s :
      pc s = Admitting -> before_deadline s = true -> step s (enqueue s)
  | step_stop s :
      pc s = Admitting -> before_deadline s = false -> step s (stop s)
  | step_join s :
      pc s = Joining -> unfinished s = 0%nat -> step s (join s)
  | step_get s i rid q :
      pc s <> Finished -> workers s !! i = Some WGet -> queue s = rid :: q ->
      step s (w_get i rid q s)
  | step_timeout s i :
      pc s = Joining -> workers s !! i = Some WGet -> queue s = [] ->
      step s (w_timeout i s)
  | step_acquire s i rid :
      pc s <> Finished -> workers s !! i = Some (WAcquire rid) -> (0 < sem s)%nat ->
      step s (w_acquire i rid s)
  | step_done s i rid t0 self' o :
      pc s <> Finished -> workers s !! i = Some (WRequest rid t0) ->
      issue s rid t0 = (self', Returns o) ->
      step s (w_done i self' s).

(** The event loop: the driver runs until it suspends, then the
    workers that can proceed do so, lowest index first; no worker
    waits a full second on an empty queue. *)
Definition next (s : state) : option state :=
  match pc s with
  | Finished => None
  | Admitting => Some (if before_deadline s then enqueue s else stop s)
  | Joining =>
      match queue s, list_find (fun w => is_get w) (workers s) with
      | rid :: q, Some (i, _) => Some (w_get i rid q s)
      | _, _ =>
          match list_find (fun w => is_acquire w) (workers s), sem s with
          | Some (i, WAcquire rid), S _ => Some (w_acquire i rid s)
          | _, _ =>
              match list_find (fun w => is_request w) (workers s) with
              | Some (i, WRequest rid t0) =>
                  match issue s rid t0 with
                  | (self', Returns _) => Some (w_done i self' s)
                  | (_, Raises _) => None
                  end
              | _ => if decide (unfinished s = 0%nat) then Some (join s) else None
              end
          end
      end
  end.

Fixpoint exec (fuel : nat) (s : state) : option state :=
  match pc s with
  | Finished => Some s
  | _ =>
      match fuel with
      | O => None
      | S fuel' =>
          match next s with
          | Some s' => exec fuel' s'
          | None => None
          end
      end
  end.

End Steps.

End Duration.

(** [LoadTester.run_duration_test] under the event loop; [None] when the
    fuel does not suffice. [asyncio.Semaphore] refuses a negative value. *)
Definition run_duration_test (e : env) (fuel : nat) (self : LoadTester) (d : Z)
    : option (pyres Duration.state) :=
  if concurrent self <? 0 then
    Some (Raises (Exn ValueError "Semaphore initial value must be >= 0"))
  else Returns <$> Duration.exec e fuel (Duration.initial e self d).

(** ** Count-bound driver: [run_count_test] *)

Module Count.

(** Where the driver coroutine is: at the head of the iteration for
    [i], suspended in the [gather] of iteration [i], suspended in the
    final [gather], or past it. *)
Inductive phase := Loop (i : Z) | Gather (i : Z) | FinalGather | Finished.

(** A task made by [asyncio.create_task(self.make_request(session, i))]:
    scheduled, inside [make_request], or finished. *)
Inductive tstate := Created | Running (t0 : spec_float) | Done.

Record state := State {
  self : LoadTester;
  tick : nat;
  pc : phase;
  tasks : list Z;                 (* the list [tasks], by request id *)
  table : list (Z * tstate)       (* every task created, in order *)
}.

Definition is_created (t : Z * tstate) : bool :=
  match t.2 with Created => true | _ => false end.
Definition is_running (t : Z * tstate) : bool :=
  match t.2 with Running _ => true | _ => false end.
Definition is_done (t : Z * tstate) : bool :=
  match t.2 with Done => true | _ => false end.

(** Issuer invocations executing at this instant. *)
Definition in_flight (s : state) : nat := length (filter is_running (table s)).

(** Every task of the batch handed to [gather] has finished. *)
Definition batch_done (tbl : list (Z * tstate)) (batch : list Z) : bool :=
  forallb (fun id => existsb (fun t => (t.1 =? id) && is_done t) tbl) batch.

Section Steps.
Variable e : env.

Definition initial (tester : LoadTester) : state :=
  {| self := set_start_time tester (clock e 0);
     tick := 1; pc := Loop 0; tasks := []; table := [] |}.

(** [tasks[:self.concurrent]] and [tasks[self.concurrent:]], for
    [0 <= concurrent]. *)
Definition batch (s : state) : list Z := take (Z.to_nat (concurrent (self s))) (tasks s).
Definition rest (s : state) : list Z := drop (Z.to_nat (concurrent (self s))) (tasks s).

(** [task = asyncio.create_task(...); tasks.append(task)], then the
    test [len(tasks) >= self.concurrent]. *)
Definition create (i : Z) (s : state) : state :=
  let tasks' := tasks s ++ [i] in
  if concurrent (self s) <=? Z.of_nat (length tasks') then
    {| self := self s; tick := tick s; pc := Gather i;
       tasks := tasks'; table := table s ++ [(i, Created)] |}
  else
    {| self := self s; tick := (tick s + progress_ticks (i + 1))%nat;
       pc := Loop (i + 1);
       tasks := tasks'; table := table s ++ [(i, Created)] |}.

(** [gather] returns: [tasks = tasks[self.concurrent:]], progress
    display, next iteration. *)
Definition gather_return (i : Z) (s : state) : state :=
  {| self := self s; tick := (tick s + progress_ticks (i + 1))%nat;
     pc := Loop (i + 1); tasks := rest s; table := table s |}.

Definition finish (s : state) : state :=
  {| self := set_end_time (self s) (clock e (tick s)); tick := S (tick s);
     pc := Finished; tasks := tasks s; table := table s |}.

(** The [for] loop is exhausted: [if tasks:] await the gather of all of [tasks]. *)
Definition loop_end (s : state) : state :=
  match tasks s with
  | [] => finish s
  | _ :: _ =>
      {| self := self s; tick := tick s; pc := FinalGather;
         tasks := tasks s; table := table s |}
  end.

(** A task starts to run: [make_request] reads the clock. *)
Definition t_start (k : nat) (id : Z) (s : state) : state :=
  {| self := self s; tick := S (tick s); pc := pc s; tasks := tasks s;
     table := <[k := (id, Running (clock e (tick s)))]> (table s) |}.

(** [make_request] returns. *)
Definition t_finish (k : nat) (id : Z) (self' : LoadTester) (s : state) : state :=
  {| self := self'; tick := S (tick s); pc := pc s; tasks := tasks s;
     table := <[k := (id, Done)]> (table s) |}.

Definition issue (s : state) (id : Z) (t0 : spec_float) : LoadTester * pyres outcome :=
  make_request (self s) (net e id) t0 (clock e (tick s)) (now_iso e (tick s)) id.

(** One step of the driver or of one task; tasks may run as soon as
    they are created. *)
Inductive step : state -> state -> Prop :=
  | step_create s i :
      pc s = Loop i -> i < total_requests (self s) -> step s (create i s)
  | step_loop_end s i :
      pc s = Loop i -> total_requests (self s) <= i -> step s (loop_end s)
  | step_gather_return s i :
      pc s = Gather i -> batch_done (table s) (batch s) = true ->
      step s (gather_return i s)
  | step_final_return s :
      pc s = FinalGather -> batch_done (table s) (tasks s) = true ->
      step s (finish s)
  | step_start s k id :
      pc s <> Finished -> table s !! k = Some (id, Created) ->
      step s (t_start k id s)
  | step_finish s k id t0 self' o :
      pc s <> Finished -> table s !! k = Some (id, Running t0) ->
      issue s id t0 = (self', Returns o) ->
      step s (t_finish k id self' s).

(** What the suspended driver waits for. *)
Definition awaited (s : state) : list Z :=
  match pc s with
  | Gather _ => batch s
  | _ => tasks s
  end.

(** The event loop: the driver runs until it suspends in a [gather]
    of unfinished tasks; then the scheduled tasks start and the
    running ones finish, oldest first. *)
Definition next (s : state) : option state :=
  match pc s with
  | Finished => None
  | Loop i =>
      Some (if i <? total_requests (self s) then create i s else loop_end s)
  | Gather _ | FinalGather =>
      if batch_done (table s) (awaited s) then
        Some (match pc s with Gather i => gather_return i s | _ => finish s end)
      else
        match list_find (fun t => is_created t) (table s) with
        | Some (k, (id, _)) => Some (t_start k id s)
        | None =>
            match list_find (fun t => is_running t) (table s) with
            | Some (k, (id, Running t0)) =>
                match issue s id t0 with
                | (self', Returns _) => Some (t_finish k id self' s)
                | (_, Raises _) => None
                end
            | _ => None
            end
        end
  end.

Fixpoint exec (fuel : nat) (s : state) : option state :=
  match pc s with
  | Finished => Some s
  | _ =>
      match fuel with
      | O => None
      | S fuel' =>
          match next s with
          | Some s' => exec fuel' s'
          | None => None
          end
      end
  end.

End Steps.

End Count.

(** [LoadTester.run_count_test] under the event loop; [None] when the fuel
    does not suffice. The semaphore is created (and never used): a
    negative value raises. *)
Definition run_count_test (e : env) (fuel : nat) (self : LoadTester)
    : option (pyres Count.state) :=
  if concurrent self <? 0 then
    Some (Raises (Exn ValueError "Semaphore initial value must be >= 0"))
  else Returns <$> Count.exec e fuel (Count.initial e self).

(** ** Entry points *)

Section Entry.

Variable statistics_mean : list number -> number.
Variable statistics_median : list number -> number.

(** How [run] ends: the report is printed, or [sys.exit(1)] after an
    exception. *)
Inductive run_result :=
  | Completed (self : LoadTester) (out : printed)
  | Exit1 (e : exn).

Definition report (self : LoadTester) : run_result :=
  match print_report statistics_mean statistics_median self with
  | Returns out => Completed self out
  | Raises x => Exit1 x
  end.

(** [LoadTester.run]: [if self.duration:] is false for [None] and for
    zero. *)
Definition run (e : env) (fuel : nat) (self : LoadTester) : option run_result :=
  match duration self with
  | Some d =>
      if d =? 0 then
        r ← run_count_test e fuel self;
        Some (match r with
              | Returns s => report (Count.self s)
              | Raises x => Exit1 x
              end)
      else
        r ← run_duration_test e fuel self d;
        Some (match r with
              | Returns s => report (Duration.self s)
              | Raises x => Exit1 x
              end)
  | None =>
      r ← run_count_test e fuel self;
      Some (match r with
            | Returns s => report (Count.self s)
            | Raises x => Exit1 x
            end)
  end.

(** The parsed command line. *)
Record args := Args {
  args_url : string;
  args_concurrent : Z;
  args_requests : Z;
  args_duration : option Z;
  args_timeout : Z;
  args_output : option string
}.

Definition normalize_url (u : string) : string :=
  if String.prefix "http://" u || String.prefix "https://" u then u
  else "http://" +:+ u.

(** The tester [main] constructs. *)
Definition main_tester (a : args) : LoadTester :=
  init (normalize_url (args_url a)) (args_concurrent a) (args_requests a)
       (args_duration a) (args_timeout a).

(** [main]: the run, then the saved report if [--output] was given and
    non-empty. *)
Definition main (e : env) (fuel : nat) (a : args)
    : option (run_result * option report_data) :=
  r ← run e fuel (main_tester a);
  Some (r,
        match r, args_output a with
        | Completed self _, Some f =>
            if String.eqb f "" then None
            else match save_report statistics_mean statistics_median self
                                   (now_iso e 0) with
                 | Returns o => o
                 | Raises _ => None
                 end
        | _, _ => None
        end).

End Entry.

(** ** Sample runs *)

(** Seven successes with status 200 and three time-outs. *)
Definition mixed_run : LoadTester :=
  {| url := "http://target"; concurrent := 10; total_requests := 10;
     duration := None; timeout := 30;
     results := map (fun i => Result i 200 (Float64.of_int 1) 3 "2024-01-01T00:00:00")
                    [0; 1; 2; 4; 5; 7; 8];
     errors := map (fun i => Error i "Timeout" (Float64.of_int 30) "2024-01-01T00:00:30")
                   [3; 6; 9];
     start_time := Some (Float64.of_int 0);
     end_time := Some (Float64.of_int 31) |}.

(** Every request timed out. *)
Definition all_failed_run : LoadTester :=
  {| url := "http://target"; concurrent := 10; total_requests := 3;
     duration := None; timeout := 30;
     results := [];
     errors := map (fun i => Error i "Timeout" (Float64.of_int 30) "2024-01-01T00:00:30")
                   [0; 1; 2];
     start_time := Some (Float64.of_int 0);
     end_time := Some (Float64.of_int 31) |}.

(** ** Invariants of the drivers *)

(** What holds in every state of a duration-bound run started with
    concurrency limit [c] on a tester that already held outcomes for the
    ids [base]: the semaphore and the requests in flight add up
    to [c]; the queue counts the ids queued or held by a worker; every id
    given out so far is queued, held or has its outcome; ids are given out
    in order from 0, each after a reading of the clock below the deadline;
    a worker leaves its loop only when the queue is empty and admission is
    over. *)
Record duration_inv (c : nat) (base : list Z) (s : Duration.state) : Prop := {
  inv_workers : length (Duration.workers s) = c;
  inv_sem : (Duration.sem s + Duration.in_flight s = c)%nat;
  inv_unfinished :
    Duration.unfinished s =
    (length (Duration.queue s) + length (Duration.held (Duration.workers s)))%nat;
  inv_ids :
    seqZ 0 (Duration.request_id s) ++ base ≡ₚ
    Duration.queue s ++ Duration.held (Duration.workers s)
                     ++ outcome_ids (Duration.self s);
  inv_request_id : 0 <= Duration.request_id s;
  inv_admitted : map fst (Duration.admitted s) = seqZ 0 (Duration.request_id s);
  inv_deadline :
    Forall (fun a => Float64.ltb a.2 (Duration.deadline s) = true) (Duration.admitted s);
  inv_exit :
    Duration.WExit ∈ Duration.workers s ->
    Duration.queue s = [] /\ Duration.pc s <> Duration.Admitting;
  inv_finished : Duration.pc s = Duration.Finished -> Duration.unfinished s = 0%nat
}.

(** The network raises nothing but subclasses of [Exception]. *)
Definition env_ordinary (e : env) : Prop := forall id, io_ordinary (net e id) = true.

(** From the [n]-th reading on, the clock is at or past [deadline]. *)
Definition clock_reaches (e : env) (n : nat) (deadline : spec_float) : Prop :=
  forall t, (n <= t)%nat -> Float64.ltb (clock e t) deadline = false.

(** Steps a worker still has to take before it waits on the queue with
    nothing in hand. *)
Definition worker_weight (w : Duration.wstate) : nat :=
  match w with
  | Duration.WGet => 1
  | Duration.WAcquire _ => 3
  | Duration.WRequest _ _ => 2
  | Duration.WExit => 0
  end.

(** A bound on the number of steps left in a duration-bound run whose
    clock reaches the deadline at the [n]-th reading. *)
Definition duration_measure (n : nat) (s : Duration.state) : nat :=
  (match Duration.pc s with
   | Duration.Admitting => 4 * (n - Duration.tick s) + 5
   | Duration.Joining => 1
   | Duration.Finished => 0
   end
   + 3 * length (Duration.queue s)
   + sum_list_with worker_weight (Duration.workers s))%nat.

(** The id of a finished task. *)
Definition done_id (t : Z * Count.tstate) : option Z :=
  match t.2 with Count.Done => Some t.1 | _ => None end.

(** What holds in every state of a count-bound run with concurrency limit
    [c] and [n] requests on a tester that already held outcomes for the
    ids [base]: tasks are created with the ids 0, 1, 2, ... in order; the
    list [tasks] holds every task that has not finished and, for a
    positive limit, never more than [c] of them; the finished tasks are
    the ones with an outcome. *)
Record count_inv (c : nat) (n : Z) (base : list Z) (s : Count.state) : Prop := {
  cinv_concurrent : Z.to_nat (concurrent (Count.self s)) = c;
  cinv_total : total_requests (Count.self s) = n;
  cinv_ids : map fst (Count.table s) = seqZ 0 (Z.of_nat (length (Count.table s)));
  cinv_pc :
    match Count.pc s with
    | Count.Loop i =>
        i = Z.of_nat (length (Count.table s)) /\ i <= Z.max n 0 /\
        ((0 < c)%nat -> (length (Count.tasks s) < c)%nat)
    | Count.Gather i =>
        i + 1 = Z.of_nat (length (Count.table s)) /\ i < n
    | Count.FinalGather | Count.Finished =>
        Z.of_nat (length (Count.table s)) = Z.max n 0
    end;
  cinv_bound : (0 < c)%nat -> (length (Count.tasks s) <= c)%nat;
  cinv_pending :
    forall t, t ∈ Count.table s -> Count.is_done t = false -> t.1 ∈ Count.tasks s;
  cinv_tasks : forall id, id ∈ Count.tasks s -> id ∈ map fst (Count.table s);
  cinv_outcomes :
    omap done_id (Count.table s) ++ base ≡ₚ outcome_ids (Count.self s);
  cinv_finished :
    Count.pc s = Count.Finished ->
    Forall (fun t => Count.is_done t = true) (Count.table s)
}.

Definition task_weight (t : Z * Count.tstate) : nat :=
  match t.2 with
  | Count.Created => 2
  | Count.Running _ => 1
  | Count.Done => 0
  end.

(** A bound on the number of steps left in a count-bound run of [n]
    requests. *)
Definition count_measure (n : Z) (s : Count.state) : nat :=
  (match Count.pc s with
   | Count.Loop i => 2 + 5 * Z.to_nat (n - i)
   | Count.Gather i => 3 + 5 * Z.to_nat (n - (i + 1))
   | Count.FinalGather => 1
   | Count.Finished => 0
   end
   + sum_list_with task_weight (Count.table s))%nat.

(** A clock that stands at 0 for three readings and at 10 afterwards, and
    a network on which every third request times out. *)
Definition sample_env : env :=
  {| clock := fun t => if (t <? 3)%nat then Float64.of_int 0 else Float64.of_int 10;
     net := fun id => if id mod 3 =? 0 then Failed (Exn AsyncioTimeoutError "")
                      else Got 200 "ok";
     now_iso := fun _ => "2024-01-01T00:00:00" |}.

(** [LoadTester("http://target", concurrent=2, total_requests=5)] *)
Definition sample_count_tester : LoadTester := init "http://target" 2 5 None 30.

(** [LoadTester("http://target", concurrent=2, duration=5)] *)
Definition sample_duration_tester : LoadTester := init "http://target" 2 100 (Some 5) 30.

(** A configuration the specification calls invalid: a concurrency limit
    that is zero or negative, or a request count or a duration that is
    not positive. *)
Definition invalid_configuration (a : args) : Prop :=
  args_concurrent a <= 0 \/
  match args_duration a with
  | Some d => d <= 0
  | None => args_requests a <= 0
  end.

(** [load-test.py target --concurrent 0 --requests 2] *)
Definition zero_limit_args : args :=
  {| args_url := "target"; args_concurrent := 0; args_requests := 2;
     args_duration := None; args_timeout := 30; args_output := None |}.

(** [load-test.py target --concurrent -1 --requests 2] *)
Definition negative_limit_args : args :=
  {| args_url := "target"; args_concurrent := -1; args_requests := 2;
     args_duration := None; args_timeout := 30; args_output := None |}.

(** ** Further observations on a run *)

(** Tasks of a count-bound run that are created and have not finished. *)
Definition count_pending (s : Count.state) : nat :=
  length (filter (fun t => negb (Count.is_done t)) (Count.table s)).

(** The test of [main] on the URL:
    [args.url.startswith(('http://', 'https://'))]. *)
Definition has_scheme (u : string) : bool :=
  String.prefix "http://" u || String.prefix "https://" u.

(** A network on which every request gets a response. *)
Definition env_responsive (e : env) : Prop :=
  forall id, exists status content, net e id = Got status content.

(** [LoadTester("http://target", concurrent=0, duration=5)] *)
Definition zero_limit_duration_tester : LoadTester := init "http://target" 0 100 (Some 5) 30.

(** A network on which every request fails, in an ordinary way. *)
Definition env_failing (e : env) : Prop :=
  forall id, exists x, net e id = Failed x /\ is_Exception x = true.

(** The part of a tester that [__init__] copies from its arguments, as
    [save_report] writes it under [test_config]. *)
Definition configuration (self : LoadTester) : string * Z * Z * option Z * Z :=
  (url self, concurrent self, total_requests self, duration self, timeout self).


(* ================================================================= *)
(** * Properties *)

(** ** The issuer returns values *)

Lemma make_request_got self status content t0 t1 now request_id :
  make_request self (Got status content) t0 t1 now request_id =
  (set_results self
     (results self ++ [Result request_id status (Float64.sub t1 t0)
                              (Z.of_nat (String.length content)) now]),
   Returns (Success (Result request_id status (Float64.sub t1 t0)
                            (Z.of_nat (String.length content)) now))).
Proof. reflexivity. Qed.

Lemma make_request_failed self x t0 t1 now request_id :
  is_Exception x = true ->
  make_request self (Failed x) t0 t1 now request_id =
  (set_errors self
     (errors self ++ [Error request_id
                            (if is_TimeoutError x then "Timeout" else exn_str x)
                            (Float64.sub t1 t0) now]),
   Returns (Failure (Error request_id
                           (if is_TimeoutError x then "Timeout" else exn_str x)
                           (Float64.sub t1 t0) now))).
Proof.
  intros Hx. unfold make_request. rewrite Hx.
  destruct (is_TimeoutError x); reflexivity.
Qed.

(** An ordinary network result makes the issuer return, with one more
    outcome recorded, under the id it was called with. *)
Lemma make_request_returns self r t0 t1 now request_id :
  io_ordinary r = true ->
  exists self' o,
    make_request self r t0 t1 now request_id = (self', Returns o) /\
    outcome_request_id o = request_id /\
    outcome_ids self' ≡ₚ request_id :: outcome_ids self /\
    concurrent self' = concurrent self /\
    total_requests self' = total_requests self.
Proof.
  intros Hr. destruct r as [status content | x]; simpl in Hr.
  - eexists _, _. split; [apply make_request_got |].
    repeat split; try reflexivity.
    unfold outcome_ids; simpl. rewrite map_app; simpl.
    rewrite <- app_assoc. simpl. symmetry. apply Permutation_middle.
  - eexists _, _. split; [apply make_request_failed; exact Hr |].
    repeat split; try reflexivity.
    unfold outcome_ids; simpl. rewrite map_app; simpl.
    rewrite app_assoc. rewrite <- Permutation_cons_append. reflexivity.
Qed.

(** C8. Every invocation of the issuer whose network operation ends in a
    response or in a failure (any subclass of [Exception]) returns an
    outcome value and raises nothing: a response gives a success carrying
    the status and the body length, a time-out gives the error outcome
    with message ['Timeout'], every other failure gives the error outcome
    whose message is the string of the failure; the outcome is appended to
    the matching list of the tester. *)
Theorem make_request_never_raises self r t0 t1 now request_id :
  io_ordinary r = true ->
  exists self' o,
    make_request self r t0 t1 now request_id = (self', Returns o) /\
    outcome_request_id o = request_id /\
    match r with
    | Got status content =>
        o = Success (Result request_id status (Float64.sub t1 t0)
                            (Z.of_nat (String.length content)) now) /\
        results self' = results self ++
          [Result request_id status (Float64.sub t1 t0)
                  (Z.of_nat (String.length content)) now] /\
        errors self' = errors self
    | Failed x =>
        exists err,
          o = Failure err /\
          error_message err = (if is_TimeoutError x then "Timeout" else exn_str x) /\
          error_response_time err = Float64.sub t1 t0 /\
          errors self' = errors self ++ [err] /\
          results self' = results self
    end.
Proof.
  intros Hr. destruct r as [status content | x]; simpl in Hr.
  - eexists _, _. split; [apply make_request_got |]. auto.
  - eexists _, _. split; [apply make_request_failed; exact Hr |].
    split; [reflexivity |]. eexists. repeat split; reflexivity.
Qed.

Lemma make_request_never_raises_witness :
  io_ordinary (Failed (Exn ClientError "Connection refused")) = true /\
  exists self' o,
    make_request (init "http://target" 10 100 None 30)
                 (Failed (Exn ClientError "Connection refused"))
                 (Float64.of_int 1) (Float64.of_int 2) "2024-01-01T00:00:00" 7
      = (self', Returns o) /\
    outcome_request_id o = 7.
Proof.
  split; [reflexivity |].
  destruct (make_request_never_raises (init "http://target" 10 100 None 30)
              (Failed (Exn ClientError "Connection refused"))
              (Float64.of_int 1) (Float64.of_int 2) "2024-01-01T00:00:00" 7
              eq_refl) as (self' & o & H1 & H2 & _).
  exists self', o. split; [exact H1 | exact H2].
Defined.

(** Cancellation is no failure of the request: a [CancelledError] passes
    through both handlers. *)
Lemma make_request_cancelled self t0 t1 now request_id :
  make_request self (Failed (Exn CancelledError "")) t0 t1 now request_id =
  (self, Raises (Exn CancelledError "")).
Proof. reflexivity. Qed.

(** ** Status histogram *)

Lemma sum_values_bump counts code :
  sum_values (bump counts code) = sum_values counts + 1.
Proof.
  unfold bump, sum_values.
  destruct (counts !! code) as [v |] eqn:Hc; simpl.
  - rewrite <- insert_delete_eq.
    rewrite map_fold_insert_L; [| intros; lia | apply lookup_delete_eq].
    rewrite (map_fold_delete_L _ _ code v counts); [lia | intros; lia | exact Hc].
  - rewrite map_fold_insert_L; [lia | intros; lia | exact Hc].
Qed.

Lemma fold_bump_sum codes counts :
  sum_values (fold_left bump codes counts) = sum_values counts + Z.of_nat (length codes).
Proof.
  revert counts. induction codes as [| c codes IH]; intros counts; simpl.
  - lia.
  - rewrite IH, sum_values_bump. lia.
Qed.

Lemma fold_bump_lookup codes counts code :
  fold_left bump codes counts !! code =
  if decide (code ∈ codes)
  then Some (default 0 (counts !! code) + Z.of_nat (count_occ Z.eq_dec codes code))
  else counts !! code.
Proof.
  revert counts. induction codes as [| c codes IH]; intros counts.
  - cbn [fold_left]. destruct (decide (code ∈ [])) as [Hin | _]; [| reflexivity].
    apply not_elem_of_nil in Hin. contradiction.
  - cbn [fold_left count_occ]. rewrite IH. unfold bump.
    destruct (Z.eq_dec c code) as [-> | Hne].
    + rewrite lookup_insert_eq. cbn [default].
      destruct (decide (code ∈ code :: codes)) as [_ | Hn];
        [| exfalso; apply Hn, list_elem_of_here].
      destruct (decide (code ∈ codes)) as [Hin | Hnin].
      * f_equal. unfold id. lia.
      * f_equal.
        assert (count_occ Z.eq_dec codes code = 0%nat) as ->.
        { apply count_occ_not_In. rewrite <- list_elem_of_In. exact Hnin. }
        unfold id. lia.
    + rewrite lookup_insert_ne by exact Hne.
      destruct (decide (code ∈ codes)) as [Hin | Hnin];
        destruct (decide (code ∈ c :: codes)) as [Hin' | Hnin']; try reflexivity.
      * exfalso. apply Hnin', list_elem_of_further, Hin.
      * apply elem_of_cons in Hin' as [Heq | Hin']; [congruence | contradiction].
Qed.

(** C10. For every list of status codes, [count_status_codes] returns a
    mapping that holds exactly the codes occurring in the list, each with
    its number of occurrences; the counts add up to the length of the
    list. *)
Theorem count_status_codes_histogram (status_codes : list Z) :
  dom (count_status_codes status_codes) = list_to_set status_codes /\
  (forall code,
     count_status_codes status_codes !! code =
     if decide (code ∈ status_codes)
     then Some (Z.of_nat (count_occ Z.eq_dec status_codes code))
     else None) /\
  sum_values (count_status_codes status_codes) = Z.of_nat (length status_codes).
Proof.
  assert (Hlk : forall code,
     count_status_codes status_codes !! code =
     if decide (code ∈ status_codes)
     then Some (Z.of_nat (count_occ Z.eq_dec status_codes code))
     else None).
  { intros code. unfold count_status_codes.
    rewrite fold_bump_lookup, lookup_empty. cbn [default].
    destruct (decide _); reflexivity. }
  split; [| split].
  - apply set_eq. intros code.
    rewrite elem_of_dom, elem_of_list_to_set, Hlk.
    destruct (decide (code ∈ status_codes)) as [Hin | Hnin].
    + split; [intros _; exact Hin | intros _; eexists; reflexivity].
    + split; [intros [v Hv]; discriminate | contradiction].
  - exact Hlk.
  - unfold count_status_codes.
    rewrite fold_bump_sum. unfold sum_values. rewrite map_fold_empty. lia.
Qed.

(** ** Statistics: totals, rates and the no-data value *)

Section StatisticsFacts.
Variable statistics_mean : list number -> number.
Variable statistics_median : list number -> number.


Lemma calculate_statistics_nil self :
  results self = [] -> calculate_statistics statistics_mean statistics_median self = Returns None.
Proof. intros H. unfold calculate_statistics. rewrite H. reflexivity. Qed.

(** The no-data value is returned for an empty list of successes only. *)
Lemma calculate_statistics_None self :
  calculate_statistics statistics_mean statistics_median self = Returns None <-> results self = [].
Proof.
  split; [| apply calculate_statistics_nil].
  unfold calculate_statistics.
  destruct (results self) as [| r0 rs]; [reflexivity |].
  destruct (end_time self), (start_time self); try discriminate.
  destruct (percentile Float64.ltb _ 95); [| discriminate].
  destruct (percentile Float64.ltb _ 99); discriminate.
Qed.

(** The fields every computed record of statistics carries. *)
Lemma calculate_statistics_Some self st :
  calculate_statistics statistics_mean statistics_median self = Returns (Some st) ->
  stats_total_requests st =
    Z.of_nat (length (results self)) + Z.of_nat (length (errors self)) /\
  successful_requests st = Z.of_nat (length (results self)) /\
  failed_requests st = Z.of_nat (length (errors self)) /\
  success_rate st =
    (if 0 <? stats_total_requests st then
       Float (Float64.mul
                (Float64.div (Float64.of_int (Z.of_nat (length (results self))))
                             (Float64.of_int (stats_total_requests st)))
                (Float64.of_int 100))
     else Int 0) /\
  stats_status_codes st = count_status_codes (map status_code (results self)) /\
  results self <> [].
Proof.
  unfold calculate_statistics.
  destruct (results self) as [| r0 rs] eqn:Hres; [discriminate |].
  destruct (end_time self), (start_time self); try discriminate.
  destruct (percentile Float64.ltb _ 95); [| discriminate].
  destruct (percentile Float64.ltb _ 99); [| discriminate].
  intros [= <-]. cbn -[Float64.mul Float64.div Float64.of_int Z.of_nat
                        count_status_codes Z.ltb].
  repeat split; discriminate.
Qed.

(** C4. Whenever the list of successes is empty, [calculate_statistics]
    returns the no-data value [None] and raises nothing, and both of its
    callers test for it before they render: [print_report] prints the
    notice only, [save_report] writes nothing, and [run] ends normally
    with the notice. *)
Theorem no_data_signalled self now :
  results self = [] ->
  calculate_statistics statistics_mean statistics_median self = Returns None /\
  print_report statistics_mean statistics_median self = Returns NoDataNotice /\
  save_report statistics_mean statistics_median self now = Returns None /\
  report statistics_mean statistics_median self = Completed self NoDataNotice.
Proof.
  intros H. pose proof (calculate_statistics_nil self H) as Hc.
  unfold report, print_report, save_report.
  rewrite Hc. repeat split; reflexivity.
Qed.

(** C5, as the code has it. A run in which every request errors does
    not crash the statistics path: [calculate_statistics] returns the
    no-data value, [print_report] prints the notice only, [save_report]
    writes nothing and [run] ends normally. No record of statistics is
    produced for such a run, zero-filled or otherwise; the no-data value
    is returned for no other run, so it cannot be taken for a run with
    zero latency. *)
Theorem total_failure_reports_no_data self now :
  results self = [] -> errors self <> [] ->
  calculate_statistics statistics_mean statistics_median self = Returns None /\
  print_report statistics_mean statistics_median self = Returns NoDataNotice /\
  save_report statistics_mean statistics_median self now = Returns None /\
  report statistics_mean statistics_median self = Completed self NoDataNotice /\
  (forall other, calculate_statistics statistics_mean statistics_median other = Returns None -> results other = []).
Proof.
  intros H _. pose proof (calculate_statistics_nil self H) as Hc.
  unfold report, print_report, save_report.
  rewrite Hc. repeat split; try reflexivity.
  intros other. apply calculate_statistics_None.
Qed.

(** C7. For every final snapshot for which statistics are computed,
    [total_requests] is the number of successes plus the number of
    errors and [success_rate] is successes / total * 100 (0 when the
    total is 0), computed in double precision; seven successes with
    status 200 and three time-outs give a rate of exactly 70.0, three
    failed requests and the histogram {200: 7}. *)
Theorem statistics_totals :
  (forall self st,
     calculate_statistics statistics_mean statistics_median self = Returns (Some st) ->
     stats_total_requests st =
       Z.of_nat (length (results self)) + Z.of_nat (length (errors self)) /\
     successful_requests st = Z.of_nat (length (results self)) /\
     failed_requests st = Z.of_nat (length (errors self)) /\
     success_rate st =
       (if 0 <? stats_total_requests st then
          Float (Float64.mul
                   (Float64.div (Float64.of_int (Z.of_nat (length (results self))))
                                (Float64.of_int (stats_total_requests st)))
                   (Float64.of_int 100))
        else Int 0)) /\
  (exists st,
     calculate_statistics statistics_mean statistics_median mixed_run = Returns (Some st) /\
     stats_total_requests st = 10 /\
     success_rate st = Float (Float64.of_int 70) /\
     failed_requests st = 3 /\
     stats_status_codes st = {[ 200 := 7 ]}).
Proof.
  split.
  - intros self st H.
    destruct (calculate_statistics_Some self st H) as (H1 & H2 & H3 & H4 & _).
    auto.
  - eexists. split; [vm_compute; reflexivity |].
    repeat split; vm_compute; reflexivity.
Qed.

End StatisticsFacts.

Lemma no_data_signalled_witness :
  results all_failed_run = [] /\
  calculate_statistics (fun _ => Int 0) (fun _ => Int 0) all_failed_run = Returns None /\
  print_report (fun _ => Int 0) (fun _ => Int 0) all_failed_run = Returns NoDataNotice.
Proof.
  split; [reflexivity |].
  destruct (no_data_signalled (fun _ => Int 0) (fun _ => Int 0) all_failed_run
              "2024-01-01T00:01:00" eq_refl) as (H1 & H2 & _).
  split; [exact H1 | exact H2].
Defined.

Lemma total_failure_reports_no_data_witness :
  results all_failed_run = [] /\ errors all_failed_run <> [] /\
  calculate_statistics (fun _ => Int 0) (fun _ => Int 0) all_failed_run = Returns None /\
  report (fun _ => Int 0) (fun _ => Int 0) all_failed_run
    = Completed all_failed_run NoDataNotice.
Proof.
  split; [reflexivity |]. split; [discriminate |].
  destruct (total_failure_reports_no_data (fun _ => Int 0) (fun _ => Int 0)
              all_failed_run "2024-01-01T00:01:00" eq_refl ltac:(discriminate))
    as (H1 & _ & _ & H4 & _).
  split; [exact H1 | exact H4].
Defined.

Lemma statistics_totals_witness :
  exists st,
    calculate_statistics (fun _ => Int 0) (fun _ => Int 0) mixed_run = Returns (Some st) /\
    stats_total_requests st = 10 /\ failed_requests st = 3.
Proof.
  destruct (statistics_totals (fun _ => Int 0) (fun _ => Int 0)) as [Hall [st [Hst _]]].
  exists st. split; [exact Hst |].
  destruct (Hall mixed_run st Hst) as (H1 & _ & H3 & _).
  split; [rewrite H1 | rewrite H3]; reflexivity.
Defined.

(** The claim of C5 read literally: some record of statistics is produced
    for a run without successes. The code produces none. *)
Lemma total_failure_no_statistics :
  ~ exists mean median st,
      calculate_statistics mean median all_failed_run = Returns (Some st).
Proof. intros (mean & median & st & H). discriminate H. Qed.

(** ** Lists updated in place *)

Lemma insert_split {A} (l : list A) (i : nat) (x y : A) :
  l !! i = Some x ->
  exists l1 l2, l = l1 ++ x :: l2 /\ <[i := y]> l = l1 ++ y :: l2.
Proof.
  intros H. exists (take i l), (drop (S i) l). split.
  - symmetry. apply take_drop_middle. exact H.
  - apply insert_take_drop. apply lookup_lt_Some in H. exact H.
Qed.

(** Replacing one element changes a count by what the two elements
    contribute. *)
Lemma filter_insert_length {A} (P : A -> bool) (l : list A) (i : nat) (x y : A) :
  l !! i = Some x ->
  (length (filter P (<[i := y]> l)) + (if P x then 1 else 0) =
   length (filter P l) + (if P y then 1 else 0))%nat.
Proof.
  intros H. destruct (insert_split l i x y H) as (l1 & l2 & -> & ->).
  rewrite !filter_app, !filter_cons, !length_app.
  destruct (P x) eqn:Hx, (P y) eqn:Hy; simpl;
    repeat (destruct (decide _) as [Hd | Hd]; simpl; try (exfalso; auto; fail));
    try lia.
Qed.

Lemma omap_insert_same {A B} (f : A -> option B) (l : list A) (i : nat) (x y : A) :
  l !! i = Some x -> f x = f y -> omap f (<[i := y]> l) = omap f l.
Proof.
  intros H Hf. destruct (insert_split l i x y H) as (l1 & l2 & -> & ->).
  rewrite !omap_app. simpl. rewrite Hf. reflexivity.
Qed.

Lemma omap_insert_gain {A B} (f : A -> option B) (l : list A) (i : nat) (x y : A) b :
  l !! i = Some x -> f x = None -> f y = Some b ->
  omap f (<[i := y]> l) ≡ₚ b :: omap f l.
Proof.
  intros H Hx Hy. destruct (insert_split l i x y H) as (l1 & l2 & -> & ->).
  rewrite !omap_app. simpl. rewrite Hx, Hy.
  symmetry. apply Permutation_middle.
Qed.

Lemma omap_insert_lose {A B} (f : A -> option B) (l : list A) (i : nat) (x y : A) b :
  l !! i = Some x -> f x = Some b -> f y = None ->
  omap f l ≡ₚ b :: omap f (<[i := y]> l).
Proof.
  intros H Hx Hy. destruct (insert_split l i x y H) as (l1 & l2 & -> & ->).
  rewrite !omap_app. simpl. rewrite Hx, Hy.
  symmetry. apply Permutation_middle.
Qed.

(** What a returning call of the issuer leaves behind. *)
Lemma make_request_Returns self r t0 t1 now request_id self' o :
  make_request self r t0 t1 now request_id = (self', Returns o) ->
  outcome_request_id o = request_id /\
  outcome_ids self' ≡ₚ request_id :: outcome_ids self /\
  concurrent self' = concurrent self /\
  total_requests self' = total_requests self /\
  start_time self' = start_time self.
Proof.
  unfold make_request. destruct r as [status content | x].
  - intros [= <- <-]. repeat split; try reflexivity.
    unfold outcome_ids; simpl. rewrite map_app; simpl.
    rewrite <- app_assoc. simpl. symmetry. apply Permutation_middle.
  - assert (Hperm : forall err, error_request_id err = request_id ->
              outcome_ids (set_errors self (errors self ++ [err]))
                ≡ₚ request_id :: outcome_ids self).
    { intros err <-. unfold outcome_ids; simpl. rewrite map_app; simpl.
      rewrite app_assoc. rewrite <- Permutation_cons_append. reflexivity. }
    destruct (is_TimeoutError x); [| destruct (is_Exception x)];
      intros [= <- <-]; repeat split; try reflexivity; apply Hperm; reflexivity.
Qed.

Lemma elem_of_insert_inv {A} (l : list A) (i : nat) (x y : A) :
  x ∈ <[i := y]> l -> x = y \/ x ∈ l.
Proof.
  destruct (l !! i) as [z |] eqn:Hi.
  - destruct (insert_split l i z y Hi) as (l1 & l2 & -> & ->).
    rewrite !elem_of_app, !elem_of_cons. tauto.
  - rewrite list_insert_ge; [tauto |]. apply lookup_ge_None. exact Hi.
Qed.

Lemma seqZ_snoc (n : Z) : 0 <= n -> seqZ 0 (n + 1) = seqZ 0 n ++ [n].
Proof.
  intros Hn. rewrite seqZ_app by lia. f_equal.
Qed.

(** ** Duration-bound driver: safety *)

Section DurationSafety.
Variable e : env.

Lemma in_flight_le_held ws :
  (length (filter Duration.is_request ws) <= length (Duration.held ws))%nat.
Proof.
  induction ws as [| w ws IH]; [reflexivity |].
  rewrite filter_cons. unfold Duration.held in *.
  destruct w; simpl;
    change (list_omap _ _ Duration.held_id ws) with (omap Duration.held_id ws);
    lia.
Qed.

Lemma duration_inv_initial tester d :
  duration_inv (Z.to_nat (concurrent tester)) (outcome_ids tester)
               (Duration.initial e tester d).
Proof.
  set (c := Z.to_nat (concurrent tester)).
  assert (Hheld : Duration.held (replicate c Duration.WGet) = []).
  { generalize c. intros n. induction n as [| n IH]; [reflexivity | exact IH]. }
  assert (Hfl : filter Duration.is_request (replicate c Duration.WGet) = []).
  { generalize c. intros n. induction n as [| n IH]; [reflexivity | exact IH]. }
  constructor; unfold Duration.initial, Duration.in_flight; simpl; fold c.
  - apply length_replicate.
  - rewrite Hfl. simpl. lia.
  - rewrite Hheld. reflexivity.
  - rewrite Hheld. reflexivity.
  - lia.
  - reflexivity.
  - constructor.
  - intros [H _]%elem_of_replicate. discriminate.
  - discriminate.
Qed.

Lemma duration_inv_step c base s s' :
  duration_inv c base s -> Duration.step e s s' -> duration_inv c base s'.
Proof.
  intros [Hw Hs Hu Hi Hr Ha Hd Hx Hf] Hstep.
  unfold Duration.in_flight in *.
  destruct Hstep as
    [s Hpc Hb | s Hpc Hb | s Hpc Hz | s i rid q Hpc Hwi Hq | s i Hpc Hwi Hq
    | s i rid Hpc Hwi Hpos | s i rid t0 self' o Hpc Hwi Hio].
  - (* a request is put on the queue *)
    constructor; unfold Duration.in_flight; simpl.
    + exact Hw.
    + exact Hs.
    + rewrite Hu, length_app. simpl. lia.
    + rewrite seqZ_snoc by exact Hr.
      rewrite <- (app_assoc (seqZ 0 _)), <- (app_assoc (Duration.queue s)).
      simpl. rewrite <- !Permutation_middle. rewrite Hi. reflexivity.
    + lia.
    + rewrite map_app, Ha, seqZ_snoc by exact Hr. reflexivity.
    + apply Forall_app. split; [exact Hd |].
      constructor; [exact Hb | constructor].
    + intros Hin. destruct (Hx Hin) as [_ Hne]. contradiction.
    + discriminate.
  - (* stop *)
    constructor; unfold Duration.in_flight; simpl;
      [exact Hw | exact Hs | exact Hu | exact Hi | exact Hr | exact Ha | exact Hd | |].
    + intros Hin. destruct (Hx Hin) as [_ Hne]. contradiction.
    + discriminate.
  - (* join *)
    assert (Hq : Duration.queue s = []) by (apply length_zero_iff_nil; lia).
    assert (Hh : Duration.held (Duration.workers s) = [])
      by (apply length_zero_iff_nil; lia).
    assert (Hfl : length (filter Duration.is_request (Duration.workers s)) = 0%nat).
    { pose proof (in_flight_le_held (Duration.workers s)) as Hle.
      rewrite Hh in Hle. simpl in Hle. lia. }
    assert (Hall : forall ws : list Duration.wstate,
              Duration.held ((fun _ => Duration.WExit) <$> ws) = [] /\
              filter Duration.is_request ((fun _ => Duration.WExit) <$> ws) = []).
    { induction ws as [| w ws [IH1 IH2]]; [split; reflexivity |].
      split; [exact IH1 | exact IH2]. }
    destruct (Hall (Duration.workers s)) as [Hh' Hfl'].
    constructor; unfold Duration.in_flight; simpl.
    + rewrite length_fmap. exact Hw.
    + rewrite Hfl'. simpl. lia.
    + rewrite Hh', Hq. simpl. lia.
    + rewrite Hh'. rewrite Hh in Hi. exact Hi.
    + exact Hr.
    + exact Ha.
    + exact Hd.
    + intros _. split; [exact Hq | discriminate].
    + intros _. exact Hz.
  - (* get *)
    pose proof (omap_insert_gain Duration.held_id _ i _ (Duration.WAcquire rid) rid
                  Hwi eq_refl eq_refl) as Hg.
    pose proof (filter_insert_length Duration.is_request _ i _
                  (Duration.WAcquire rid) Hwi) as Hc. simpl in Hc.
    fold (Duration.held (<[i:=Duration.WAcquire rid]> (Duration.workers s))) in Hg.
    fold (Duration.held (Duration.workers s)) in Hg.
    constructor; unfold Duration.in_flight; simpl.
    + rewrite length_insert. exact Hw.
    + lia.
    + rewrite Hu, Hq, Hg. simpl. lia.
    + rewrite Hi, Hq, Hg. simpl. apply Permutation_middle.
    + exact Hr.
    + exact Ha.
    + exact Hd.
    + intros [Heq | Hin]%elem_of_insert_inv; [discriminate |].
      destruct (Hx Hin) as [Hq' _]. congruence.
    + intros Hfin. contradiction.
  - (* timeout *)
    pose proof (omap_insert_same Duration.held_id _ i _ Duration.WExit
                  Hwi eq_refl) as Hg.
    pose proof (filter_insert_length Duration.is_request _ i _
                  Duration.WExit Hwi) as Hc. simpl in Hc.
    fold (Duration.held (<[i:=Duration.WExit]> (Duration.workers s))) in Hg.
    fold (Duration.held (Duration.workers s)) in Hg.
    constructor; unfold Duration.in_flight; simpl.
    + rewrite length_insert. exact Hw.
    + lia.
    + rewrite Hg. exact Hu.
    + rewrite Hg. exact Hi.
    + exact Hr.
    + exact Ha.
    + exact Hd.
    + intros _. split; [exact Hq | congruence].
    + congruence.
  - (* acquire *)
    pose proof (omap_insert_same Duration.held_id _ i _
                  (Duration.WRequest rid (clock e (Duration.tick s)))
                  Hwi eq_refl) as Hg.
    pose proof (filter_insert_length Duration.is_request _ i _
                  (Duration.WRequest rid (clock e (Duration.tick s))) Hwi) as Hc.
    simpl in Hc.
    fold (Duration.held (<[i:=Duration.WRequest rid (clock e (Duration.tick s))]>
                           (Duration.workers s))) in Hg.
    fold (Duration.held (Duration.workers s)) in Hg.
    constructor; unfold Duration.in_flight; simpl.
    + rewrite length_insert. exact Hw.
    + lia.
    + rewrite Hg. exact Hu.
    + rewrite Hg. exact Hi.
    + exact Hr.
    + exact Ha.
    + exact Hd.
    + intros [Heq | Hin]%elem_of_insert_inv; [discriminate |]. auto.
    + intros Hfin. contradiction.
  - (* done *)
    pose proof (omap_insert_lose Duration.held_id _ i _ Duration.WGet rid
                  Hwi eq_refl eq_refl) as Hg.
    pose proof (filter_insert_length Duration.is_request _ i _
                  Duration.WGet Hwi) as Hc. simpl in Hc.
    fold (Duration.held (<[i:=Duration.WGet]> (Duration.workers s))) in Hg.
    fold (Duration.held (Duration.workers s)) in Hg.
    destruct (make_request_Returns _ _ _ _ _ _ _ _ Hio) as (_ & Hout & _).
    pose proof (Permutation_length Hg) as Hlen. simpl in Hlen.
    constructor; unfold Duration.in_flight; simpl.
    + rewrite length_insert. exact Hw.
    + lia.
    + lia.
    + rewrite Hi, Hg, Hout. simpl.
      rewrite <- !Permutation_middle. reflexivity.
    + exact Hr.
    + exact Ha.
    + exact Hd.
    + intros [Heq | Hin]%elem_of_insert_inv; [discriminate |]. auto.
    + intros Hfin. contradiction.
Qed.

Lemma duration_inv_reachable tester d s :
  rtc (Duration.step e) (Duration.initial e tester d) s ->
  duration_inv (Z.to_nat (concurrent tester)) (outcome_ids tester) s.
Proof.
  intros H.
  apply (rtc_ind_r (R := Duration.step e)
           (fun s => duration_inv _ _ s) (Duration.initial e tester d));
    [apply duration_inv_initial | | exact H].
  intros y z _ Hstep IH. exact (duration_inv_step _ _ _ _ IH Hstep).
Qed.

End DurationSafety.

(** ** Duration-bound driver: the event loop finishes the run *)

Section DurationLiveness.
Variable e : env.

(** The event loop takes steps of the relation only. *)
Lemma duration_next_step s s' :
  Duration.next e s = Some s' -> Duration.step e s s'.
Proof.
  unfold Duration.next.
  destruct (Duration.pc s) eqn:Hpc.
  - destruct (Duration.before_deadline e s) eqn:Hb; intros [= <-].
    + apply Duration.step_enqueue; assumption.
    + apply Duration.step_stop; assumption.
  - assert (Hnf : Duration.pc s <> Duration.Finished) by congruence.
    assert (Hrest :
      match list_find (fun w => Duration.is_acquire w) (Duration.workers s),
            Duration.sem s with
      | Some (i, Duration.WAcquire rid), S _ => Some (Duration.w_acquire e i rid s)
      | _, _ =>
          match list_find (fun w => Duration.is_request w) (Duration.workers s) with
          | Some (i, Duration.WRequest rid t0) =>
              match Duration.issue e s rid t0 with
              | (self', Returns _) => Some (Duration.w_done i self' s)
              | (_, Raises _) => None
              end
          | _ => if decide (Duration.unfinished s = 0%nat)
                 then Some (Duration.join e s) else None
          end
      end = Some s' -> Duration.step e s s').
    { assert (Hlast :
        match list_find (fun w => Duration.is_request w) (Duration.workers s) with
        | Some (i, Duration.WRequest rid t0) =>
            match Duration.issue e s rid t0 with
            | (self', Returns _) => Some (Duration.w_done i self' s)
            | (_, Raises _) => None
            end
        | _ => if decide (Duration.unfinished s = 0%nat)
               then Some (Duration.join e s) else None
        end = Some s' -> Duration.step e s s').
      { destruct (list_find _ (Duration.workers s)) as [[i w] |] eqn:Hfind.
        - apply list_find_Some in Hfind as (Hi & _ & _).
          destruct w as [| | rid t0 |];
            try (case_decide; [intros [= <-]; apply Duration.step_join; assumption
                              | discriminate]).
          destruct (Duration.issue e s rid t0) as [self' [o | x]] eqn:Hio;
            [| discriminate].
          intros [= <-]. eapply Duration.step_done; eassumption.
        - case_decide; [intros [= <-]; apply Duration.step_join; assumption
                       | discriminate]. }
      destruct (list_find (fun w => Duration.is_acquire w) (Duration.workers s))
        as [[i w] |] eqn:Hfind; [| exact Hlast].
      apply list_find_Some in Hfind as (Hi & _ & _).
      destruct w as [| rid | |]; try exact Hlast.
      destruct (Duration.sem s) as [| n] eqn:Hsem; [exact Hlast |].
      intros [= <-]. apply Duration.step_acquire; [assumption | assumption | lia]. }
    destruct (Duration.queue s) as [| rid q] eqn:Hq; [exact Hrest |].
    destruct (list_find (fun w => Duration.is_get w) (Duration.workers s))
      as [[i w] |] eqn:Hfind; [| exact Hrest].
    apply list_find_Some in Hfind as (Hi & Hw & _).
    destruct w; try contradiction.
    intros [= <-]. apply Duration.step_get; assumption.
  - discriminate.
Qed.

Lemma sum_weight_insert (ws : list Duration.wstate) i w w' :
  ws !! i = Some w ->
  (sum_list_with worker_weight (<[i := w']> ws) + worker_weight w =
   sum_list_with worker_weight ws + worker_weight w')%nat.
Proof.
  intros H. destruct (insert_split ws i w w' H) as (l1 & l2 & -> & ->).
  rewrite !sum_list_with_app. simpl. lia.
Qed.

(** Every step, of any schedule, brings the run closer to its end. *)
Lemma duration_step_decreases n s s' :
  clock_reaches e n (Duration.deadline s) ->
  Duration.step e s s' ->
  (duration_measure n s' < duration_measure n s)%nat /\
  Duration.deadline s' = Duration.deadline s.
Proof.
  intros Hclock Hstep. unfold duration_measure.
  destruct Hstep as
    [s Hpc Hb | s Hpc Hb | s Hpc Hz | s i rid q Hpc Hwi Hq | s i Hpc Hwi Hq
    | s i rid Hpc Hwi Hpos | s i rid t0 self' o Hpc Hwi Hio]; simpl;
    (split; [| reflexivity]).
  - rewrite Hpc, length_app. simpl.
    assert (Duration.tick s < n)%nat.
    { destruct (Nat.lt_ge_cases (Duration.tick s) n) as [Hlt | Hge]; [exact Hlt |].
      unfold Duration.before_deadline in Hb. rewrite (Hclock _ Hge) in Hb.
      discriminate. }
    lia.
  - rewrite Hpc. lia.
  - rewrite Hpc.
    assert (sum_list_with worker_weight ((fun _ => Duration.WExit) <$> Duration.workers s)
            = 0%nat) as ->.
    { induction (Duration.workers s) as [| w ws IH]; [reflexivity | exact IH]. }
    lia.
  - pose proof (sum_weight_insert _ i _ (Duration.WAcquire rid) Hwi) as Hsum.
    rewrite Hq. simpl in *. destruct (Duration.pc s); lia.
  - pose proof (sum_weight_insert _ i _ Duration.WExit Hwi) as Hsum.
    simpl in *. destruct (Duration.pc s); lia.
  - pose proof (sum_weight_insert _ i _
                  (Duration.WRequest rid (clock e (Duration.tick s))) Hwi) as Hsum.
    simpl in *. destruct (Duration.pc s); lia.
  - pose proof (sum_weight_insert _ i _ Duration.WGet Hwi) as Hsum.
    simpl in *. destruct (Duration.pc s); lia.
Qed.

Lemma find_request_None (ws : list Duration.wstate) :
  list_find (fun w => Duration.is_request w) ws = None ->
  filter Duration.is_request ws = [].
Proof.
  intros H%list_find_None.
  induction H as [| w ws Hw _ IH]; [reflexivity |].
  rewrite filter_cons_False by exact Hw. exact IH.
Qed.

Lemma find_held_None (ws : list Duration.wstate) :
  list_find (fun w => Duration.is_acquire w) ws = None ->
  list_find (fun w => Duration.is_request w) ws = None ->
  Duration.held ws = [].
Proof.
  intros Ha%list_find_None Hr%list_find_None.
  induction ws as [| w ws IH]; [reflexivity |].
  apply Forall_cons in Ha as [Ha1 Ha2]. apply Forall_cons in Hr as [Hr1 Hr2].
  specialize (IH Ha2 Hr2).
  destruct w; simpl in *; try exact IH; exfalso; auto.
Qed.

Lemma find_all_exit (ws : list Duration.wstate) :
  list_find (fun w => Duration.is_get w) ws = None ->
  list_find (fun w => Duration.is_acquire w) ws = None ->
  list_find (fun w => Duration.is_request w) ws = None ->
  ws = [] \/ Duration.WExit ∈ ws.
Proof.
  intros Hg%list_find_None Ha%list_find_None Hr%list_find_None.
  destruct ws as [| w ws]; [left; reflexivity | right].
  apply Forall_cons in Hg as [Hg _]. apply Forall_cons in Ha as [Ha _].
  apply Forall_cons in Hr as [Hr _].
  destruct w; simpl in *; try (exfalso; auto; fail). apply list_elem_of_here.
Qed.

(** With at least one worker and a network that fails in ordinary ways
    only, the event loop always has a step to take until the run is
    finished. *)
Lemma duration_next_progress c base s :
  duration_inv c base s -> (0 < c)%nat -> env_ordinary e ->
  Duration.pc s <> Duration.Finished ->
  exists s', Duration.next e s = Some s'.
Proof.
  intros [Hw Hs Hu Hi Hr Ha Hd Hx Hf] Hc Henv Hpc.
  unfold Duration.next, Duration.in_flight in *.
  destruct (Duration.pc s) eqn:Hpc'; [eexists; reflexivity | | congruence].
  assert (Hdone : forall i rid t0,
            exists s', match Duration.issue e s rid t0 with
                       | (self', Returns _) => Some (Duration.w_done i self' s)
                       | (_, Raises _) => None
                       end = Some s').
  { intros i rid t0. unfold Duration.issue.
    destruct (make_request_returns (Duration.self s) (net e rid) t0
                (clock e (Duration.tick s)) (now_iso e (Duration.tick s)) rid
                (Henv rid)) as (self' & o & -> & _).
    eexists; reflexivity. }
  assert (Hrest : (Duration.queue s = [] \/
                   list_find (fun w => Duration.is_get w) (Duration.workers s) = None) ->
    exists s',
      match list_find (fun w => Duration.is_acquire w) (Duration.workers s),
            Duration.sem s with
      | Some (i, Duration.WAcquire rid), S _ => Some (Duration.w_acquire e i rid s)
      | _, _ =>
          match list_find (fun w => Duration.is_request w) (Duration.workers s) with
          | Some (i, Duration.WRequest rid t0) =>
              match Duration.issue e s rid t0 with
              | (self', Returns _) => Some (Duration.w_done i self' s)
              | (_, Raises _) => None
              end
          | _ => if decide (Duration.unfinished s = 0%nat)
                 then Some (Duration.join e s) else None
          end
      end = Some s').
  { intros Hqg.
    destruct (list_find (fun w => Duration.is_acquire w) (Duration.workers s))
      as [[i w] |] eqn:Hfa.
    - pose proof Hfa as Hfa'. apply list_find_Some in Hfa' as (_ & Hwa & _).
      destruct w as [| rid | |]; try contradiction.
      destruct (Duration.sem s) as [| n] eqn:Hsem; [| eexists; reflexivity].
      destruct (list_find (fun w => Duration.is_request w) (Duration.workers s))
        as [[j w] |] eqn:Hfr.
      + apply list_find_Some in Hfr as (_ & Hwr & _).
        destruct w as [| | rid' t0 |]; try contradiction. apply Hdone.
      + apply find_request_None in Hfr. rewrite Hfr in Hs. simpl in Hs. lia.
    - assert (Hrest' : exists s',
        match list_find (fun w => Duration.is_request w) (Duration.workers s) with
        | Some (i, Duration.WRequest rid t0) =>
            match Duration.issue e s rid t0 with
            | (self', Returns _) => Some (Duration.w_done i self' s)
            | (_, Raises _) => None
            end
        | _ => if decide (Duration.unfinished s = 0%nat)
               then Some (Duration.join e s) else None
        end = Some s').
      { destruct (list_find (fun w => Duration.is_request w) (Duration.workers s))
          as [[j w] |] eqn:Hfr.
        - apply list_find_Some in Hfr as (_ & Hwr & _).
          destruct w as [| | rid' t0 |]; try contradiction. apply Hdone.
        - pose proof (find_held_None _ Hfa Hfr) as Hheld.
          assert (Hq : Duration.queue s = []).
          { destruct Hqg as [Hq | Hfg]; [exact Hq |].
            destruct (find_all_exit _ Hfg Hfa Hfr) as [Hnil | Hex].
            - rewrite Hnil in Hw. simpl in Hw. lia.
            - apply Hx, Hex. }
          rewrite Hheld, Hq in Hu. simpl in Hu.
          rewrite decide_True by exact Hu. eexists; reflexivity. }
      destruct (Duration.sem s); exact Hrest'. }
  destruct (Duration.queue s) as [| rid q] eqn:Hq; [apply Hrest; left; reflexivity |].
  destruct (list_find (fun w => Duration.is_get w) (Duration.workers s))
    as [[i w] |] eqn:Hfg; [eexists; reflexivity |].
  apply Hrest. right. reflexivity.
Qed.

(** Enough fuel lets the event loop reach the end of the run, through
    steps of the relation. *)
Lemma duration_exec_finishes n c base fuel s :
  duration_inv c base s -> (0 < c)%nat -> env_ordinary e ->
  clock_reaches e n (Duration.deadline s) ->
  (duration_measure n s < fuel)%nat ->
  exists s', Duration.exec e fuel s = Some s' /\
             Duration.pc s' = Duration.Finished /\
             rtc (Duration.step e) s s'.
Proof.
  intros Hinv Hc Henv. revert s Hinv.
  induction fuel as [| fuel IH]; intros s Hinv Hclock Hfuel; [lia |].
  assert (Duration.pc s = Duration.Finished \/ Duration.pc s <> Duration.Finished)
    as [Hfin | Hnf] by (destruct (Duration.pc s); auto; right; discriminate).
  - exists s. simpl. rewrite Hfin. split; [reflexivity |]. split; reflexivity.
  - destruct (duration_next_progress c base s Hinv Hc Henv Hnf) as [s1 Hnext].
    pose proof (duration_next_step _ _ Hnext) as Hstep.
    destruct (duration_step_decreases n s s1 Hclock Hstep) as [Hlt Hdl].
    destruct (IH s1 (duration_inv_step e _ _ _ _ Hinv Hstep)) as (s' & Hex & Hfin & Hrtc).
    { rewrite Hdl. exact Hclock. }
    { lia. }
    exists s'. split; [| split; [exact Hfin |]].
    + simpl. rewrite Hnext.
      destruct (Duration.pc s); try exact Hex. congruence.
    + eapply rtc_l; eassumption.
Qed.

End DurationLiveness.

(** ** Count-bound driver: safety *)

Lemma batch_done_elem tbl ids :
  Count.batch_done tbl ids = true <->
  forall id, id ∈ ids -> exists t, t ∈ tbl /\ t.1 = id /\ Count.is_done t = true.
Proof.
  unfold Count.batch_done. rewrite forallb_forall. split.
  - intros H id Hid. apply list_elem_of_In in Hid.
    specialize (H id Hid). apply existsb_exists in H as (t & Ht & Hb).
    apply andb_true_iff in Hb as [Heq Hd]. exists t.
    split; [apply list_elem_of_In; exact Ht |]. split; [lia | exact Hd].
  - intros H id Hid. apply list_elem_of_In in Hid.
    destruct (H id Hid) as (t & Ht & Heq & Hd).
    apply existsb_exists. exists t. split; [apply list_elem_of_In; exact Ht |].
    apply andb_true_iff. split; [lia | exact Hd].
Qed.

Lemma fst_unique {B} (l : list (Z * B)) (t t' : Z * B) :
  NoDup (map fst l) -> t ∈ l -> t' ∈ l -> t.1 = t'.1 -> t = t'.
Proof.
  induction l as [| x l IH]; simpl; intros Hnd Ht Ht' Heq.
  - apply elem_of_nil in Ht. contradiction.
  - apply NoDup_cons in Hnd as [Hx Hnd].
    apply elem_of_cons in Ht as [-> | Ht]; apply elem_of_cons in Ht' as [-> | Ht'].
    + reflexivity.
    + exfalso. apply Hx. rewrite Heq. apply list_elem_of_In, in_map, list_elem_of_In, Ht'.
    + exfalso. apply Hx. rewrite <- Heq.
      apply list_elem_of_In, in_map, list_elem_of_In, Ht.
    + apply IH; assumption.
Qed.

Section CountSafety.
Variable e : env.

Lemma count_inv_initial tester :
  0 <= concurrent tester ->
  count_inv (Z.to_nat (concurrent tester)) (total_requests tester)
            (outcome_ids tester) (Count.initial e tester).
Proof.
  intros Hc. constructor; simpl; try reflexivity.
  - split; [reflexivity |]. split; [lia |]. intros H; exact H.
  - lia.
  - intros t Ht. apply elem_of_nil in Ht. contradiction.
  - intros id Hid. apply elem_of_nil in Hid. contradiction.
  - discriminate.
Qed.

Lemma table_NoDup c n base s : count_inv c n base s -> NoDup (map fst (Count.table s)).
Proof. intros H. rewrite (cinv_ids _ _ _ _ H). apply NoDup_seqZ. Qed.

Lemma count_inv_step c n base s s' :
  count_inv c n base s -> Count.step e s s' -> count_inv c n base s'.
Proof.
  intros Hinv Hstep. pose proof (table_NoDup _ _ _ _ Hinv) as Hnd.
  destruct Hinv as [Hc Hn Hids Hpc Hb Hp Ht Ho Hf].
  destruct Hstep as
    [s i Hl Hlt | s i Hl Hge | s i Hl Hbd | s Hl Hbd | s k id Hnf Hk
    | s k id t0 self' o Hnf Hk Hio]; try rewrite Hn in *.
  - (* create *)
    rewrite Hl in Hpc. destruct Hpc as (Hi & Hmax & Hlen).
    assert (Hcommon :
      forall pc' tick',
        match pc' with
        | Count.Loop j => j = i + 1 /\ ((0 < c)%nat -> (length (Count.tasks s ++ [i]) < c)%nat)
        | Count.Gather j => j = i
        | _ => False
        end ->
        count_inv c n base
          {| Count.self := Count.self s; Count.tick := tick'; Count.pc := pc';
             Count.tasks := Count.tasks s ++ [i];
             Count.table := Count.table s ++ [(i, Count.Created)] |}).
    { intros pc' tick' Hpc'. constructor; simpl.
      - exact Hc.
      - exact Hn.
      - rewrite map_app, length_app, Hids. simpl.
        replace (Z.of_nat (length (Count.table s) + 1))
          with (Z.of_nat (length (Count.table s)) + 1) by lia.
        rewrite seqZ_snoc by lia. rewrite Hi. reflexivity.
      - rewrite length_app. simpl.
        destruct pc' as [j | j | |]; try contradiction.
        + destruct Hpc' as [-> Hlt']. split; [lia |]. split; [lia | exact Hlt'].
        + subst j. split; [lia | exact Hlt].
      - intros Hpos. specialize (Hlen Hpos). rewrite length_app. simpl. lia.
      - intros t [Hin | Hin]%elem_of_app Hd.
        + apply elem_of_app. left. apply Hp; assumption.
        + apply list_elem_of_singleton in Hin. subst t. simpl.
          apply elem_of_app. right. apply list_elem_of_singleton. reflexivity.
      - intros id' [Hin | Hin]%elem_of_app.
        + rewrite map_app. apply elem_of_app. left. apply Ht, Hin.
        + apply list_elem_of_singleton in Hin. subst id'.
          rewrite map_app. apply elem_of_app. right. simpl.
          apply list_elem_of_singleton. reflexivity.
      - rewrite omap_app. simpl. rewrite app_nil_r. exact Ho.
      - destruct pc'; try contradiction; discriminate. }
    unfold Count.create.
    destruct (concurrent (Count.self s) <=? Z.of_nat (length (Count.tasks s ++ [i])))
      eqn:Hle; apply Hcommon.
    + reflexivity.
    + split; [reflexivity |]. intros _. apply Z.leb_gt in Hle. lia.
  - (* loop end *)
    rewrite Hl in Hpc. destruct Hpc as (Hi & Hmax & Hlen).
    unfold Count.loop_end. destruct (Count.tasks s) as [| id0 tl] eqn:Htasks.
    + constructor; simpl; try assumption.
      * lia.
      * rewrite Htasks. exact Hb.
      * rewrite Htasks. exact Hp.
      * rewrite Htasks. exact Ht.
      * intros _. apply Forall_forall. intros t Hin.
        destruct (Count.is_done t) eqn:Hd; [reflexivity |].
        specialize (Hp t Hin Hd). apply elem_of_nil in Hp. contradiction.
    + constructor; simpl; try assumption; [lia | discriminate].
  - (* gather returns *)
    rewrite Hl in Hpc. destruct Hpc as (Hi & Hlt).
    pose proof (proj1 (batch_done_elem _ _) Hbd) as Hdone.
    unfold Count.batch in *. rewrite Hc in *.
    constructor; simpl; unfold Count.rest; rewrite ?Hc; try assumption;
      try reflexivity.
    + split; [lia |]. split; [lia |].
      intros Hpos. specialize (Hb Hpos). rewrite length_drop. lia.
    + intros Hpos. specialize (Hb Hpos). rewrite length_drop. lia.
    + intros t Hin Hd. specialize (Hp t Hin Hd).
      rewrite <- (take_drop c (Count.tasks s)) in Hp.
      apply elem_of_app in Hp as [Hp | Hp]; [| exact Hp].
      destruct (Hdone _ Hp) as (t' & Hin' & Heq & Hd').
      rewrite (fst_unique _ t t' Hnd Hin Hin' (eq_sym Heq)) in Hd. congruence.
    + intros id Hin. apply Ht. eapply subseteq_drop, Hin.
    + discriminate.
  - (* final gather returns *)
    rewrite Hl in Hpc.
    pose proof (proj1 (batch_done_elem _ _) Hbd) as Hdone.
    constructor; simpl; try assumption.
    intros _. apply Forall_forall. intros t Hin.
    destruct (Count.is_done t) eqn:Hd; [reflexivity |].
    destruct (Hdone _ (Hp t Hin Hd)) as (t' & Hin' & Heq & Hd').
    rewrite (fst_unique _ t t' Hnd Hin Hin' (eq_sym Heq)) in Hd. congruence.
  - (* a task starts *)
    assert (Hfst : map fst (<[k := (id, Count.Running (clock e (Count.tick s)))]>
                              (Count.table s)) = map fst (Count.table s)).
    { destruct (insert_split _ k _ (id, Count.Running (clock e (Count.tick s))) Hk)
        as (l1 & l2 & Heq & ->). rewrite Heq, !map_app. reflexivity. }
    constructor; simpl; try assumption.
    + rewrite Hfst, length_insert. exact Hids.
    + rewrite length_insert. exact Hpc.
    + intros t [-> | Hin]%elem_of_insert_inv Hd.
      * apply (Hp (id, Count.Created)); [| reflexivity].
        eapply list_elem_of_lookup_2, Hk.
      * apply Hp; assumption.
    + rewrite Hfst. exact Ht.
    + rewrite (omap_insert_same done_id _ k _
                 (id, Count.Running (clock e (Count.tick s))) Hk eq_refl).
      exact Ho.
    + intros Hfin. contradiction.
  - (* a task finishes *)
    assert (Hfst : map fst (<[k := (id, Count.Done)]> (Count.table s))
                   = map fst (Count.table s)).
    { destruct (insert_split _ k _ (id, Count.Done) Hk)
        as (l1 & l2 & Heq & ->). rewrite Heq, !map_app. reflexivity. }
    destruct (make_request_Returns _ _ _ _ _ _ _ _ Hio)
      as (_ & Hout & Hconc & Htot & _).
    constructor; simpl.
    + rewrite Hconc. exact Hc.
    + rewrite Htot. exact Hn.
    + rewrite Hfst, length_insert. exact Hids.
    + rewrite length_insert. exact Hpc.
    + exact Hb.
    + intros t [-> | Hin]%elem_of_insert_inv Hd; [discriminate |].
      apply Hp; assumption.
    + rewrite Hfst. exact Ht.
    + rewrite (omap_insert_gain done_id _ k _ (id, Count.Done) id Hk eq_refl eq_refl).
      simpl. rewrite Hout, Ho. reflexivity.
    + intros Hfin. contradiction.
Qed.

Lemma count_inv_reachable tester s :
  0 <= concurrent tester ->
  rtc (Count.step e) (Count.initial e tester) s ->
  count_inv (Z.to_nat (concurrent tester)) (total_requests tester)
            (outcome_ids tester) s.
Proof.
  intros Hc H.
  apply (rtc_ind_r (R := Count.step e)
           (fun s => count_inv _ _ _ s) (Count.initial e tester));
    [apply count_inv_initial; exact Hc | | exact H].
  intros y z _ Hstep IH. exact (count_inv_step _ _ _ _ _ IH Hstep).
Qed.

(** The running tasks are among the at most [c] tasks of the list. *)
Lemma count_in_flight_bound c n base s :
  count_inv c n base s -> (0 < c)%nat -> (Count.in_flight s <= c)%nat.
Proof.
  intros Hinv Hpos. pose proof (table_NoDup _ _ _ _ Hinv) as Hnd.
  destruct Hinv as [Hc Hn Hids Hpc Hb Hp Ht Ho Hf].
  specialize (Hb Hpos). unfold Count.in_flight.
  transitivity (length (Count.tasks s)); [| exact Hb].
  rewrite <- (length_fmap fst (filter Count.is_running (Count.table s))).
  apply submseteq_length, NoDup_submseteq.
  - eapply sublist_NoDup; [exact Hnd |].
    apply fmap_sublist, sublist_filter.
  - intros id (t & -> & Hin)%list_elem_of_fmap.
    apply list_elem_of_filter in Hin as [Hrun Hin].
    apply Hp; [exact Hin |].
    destruct t as [id' [| t0 |]]; simpl in *; try contradiction; reflexivity.
Qed.

End CountSafety.

(** ** Count-bound driver: the event loop finishes the run *)

Section CountLiveness.
Variable e : env.

Lemma count_next_step s s' :
  Count.next e s = Some s' -> Count.step e s s'.
Proof.
  unfold Count.next.
  assert (Htasksteps :
    Count.pc s <> Count.Finished ->
    match list_find (fun t => Count.is_created t) (Count.table s) with
    | Some (k, (id, _)) => Some (Count.t_start e k id s)
    | None =>
        match list_find (fun t => Count.is_running t) (Count.table s) with
        | Some (k, (id, Count.Running t0)) =>
            match Count.issue e s id t0 with
            | (self', Returns _) => Some (Count.t_finish k id self' s)
            | (_, Raises _) => None
            end
        | _ => None
        end
    end = Some s' -> Count.step e s s').
  { intros Hnf.
    destruct (list_find (fun t => Count.is_created t) (Count.table s))
      as [[k [id st]] |] eqn:Hfc.
    - apply list_find_Some in Hfc as (Hk & Hst & _).
      destruct st; try contradiction.
      intros [= <-]. apply Count.step_start; assumption.
    - destruct (list_find (fun t => Count.is_running t) (Count.table s))
        as [[k [id st]] |] eqn:Hfr; [| discriminate].
      apply list_find_Some in Hfr as (Hk & Hst & _).
      destruct st as [| t0 |]; try discriminate.
      destruct (Count.issue e s id t0) as [self' [o | x]] eqn:Hio; [| discriminate].
      intros [= <-]. eapply Count.step_finish; eassumption. }
  destruct (Count.pc s) as [i | i | |] eqn:Hpc.
  - destruct (i <? total_requests (Count.self s)) eqn:Hlt; intros [= <-].
    + apply Count.step_create; [assumption | lia].
    + apply Count.step_loop_end with (i := i); [assumption | lia].
  - unfold Count.awaited. rewrite Hpc.
    destruct (Count.batch_done (Count.table s) (Count.batch s)) eqn:Hbd.
    + intros [= <-]. apply Count.step_gather_return; assumption.
    + apply Htasksteps. discriminate.
  - unfold Count.awaited. rewrite Hpc.
    destruct (Count.batch_done (Count.table s) (Count.tasks s)) eqn:Hbd.
    + intros [= <-]. apply Count.step_final_return; assumption.
    + apply Htasksteps. discriminate.
  - discriminate.
Qed.

Lemma sum_task_weight_insert (tbl : list (Z * Count.tstate)) k t t' :
  tbl !! k = Some t ->
  (sum_list_with task_weight (<[k := t']> tbl) + task_weight t =
   sum_list_with task_weight tbl + task_weight t')%nat.
Proof.
  intros H. destruct (insert_split tbl k t t' H) as (l1 & l2 & -> & ->).
  rewrite !sum_list_with_app. simpl. lia.
Qed.

(** Every step, of any schedule, brings the run closer to its end. *)
Lemma count_step_decreases s s' :
  Count.step e s s' ->
  (count_measure (total_requests (Count.self s)) s'
   < count_measure (total_requests (Count.self s)) s)%nat.
Proof.
  intros Hstep. unfold count_measure.
  destruct Hstep as
    [s i Hl Hlt | s i Hl Hge | s i Hl Hbd | s Hl Hbd | s k id Hnf Hk
    | s k id t0 self' o Hnf Hk Hio].
  - rewrite Hl. unfold Count.create.
    destruct (_ <=? _); simpl; rewrite sum_list_with_app; simpl; lia.
  - rewrite Hl. unfold Count.loop_end.
    destruct (Count.tasks s); simpl; lia.
  - rewrite Hl. simpl. lia.
  - rewrite Hl. simpl. lia.
  - pose proof (sum_task_weight_insert _ k _
                  (id, Count.Running (clock e (Count.tick s))) Hk) as Hsum.
    simpl in *. unfold task_weight in Hsum at 2 4. simpl in Hsum. lia.
  - pose proof (sum_task_weight_insert _ k _ (id, Count.Done) Hk) as Hsum.
    simpl in *. unfold task_weight in Hsum at 2 4. simpl in Hsum. lia.
Qed.

Lemma find_all_done (tbl : list (Z * Count.tstate)) :
  list_find (fun t => Count.is_created t) tbl = None ->
  list_find (fun t => Count.is_running t) tbl = None ->
  Forall (fun t => Count.is_done t = true) tbl.
Proof.
  intros Hc%list_find_None Hr%list_find_None.
  induction tbl as [| t tbl IH]; [constructor |].
  apply Forall_cons in Hc as [Hc1 Hc2]. apply Forall_cons in Hr as [Hr1 Hr2].
  constructor; [| apply IH; assumption].
  destruct t as [id [| t0 |]]; simpl in *; try reflexivity; exfalso; auto.
Qed.

(** With a network that fails in ordinary ways only, the event loop
    always has a step to take until the run is finished. *)
Lemma count_next_progress c n base s :
  count_inv c n base s -> env_ordinary e ->
  Count.pc s <> Count.Finished ->
  exists s', Count.next e s = Some s'.
Proof.
  intros Hinv Henv Hnf. destruct Hinv as [Hc Hn Hids Hpc Hb Hp Ht Ho Hf].
  unfold Count.next.
  assert (Htasksteps :
    forall ids, (forall id, id ∈ ids -> id ∈ Count.tasks s) ->
    Count.batch_done (Count.table s) ids = false ->
    exists s',
    match list_find (fun t => Count.is_created t) (Count.table s) with
    | Some (k, (id, _)) => Some (Count.t_start e k id s)
    | None =>
        match list_find (fun t => Count.is_running t) (Count.table s) with
        | Some (k, (id, Count.Running t0)) =>
            match Count.issue e s id t0 with
            | (self', Returns _) => Some (Count.t_finish k id self' s)
            | (_, Raises _) => None
            end
        | _ => None
        end
    end = Some s').
  { intros ids Hsub Hbd.
    destruct (list_find (fun t => Count.is_created t) (Count.table s))
      as [[k [id st]] |] eqn:Hfc; [eexists; reflexivity |].
    destruct (list_find (fun t => Count.is_running t) (Count.table s))
      as [[k [id st]] |] eqn:Hfr.
    - apply list_find_Some in Hfr as (Hk & Hst & _).
      destruct st as [| t0 |]; try contradiction.
      unfold Count.issue.
      destruct (make_request_returns (Count.self s) (net e id) t0
                  (clock e (Count.tick s)) (now_iso e (Count.tick s)) id
                  (Henv id)) as (self' & o & -> & _).
      eexists; reflexivity.
    - exfalso. pose proof (find_all_done _ Hfc Hfr) as Hall.
      rewrite Forall_forall in Hall.
      assert (Count.batch_done (Count.table s) ids = true); [| congruence].
      apply batch_done_elem. intros id Hid.
      specialize (Ht id (Hsub id Hid)).
      apply list_elem_of_fmap in Ht as (t & -> & Hin).
      exists t. split; [exact Hin |]. split; [reflexivity | apply Hall, Hin]. }
  destruct (Count.pc s) as [i | i | |] eqn:Hpc'; [eexists; reflexivity | | | congruence].
  - unfold Count.awaited. rewrite Hpc'.
    destruct (Count.batch_done (Count.table s) (Count.batch s)) eqn:Hbd;
      [eexists; reflexivity |].
    apply (Htasksteps (Count.batch s)); [| exact Hbd].
    intros id Hid. eapply subseteq_take, Hid.
  - unfold Count.awaited. rewrite Hpc'.
    destruct (Count.batch_done (Count.table s) (Count.tasks s)) eqn:Hbd;
      [eexists; reflexivity |].
    apply (Htasksteps (Count.tasks s)); [auto | exact Hbd].
Qed.

Lemma count_exec_finishes c n base fuel s :
  count_inv c n base s -> env_ordinary e ->
  (count_measure n s < fuel)%nat ->
  exists s', Count.exec e fuel s = Some s' /\
             Count.pc s' = Count.Finished /\
             rtc (Count.step e) s s'.
Proof.
  intros Hinv Henv. revert s Hinv.
  induction fuel as [| fuel IH]; intros s Hinv Hfuel; [lia |].
  assert (Count.pc s = Count.Finished \/ Count.pc s <> Count.Finished)
    as [Hfin | Hnf] by (destruct (Count.pc s); auto; right; discriminate).
  - exists s. simpl. rewrite Hfin. split; [reflexivity |]. split; reflexivity.
  - destruct (count_next_progress c n base s Hinv Henv Hnf) as [s1 Hnext].
    pose proof (count_next_step _ _ Hnext) as Hstep.
    pose proof (count_step_decreases s s1 Hstep) as Hlt.
    rewrite (cinv_total _ _ _ _ Hinv) in Hlt.
    destruct (IH s1 (count_inv_step e _ _ _ _ _ Hinv Hstep)) as (s' & Hex & Hfin & Hrtc);
      [lia |].
    exists s'. split; [| split; [exact Hfin |]].
    + simpl. rewrite Hnext.
      destruct (Count.pc s); try exact Hex. congruence.
    + eapply rtc_l; eassumption.
Qed.

End CountLiveness.

(** ** The concurrency bound *)

(** C1. For every configuration with a positive concurrency limit, in the
    count-bound and in the duration-bound mode, in every state that any
    interleaving of the driver with its tasks or workers can reach, the
    number of calls of [make_request] in progress is at most
    [concurrent]. *)
Theorem concurrency_bound (e : env) (tester : LoadTester) :
  0 < concurrent tester ->
  (forall s, rtc (Count.step e) (Count.initial e tester) s ->
             Z.of_nat (Count.in_flight s) <= concurrent tester) /\
  (forall d s, rtc (Duration.step e) (Duration.initial e tester d) s ->
               Z.of_nat (Duration.in_flight s) <= concurrent tester).
Proof.
  intros Hc. split.
  - intros s Hs.
    pose proof (count_inv_reachable e tester s ltac:(lia) Hs) as Hinv.
    pose proof (count_in_flight_bound _ _ _ _ Hinv ltac:(lia)). lia.
  - intros d s Hs.
    pose proof (duration_inv_reachable e tester d s Hs) as Hinv.
    pose proof (inv_sem _ _ _ Hinv). lia.
Qed.

Lemma concurrency_bound_witness :
  0 < concurrent sample_count_tester /\
  Z.of_nat (Count.in_flight
              (Count.t_start sample_env 0 0
                 (Count.create 0 (Count.initial sample_env sample_count_tester))))
  <= concurrent sample_count_tester.
Proof.
  split; [reflexivity |].
  apply (proj1 (concurrency_bound sample_env sample_count_tester eq_refl)).
  eapply rtc_l; [apply Count.step_create; [reflexivity | reflexivity] |].
  eapply rtc_l; [| apply rtc_refl].
  apply Count.step_start; [discriminate | reflexivity].
Defined.

(** With a limit of zero the count-bound driver never waits inside the
    loop: all the requests are in progress together in the final
    [gather]. *)
Lemma count_zero_limit_unbounded :
  exists s,
    rtc (Count.step sample_env)
        (Count.initial sample_env (init "http://target" 0 2 None 30)) s /\
    Count.in_flight s = 2%nat.
Proof.
  eexists. split.
  - eapply rtc_l; [apply (Count.step_create _ _ 0); reflexivity |].
    eapply rtc_l; [apply (Count.step_gather_return _ _ 0); reflexivity |].
    eapply rtc_l; [apply (Count.step_create _ _ 1); reflexivity |].
    eapply rtc_l; [apply (Count.step_gather_return _ _ 1); reflexivity |].
    eapply rtc_l; [apply (Count.step_loop_end _ _ 2); [reflexivity | simpl; lia] |].
    eapply rtc_l; [apply (Count.step_start _ _ 0%nat 0); [discriminate | reflexivity] |].
    eapply rtc_l; [apply (Count.step_start _ _ 1%nat 1); [discriminate | reflexivity] |].
    apply rtc_refl.
  - reflexivity.
Qed.

(** ** Admission until the deadline, then drain *)

Section DurationRun.
Variable e : env.

Lemma duration_reachable_deadline s0 s :
  rtc (Duration.step e) s0 s -> Duration.deadline s = Duration.deadline s0.
Proof.
  induction 1 as [| s0 s1 s Hstep _ IH]; [reflexivity |].
  rewrite IH. destruct Hstep; reflexivity.
Qed.

(** Once the driver has left the admission loop, nothing is admitted. *)
Lemma duration_admission_over s s' :
  Duration.pc s <> Duration.Admitting ->
  rtc (Duration.step e) s s' ->
  Duration.admitted s' = Duration.admitted s /\
  Duration.request_id s' = Duration.request_id s.
Proof.
  intros Hpc Hrtc. induction Hrtc as [| s s1 s' Hstep _ IH]; [split; reflexivity |].
  assert (Hkeep : Duration.pc s1 <> Duration.Admitting /\
                  Duration.admitted s1 = Duration.admitted s /\
                  Duration.request_id s1 = Duration.request_id s).
  { destruct Hstep; simpl; try contradiction; repeat split; try assumption;
      discriminate. }
  destruct Hkeep as (Hpc1 & Hadm & Hrid).
  destruct (IH Hpc1) as [IH1 IH2]. split; congruence.
Qed.

(** When the run has finished, the outcomes recorded are those of the
    admitted requests, each once. *)
Lemma duration_finished_outcomes c base s :
  duration_inv c base s -> Duration.pc s = Duration.Finished ->
  outcome_ids (Duration.self s) ≡ₚ map fst (Duration.admitted s) ++ base.
Proof.
  intros Hinv Hfin.
  pose proof (inv_finished _ _ _ Hinv Hfin) as Hz.
  pose proof (inv_unfinished _ _ _ Hinv) as Hu.
  pose proof (inv_ids _ _ _ Hinv) as Hi.
  assert (Hq : Duration.queue s = []) by (apply length_zero_iff_nil; lia).
  assert (Hh : Duration.held (Duration.workers s) = [])
    by (apply length_zero_iff_nil; lia).
  rewrite Hq, Hh in Hi. simpl in Hi.
  rewrite (inv_admitted _ _ _ Hinv). symmetry. exact Hi.
Qed.

Lemma duration_initial_measure n tester d :
  (duration_measure n (Duration.initial e tester d)
   <= 4 * n + 5 + Z.to_nat (concurrent tester))%nat.
Proof.
  unfold duration_measure. simpl.
  assert (forall k, sum_list_with worker_weight (replicate k Duration.WGet) = k) as ->.
  { induction k as [| k IH]; [reflexivity |]. simpl. rewrite IH. reflexivity. }
  lia.
Qed.

(** C2. In a duration-bound run every request is admitted after a
    reading of the clock below the deadline [start_time + duration];
    once the driver has read the clock at or past the deadline and left
    the admission loop, no interleaving admits another request; and
    when the run has finished, every admitted request, dispatched at
    the deadline or not, has its outcome among the results or the
    errors. With at least one worker, a network that fails in ordinary
    ways only and a clock that reaches the deadline, the run does
    finish: no interleaving gets stuck before the end, every step brings
    the end closer, and the event loop reaches it. *)
Theorem duration_admission_and_drain tester d n fuel :
  0 < concurrent tester ->
  env_ordinary e ->
  clock_reaches e n (Duration.deadline (Duration.initial e tester d)) ->
  (4 * n + 5 + Z.to_nat (concurrent tester) < fuel)%nat ->
  (forall s,
     rtc (Duration.step e) (Duration.initial e tester d) s ->
     Duration.deadline s = Float64.add (clock e 0) (Float64.of_int d) /\
     Forall (fun a => Float64.ltb a.2 (Duration.deadline s) = true)
            (Duration.admitted s) /\
     (Duration.pc s <> Duration.Admitting ->
      forall s', rtc (Duration.step e) s s' ->
                 Duration.admitted s' = Duration.admitted s) /\
     (Duration.pc s = Duration.Finished ->
      outcome_ids (Duration.self s)
        ≡ₚ map fst (Duration.admitted s) ++ outcome_ids tester) /\
     (Duration.pc s <> Duration.Finished -> exists s', Duration.step e s s') /\
     (forall s', Duration.step e s s' ->
                 (duration_measure n s' < duration_measure n s)%nat)) /\
  (exists s,
     run_duration_test e fuel tester d = Some (Returns s) /\
     rtc (Duration.step e) (Duration.initial e tester d) s /\
     Duration.pc s = Duration.Finished /\
     outcome_ids (Duration.self s)
       ≡ₚ map fst (Duration.admitted s) ++ outcome_ids tester).
Proof.
  intros Hc Henv Hclock Hfuel. split.
  - intros s Hs.
    pose proof (duration_inv_reachable e tester d s Hs) as Hinv.
    split; [apply (duration_reachable_deadline _ _ Hs) |].
    split; [apply (inv_deadline _ _ _ Hinv) |].
    split; [intros Hpc s' Hs'; apply (duration_admission_over s s' Hpc Hs') |].
    split; [apply duration_finished_outcomes with (c := Z.to_nat (concurrent tester));
            exact Hinv |].
    split.
    + intros Hpc.
      destruct (duration_next_progress e _ _ s Hinv ltac:(lia) Henv Hpc) as [s' Hnext].
      exists s'. apply duration_next_step. exact Hnext.
    + intros s' Hstep. apply (duration_step_decreases e n s s'); [| exact Hstep].
      rewrite (duration_reachable_deadline _ _ Hs). exact Hclock.
  - pose proof (duration_inv_initial e tester d) as Hinv0.
    destruct (duration_exec_finishes e n _ _ fuel _ Hinv0 ltac:(lia) Henv Hclock)
      as (s & Hex & Hfin & Hrtc).
    { pose proof (duration_initial_measure n tester d). lia. }
    exists s. split; [| split; [exact Hrtc | split; [exact Hfin |]]].
    + unfold run_duration_test.
      destruct (concurrent tester <? 0) eqn:Hneg; [lia |].
      rewrite Hex. reflexivity.
    + apply duration_finished_outcomes with (c := Z.to_nat (concurrent tester));
        [| exact Hfin].
      exact (duration_inv_reachable e tester d s Hrtc).
Qed.

End DurationRun.

Lemma sample_clock_reaches :
  clock_reaches sample_env 3
    (Duration.deadline (Duration.initial sample_env sample_duration_tester 5)).
Proof.
  intros t Ht. simpl.
  destruct (Nat.ltb_spec t 3) as [Hlt | _]; [lia | reflexivity].
Qed.

Lemma sample_env_ordinary : env_ordinary sample_env.
Proof. intros id. simpl. destruct (id mod 3 =? 0); reflexivity. Qed.

Lemma duration_admission_and_drain_witness :
  0 < concurrent sample_duration_tester /\
  exists s,
    run_duration_test sample_env 20 sample_duration_tester 5 = Some (Returns s) /\
    Duration.pc s = Duration.Finished /\
    outcome_ids (Duration.self s) ≡ₚ map fst (Duration.admitted s).
Proof.
  split; [reflexivity |].
  destruct (duration_admission_and_drain sample_env sample_duration_tester 5 3 20
              eq_refl sample_env_ordinary sample_clock_reaches ltac:(simpl; lia))
    as [_ (s & Hrun & _ & Hfin & Hout)].
  exists s. split; [exact Hrun |]. split; [exact Hfin |].
  rewrite Hout. simpl. rewrite app_nil_r. reflexivity.
Defined.

(** ** Request ids *)

Lemma seqZ_max (n : Z) : seqZ 0 (Z.max n 0) = seqZ 0 n.
Proof.
  destruct (Z.le_gt_cases n 0) as [Hle | Hgt].
  - rewrite Z.max_r by lia. rewrite !seqZ_nil by lia. reflexivity.
  - rewrite Z.max_l by lia. reflexivity.
Qed.

Lemma count_finished_ids c n base s :
  count_inv c n base s -> Count.pc s = Count.Finished ->
  map fst (Count.table s) = seqZ 0 n /\
  outcome_ids (Count.self s) ≡ₚ seqZ 0 n ++ base.
Proof.
  intros Hinv Hfin.
  pose proof (cinv_pc _ _ _ _ Hinv) as Hpc. rewrite Hfin in Hpc.
  pose proof (cinv_ids _ _ _ _ Hinv) as Hids. rewrite Hpc, seqZ_max in Hids.
  split; [exact Hids |].
  rewrite <- (cinv_outcomes _ _ _ _ Hinv). apply Permutation_app_tail.
  rewrite <- Hids.
  assert (Hdone : forall tbl : list (Z * Count.tstate),
            Forall (fun t => Count.is_done t = true) tbl ->
            omap done_id tbl = map fst tbl).
  { induction 1 as [| t tbl Ht _ IH]; [reflexivity |].
    destruct t as [id [| t0 |]]; try discriminate.
    change (id :: omap done_id tbl = id :: map fst tbl). rewrite IH. reflexivity. }
  rewrite (Hdone _ (cinv_finished _ _ _ _ Hinv Hfin)). reflexivity.
Qed.

(** C9. Request ids are consecutive integers from 0, given out in the
    order of admission, hence non-negative and distinct: in every state of
    a count-bound run the tasks created so far carry the ids 0, 1, 2, ...
    in order of creation, and a finished run has created exactly the ids
    0..n-1, each with one outcome; in every state of a duration-bound run
    the ids put on the queue so far are 0, 1, ..., [request_id] - 1 in
    order. A count-bound run does finish. *)
Theorem request_ids_in_admission_order (e : env) (tester : LoadTester) (fuel : nat) :
  0 <= concurrent tester ->
  env_ordinary e ->
  (2 + 5 * Z.to_nat (total_requests tester) < fuel)%nat ->
  (forall s,
     rtc (Count.step e) (Count.initial e tester) s ->
     map fst (Count.table s) = seqZ 0 (Z.of_nat (length (Count.table s))) /\
     NoDup (map fst (Count.table s)) /\
     (Count.pc s = Count.Finished ->
      map fst (Count.table s) = seqZ 0 (total_requests tester))) /\
  (exists s,
     run_count_test e fuel tester = Some (Returns s) /\
     rtc (Count.step e) (Count.initial e tester) s /\
     Count.pc s = Count.Finished /\
     map fst (Count.table s) = seqZ 0 (total_requests tester) /\
     outcome_ids (Count.self s) ≡ₚ seqZ 0 (total_requests tester) ++ outcome_ids tester) /\
  (forall d s,
     rtc (Duration.step e) (Duration.initial e tester d) s ->
     map fst (Duration.admitted s) = seqZ 0 (Duration.request_id s) /\
     0 <= Duration.request_id s /\
     NoDup (map fst (Duration.admitted s))).
Proof.
  intros Hc Henv Hfuel. split; [| split].
  - intros s Hs. pose proof (count_inv_reachable e tester s Hc Hs) as Hinv.
    split; [apply (cinv_ids _ _ _ _ Hinv) |].
    split; [apply (table_NoDup _ _ _ _ Hinv) |].
    intros Hfin. apply (count_finished_ids _ _ _ _ Hinv Hfin).
  - pose proof (count_inv_initial e tester Hc) as Hinv0.
    destruct (count_exec_finishes e _ _ _ fuel _ Hinv0 Henv) as (s & Hex & Hfin & Hrtc).
    { unfold count_measure. simpl. rewrite Z.sub_0_r. lia. }
    pose proof (count_inv_reachable e tester s Hc Hrtc) as Hinv.
    destruct (count_finished_ids _ _ _ _ Hinv Hfin) as [Hids Hout].
    exists s. split; [| auto].
    unfold run_count_test. destruct (concurrent tester <? 0) eqn:Hneg; [lia |].
    rewrite Hex. reflexivity.
  - intros d s Hs. pose proof (duration_inv_reachable e tester d s Hs) as Hinv.
    split; [apply (inv_admitted _ _ _ Hinv) |].
    split; [apply (inv_request_id _ _ _ Hinv) |].
    rewrite (inv_admitted _ _ _ Hinv). apply NoDup_seqZ.
Qed.

Lemma request_ids_in_admission_order_witness :
  0 <= concurrent sample_count_tester /\
  exists s,
    run_count_test sample_env 28 sample_count_tester = Some (Returns s) /\
    map fst (Count.table s) = [0; 1; 2; 3; 4].
Proof.
  split; [discriminate |].
  destruct (request_ids_in_admission_order sample_env sample_count_tester 28
              ltac:(discriminate) sample_env_ordinary ltac:(simpl; lia))
    as (_ & (s & Hrun & _ & _ & Hids & _) & _).
  exists s. split; [exact Hrun | exact Hids].
Defined.

(** ** No validation of the configuration *)

Section Validation.
Variable statistics_mean : list number -> number.
Variable statistics_median : list number -> number.

(** C6, as the code has it. The program checks none of the values: the
    tester is built from the arguments as they are and the run is
    started. A negative concurrency limit makes the run fail when the
    semaphore is created, before any request is issued, and the program
    exits with status 1; a request count that is not positive, in count
    mode with a limit that is not negative, lets the run complete
    without a single request, and the no-data notice is printed. *)
Theorem invalid_configuration_outcome (e : env) (fuel : nat) (a : args) :
  (concurrent (main_tester a) = args_concurrent a /\
   total_requests (main_tester a) = args_requests a /\
   duration (main_tester a) = args_duration a) /\
  (args_concurrent a < 0 ->
   main statistics_mean statistics_median e fuel a =
     Some (Exit1 (Exn ValueError "Semaphore initial value must be >= 0"), None)) /\
  (0 <= args_concurrent a -> args_duration a = None -> args_requests a <= 0 ->
   (0 < fuel)%nat ->
   exists self,
     main statistics_mean statistics_median e fuel a = Some (Completed self NoDataNotice, None) /\
     results self = [] /\ errors self = []).
Proof.
  split; [repeat split |]. split.
  - intros Hneg. unfold main, run, run_count_test, run_duration_test.
    assert ((concurrent (main_tester a) <? 0) = true) as Hc
      by (simpl; lia).
    simpl duration. rewrite Hc.
    destruct (args_duration a) as [d |]; [destruct (d =? 0) |]; reflexivity.
  - intros Hc Hd Hn Hfuel. destruct fuel as [| fuel]; [lia |].
    unfold main, run, run_count_test. simpl duration. rewrite Hd.
    assert ((concurrent (main_tester a) <? 0) = false) as -> by (simpl; lia).
    assert (Hex : Count.exec e (S fuel) (Count.initial e (main_tester a))
                  = Some (Count.finish e (Count.initial e (main_tester a)))).
    { simpl. unfold Count.next. simpl.
      assert ((0 <? args_requests a) = false) as -> by lia.
      unfold Count.loop_end. simpl. destruct fuel; reflexivity. }
    rewrite Hex. simpl.
    exists (Count.self (Count.finish e (Count.initial e (main_tester a)))).
    split; [| split; reflexivity].
    destruct (args_output a) as [f |]; [| reflexivity].
    destruct (String.eqb f ""); reflexivity.
Qed.

End Validation.

Lemma invalid_configuration_outcome_witness :
  args_concurrent negative_limit_args < 0 /\
  main (fun _ => Int 0) (fun _ => Int 0) sample_env 10 negative_limit_args =
    Some (Exit1 (Exn ValueError "Semaphore initial value must be >= 0"), None).
Proof.
  split; [reflexivity |].
  apply (proj1 (proj2 (invalid_configuration_outcome (fun _ => Int 0) (fun _ => Int 0)
                         sample_env 10 negative_limit_args))).
  reflexivity.
Defined.

(** The claim of C6 read literally would have no request issued for the
    limit 0. The run begins and both requests are issued. *)
Lemma zero_limit_not_rejected :
  invalid_configuration zero_limit_args /\
  exists self out,
    main (fun _ => Int 0) (fun _ => Int 0) sample_env 20 zero_limit_args
      = Some (Completed self out, None) /\
    outcome_ids self = [1; 0].
Proof.
  split; [left; simpl; lia |].
  eexists _, _. split; [vm_compute; reflexivity | reflexivity].
Qed.

(** ** Double-precision arithmetic of the percentile index *)

Lemma digits2_pos_bounds (p : positive) :
  2 ^ (Zpos (digits2_pos p) - 1) <= Zpos p < 2 ^ Zpos (digits2_pos p).
Proof.
  induction p as [p IH | p IH |]; simpl digits2_pos.
  - rewrite Pos2Z.inj_succ.
    replace (Z.succ (Zpos (digits2_pos p)) - 1) with (Zpos (digits2_pos p) - 1 + 1) by lia.
    rewrite Z.pow_succ_r by lia. rewrite Z.pow_add_r by lia.
    change (2 ^ 1) with 2. lia.
  - rewrite Pos2Z.inj_succ.
    replace (Z.succ (Zpos (digits2_pos p)) - 1) with (Zpos (digits2_pos p) - 1 + 1) by lia.
    rewrite Z.pow_succ_r by lia. rewrite Z.pow_add_r by lia.
    change (2 ^ 1) with 2. lia.
  - simpl. lia.
Qed.

Lemma digits2_pos_unique (p : positive) (d : Z) :
  2 ^ (d - 1) <= Zpos p < 2 ^ d -> Zpos (digits2_pos p) = d.
Proof.
  intros [Hlo Hhi]. pose proof (digits2_pos_bounds p) as [Hlo' Hhi'].
  assert (0 < d).
  { destruct (Z.lt_ge_cases 0 d) as [H | H]; [exact H |].
    assert (2 ^ d <= 2 ^ 0) by (destruct (Z.eq_dec d 0) as [-> | ?];
      [lia | rewrite Z.pow_neg_r by lia; simpl; lia]).
    simpl in *. lia. }
  destruct (Z.lt_trichotomy (Zpos (digits2_pos p)) d) as [Hlt | [Heq | Hgt]];
    [| exact Heq |].
  - assert (2 ^ Zpos (digits2_pos p) <= 2 ^ (d - 1)) by (apply Z.pow_le_mono_r; lia).
    lia.
  - assert (2 ^ d <= 2 ^ (Zpos (digits2_pos p) - 1)) by (apply Z.pow_le_mono_r; lia).
    lia.
Qed.

(** shr_1 on a non-negative mantissa *)
Lemma shr_1_spec (m : Z) (r s : bool) :
  0 <= m ->
  shr_1 {| shr_m := m; shr_r := r; shr_s := s |} =
  {| shr_m := m / 2; shr_r := Z.odd m; shr_s := r || s |}.
Proof.
  intros Hm. destruct m as [| p | p]; [reflexivity | | lia].
  destruct p as [p | p |]; simpl.
  - f_equal. rewrite Pos2Z.inj_xI.
    apply Z.div_unique with (r := 1); lia.
  - f_equal. rewrite Pos2Z.inj_xO.
    apply Z.div_unique with (r := 0); lia.
  - reflexivity.
Qed.

Lemma iter_pos_nat {A} (f : A -> A) (p : positive) (x : A) :
  SpecFloat.iter_pos f p x = Nat.iter (Pos.to_nat p) f x.
Proof.
  revert x. induction p as [p IH | p IH |]; intros x; simpl SpecFloat.iter_pos.
  - rewrite !IH. rewrite Pos2Nat.inj_xI.
    replace (S (2 * Pos.to_nat p)) with (Pos.to_nat p + (Pos.to_nat p + 1))%nat by lia.
    rewrite !Nat.iter_add. simpl. reflexivity.
  - rewrite !IH. rewrite Pos2Nat.inj_xO.
    replace (2 * Pos.to_nat p)%nat with (Pos.to_nat p + Pos.to_nat p)%nat by lia.
    rewrite Nat.iter_add. reflexivity.
  - reflexivity.
Qed.

(** Shifting a non-negative mantissa right by [j] places: quotient, round
    bit and sticky bit. *)
Lemma iter_shr_1 (m : Z) (j : nat) :
  0 <= m ->
  Nat.iter (S j) shr_1 {| shr_m := m; shr_r := false; shr_s := false |} =
  {| shr_m := m / 2 ^ Z.of_nat (S j);
     shr_r := Z.odd (m / 2 ^ Z.of_nat j);
     shr_s := negb (m mod 2 ^ Z.of_nat j =? 0) |}.
Proof.
  intros Hm. induction j as [| j IH].
  - rewrite Nat.iter_succ. change (Nat.iter 0 shr_1 ?x) with x.
    rewrite shr_1_spec by exact Hm.
    change (2 ^ Z.of_nat 1) with 2. change (2 ^ Z.of_nat 0) with 1.
    rewrite Z.div_1_r, Z.mod_1_r. reflexivity.
  - rewrite Nat.iter_succ, IH. rewrite shr_1_spec by (apply Z.div_pos; lia).
    assert (Hpow : 2 ^ Z.of_nat (S j) = 2 ^ Z.of_nat j * 2).
    { rewrite Nat2Z.inj_succ, Z.pow_succ_r by lia. lia. }
    assert (Hpos : 0 < 2 ^ Z.of_nat j) by (apply Z.pow_pos_nonneg; lia).
    f_equal.
    + rewrite Z.div_div by lia.
      rewrite (Nat2Z.inj_succ (S j)), Z.pow_succ_r by lia. f_equal. lia.
    + (* sticky *)
      rewrite Hpow.
      rewrite Z.rem_mul_r by lia.
      pose proof (Z.mod_pos_bound m (2 ^ Z.of_nat j) Hpos) as Hb.
      pose proof (Z.mod_pos_bound (m / 2 ^ Z.of_nat j) 2 ltac:(lia)) as Hb2.
      rewrite Zodd_mod.
      destruct (Z.eqb_spec ((m / 2 ^ Z.of_nat j) mod 2) 1) as [H1 | H1];
        destruct (Z.eqb_spec (m mod 2 ^ Z.of_nat j) 0) as [H0 | H0];
        destruct (Z.eqb_spec (m mod 2 ^ Z.of_nat j +
                              2 ^ Z.of_nat j * ((m / 2 ^ Z.of_nat j) mod 2)) 0)
          as [H2 | H2]; simpl; try reflexivity; exfalso; nia.
Qed.

(** Round to nearest, ties to even, after a right shift by [sp] places. *)
Lemma rne_shift (m : Z) (sp : positive) :
  0 <= m ->
  let mrs := SpecFloat.iter_pos shr_1 sp (shr_record_of_loc m loc_Exact) in
  let m1 := round_nearest_even (shr_m mrs) (loc_of_shr_record mrs) in
  m / 2 ^ Zpos sp <= m1 <= m / 2 ^ Zpos sp + 1 /\
  2 * Z.abs (m1 * 2 ^ Zpos sp - m) <= 2 ^ Zpos sp.
Proof.
  intros Hm. cbv zeta. rewrite iter_pos_nat.
  destruct (Pos2Nat.is_succ sp) as [j Hj]. rewrite Hj.
  assert (Hsp : Zpos sp = Z.of_nat (S j)) by lia. rewrite Hsp.
  unfold shr_record_of_loc. rewrite iter_shr_1 by exact Hm.
  assert (Hpow : 2 ^ Z.of_nat (S j) = 2 ^ Z.of_nat j * 2).
  { rewrite Nat2Z.inj_succ, Z.pow_succ_r by lia. lia. }
  assert (Hpos : 0 < 2 ^ Z.of_nat j) by (apply Z.pow_pos_nonneg; lia).
  pose proof (Z.div_mod m (2 ^ Z.of_nat (S j)) ltac:(lia)) as Hdm.
  pose proof (Z.rem_mul_r m (2 ^ Z.of_nat j) 2 ltac:(lia) ltac:(lia)) as Hrem.
  rewrite <- Hpow in Hrem.
  pose proof (Z.mod_pos_bound m (2 ^ Z.of_nat j) Hpos) as Hb.
  pose proof (Z.mod_pos_bound (m / 2 ^ Z.of_nat j) 2 ltac:(lia)) as Hb2.
  set (q := m / 2 ^ Z.of_nat (S j)) in *.
  set (lo := m mod 2 ^ Z.of_nat j) in *.
  set (bit := (m / 2 ^ Z.of_nat j) mod 2) in *.
  rewrite Zodd_mod. fold bit.
  destruct (Z.eqb_spec bit 1) as [H1 | H1];
    destruct (Z.eqb_spec lo 0) as [H0 | H0]; simpl;
    try (destruct (Z.even q)); lia.
Qed.

(** A mantissa of exactly 53 bits is kept as it is. *)
Lemma binary_round_aux_exact (N : positive) (e : Z) :
  Zpos (digits2_pos N) = 53 -> -1074 <= e <= 971 ->
  binary_round_aux Float64.prec Float64.emax false (Zpos N) e loc_Exact
  = S754_finite false N e.
Proof.
  intros Hd He.
  assert (Hshift : fexp Float64.prec Float64.emax (Zdigits2 (Zpos N) + e) - e = 0).
  { simpl Zdigits2. rewrite Hd. unfold fexp, emin, Float64.prec, Float64.emax. lia. }
  unfold binary_round_aux, shr_fexp. rewrite Hshift.
  cbn [shr shr_record_of_loc shr_m loc_of_shr_record round_nearest_even].
  rewrite Hshift.
  cbn [shr shr_m].
  change (Float64.emax - Float64.prec) with 971.
  destruct (Z.leb_spec e 971) as [_ | H]; [reflexivity | lia].
Qed.

(** A longer mantissa is rounded to 53 bits, to nearest. *)
Lemma binary_round_aux_shift (X : positive) (E : Z) :
  let s := Zpos (digits2_pos X) - 53 in
  0 < s -> -1074 <= E + s -> E + s + 1 <= 971 ->
  exists (m1 : Z) (m' : positive) (e' : Z),
    binary_round_aux Float64.prec Float64.emax false (Zpos X) E loc_Exact
      = S754_finite false m' e' /\
    Zpos X / 2 ^ s <= m1 /\
    2 * Z.abs (m1 * 2 ^ s - Zpos X) <= 2 ^ s /\
    E + s <= e' <= E + s + 1 /\
    Zpos m' * 2 ^ (e' - (E + s)) = m1.
Proof.
  intros s Hs Hlo Hhi.
  pose proof (digits2_pos_bounds X) as [HXlo HXhi].
  assert (Hshift : fexp Float64.prec Float64.emax (Zdigits2 (Zpos X) + E) - E = s).
  { simpl Zdigits2. unfold fexp, emin, Float64.prec, Float64.emax. lia. }
  unfold binary_round_aux, shr_fexp. rewrite Hshift.
  destruct s as [| sp |] eqn:Hsp; try lia.
  cbn [shr].
  pose proof (rne_shift (Zpos X) sp ltac:(lia)) as Hrne. cbv zeta in Hrne.
  set (mrs := SpecFloat.iter_pos shr_1 sp (shr_record_of_loc (Zpos X) loc_Exact)) in *.
  set (m1 := round_nearest_even (shr_m mrs) (loc_of_shr_record mrs)) in *.
  destruct Hrne as [[Hq1 Hq2] Herr].
  (* the quotient has exactly 53 bits *)
  assert (Hpow : 2 ^ (Zpos (digits2_pos X) - 1) = 2 ^ 52 * 2 ^ Zpos sp).
  { rewrite <- Z.pow_add_r by lia. f_equal. lia. }
  assert (Hpow' : 2 ^ Zpos (digits2_pos X) = 2 ^ 53 * 2 ^ Zpos sp).
  { rewrite <- Z.pow_add_r by lia. f_equal. lia. }
  assert (Hpos : 0 < 2 ^ Zpos sp) by (apply Z.pow_pos_nonneg; lia).
  assert (Hqlo : 2 ^ 52 <= Zpos X / 2 ^ Zpos sp).
  { apply Z.div_le_lower_bound; lia. }
  assert (Hqhi : Zpos X / 2 ^ Zpos sp < 2 ^ 53).
  { apply Z.div_lt_upper_bound; lia. }
  destruct m1 as [| m1p | m1p] eqn:Hm1; try lia.
  assert (Hcase : Zpos m1p < 2 ^ 53 \/ Zpos m1p = 2 ^ 53) by lia.
  destruct Hcase as [Hlt | Heq].
  - assert (Hd : Zpos (digits2_pos m1p) = 53).
    { apply digits2_pos_unique. change (53 - 1) with 52. lia. }
    assert (Hshift' : fexp Float64.prec Float64.emax
                        (Zdigits2 (Zpos m1p) + (E + Zpos sp)) - (E + Zpos sp) = 0).
    { simpl Zdigits2. rewrite Hd. unfold fexp, emin, Float64.prec, Float64.emax. lia. }
    rewrite Hshift'. cbn [shr shr_m shr_record_of_loc].
    change (Float64.emax - Float64.prec) with 971.
    destruct (Z.leb_spec (E + Zpos sp) 971) as [_ | H]; [| lia].
    exists (Zpos m1p), m1p, (E + Zpos sp).
    split; [reflexivity |]. split; [lia |]. split; [exact Herr |].
    split; [lia |]. rewrite Z.sub_diag. simpl. lia.
  - assert (Hm1p : m1p = 9007199254740992%positive) by lia. subst m1p.
    change (fexp Float64.prec Float64.emax
              (Zdigits2 (Zpos 9007199254740992) + (E + Zpos sp)) - (E + Zpos sp))
      with (Z.max (54 + (E + Zpos sp) - 53) (3 - 1024 - 53) - (E + Zpos sp)).
    replace (Z.max (54 + (E + Zpos sp) - 53) (3 - 1024 - 53) - (E + Zpos sp))
      with 1 by lia.
    cbn [shr shr_m shr_record_of_loc SpecFloat.iter_pos shr_1 orb].
    change (Float64.emax - Float64.prec) with 971.
    destruct (Z.leb_spec (E + Zpos sp + 1) 971) as [_ | H]; [| lia].
    exists (Zpos 9007199254740992), 4503599627370496%positive, (E + Zpos sp + 1).
    split; [reflexivity |]. split; [lia |]. split; [exact Herr |].
    split; [lia |].
    replace (E + Zpos sp + 1 - (E + Zpos sp)) with 1 by lia. reflexivity.
Qed.

Lemma iter_xO (n d : positive) : Zpos (Pos.iter xO n d) = Zpos n * 2 ^ Zpos d.
Proof.
  induction d as [| d IH] using Pos.peano_ind.
  - simpl. lia.
  - rewrite Pos.iter_succ, Pos2Z.inj_xO, IH, Pos2Z.inj_succ, Z.pow_succ_r by lia. lia.
Qed.

(** [float(n)] is exact below 2^53: the mantissa is [n] shifted left to
    53 bits. *)
Lemma of_int_pos (n : positive) :
  Zpos n < 2 ^ 53 ->
  exists N : positive,
    Float64.of_int (Zpos n) = S754_finite false N (Zpos (digits2_pos n) - 53) /\
    Zpos N = Zpos n * 2 ^ (53 - Zpos (digits2_pos n)) /\
    Zpos (digits2_pos N) = 53.
Proof.
  intros Hn. pose proof (digits2_pos_bounds n) as [Hlo Hhi].
  assert (Hd : Zpos (digits2_pos n) <= 53).
  { destruct (Z.le_gt_cases (Zpos (digits2_pos n)) 53) as [H | H]; [exact H |].
    assert (2 ^ 53 <= 2 ^ (Zpos (digits2_pos n) - 1)) by (apply Z.pow_le_mono_r; lia).
    lia. }
  unfold Float64.of_int, binary_normalize, binary_round.
  assert (Hfexp : fexp Float64.prec Float64.emax (Zpos (digits2_pos n) + 0)
                  = Zpos (digits2_pos n) - 53).
  { unfold fexp, emin, Float64.prec, Float64.emax. lia. }
  rewrite Hfexp. unfold shl_align.
  destruct (Zpos (digits2_pos n) - 53 - 0) as [| dp | dp] eqn:Hdiff; try lia.
  - assert (Heq : Zpos (digits2_pos n) = 53) by lia.
    exists n.
    split; [| split; [rewrite Heq; simpl; lia | exact Heq]].
    replace (Zpos (digits2_pos n) - 53) with 0 by lia.
    apply binary_round_aux_exact; [exact Heq | lia].
  - assert (Hk : 53 - Zpos (digits2_pos n) = Zpos dp) by lia.
    pose proof (iter_xO n dp) as HN.
    assert (HdN : Zpos (digits2_pos (Pos.iter xO n dp)) = 53).
    { apply digits2_pos_unique. rewrite HN.
      assert (2 ^ (53 - 1) = 2 ^ (Zpos (digits2_pos n) - 1) * 2 ^ Zpos dp)
        as -> by (rewrite <- Z.pow_add_r by lia; f_equal; lia).
      assert (2 ^ 53 = 2 ^ Zpos (digits2_pos n) * 2 ^ Zpos dp)
        as -> by (rewrite <- Z.pow_add_r by lia; f_equal; lia).
      assert (0 < 2 ^ Zpos dp) by (apply Z.pow_pos_nonneg; lia).
      nia. }
    exists (Pos.iter xO n dp).
    split; [apply binary_round_aux_exact; [exact HdN | lia] |].
    split; [rewrite Hk; exact HN | exact HdN].
Qed.

(** The integer part of the double-precision product of a constant in
    [2^-7, 1] with a positive integer below 2^32, in terms of integers. *)
Lemma mul_of_int (M : positive) (e : Z) (n : positive) :
  2 ^ 52 <= Zpos M < 2 ^ 53 -> -59 <= e <= -52 -> Zpos n < 2 ^ 32 ->
  exists i m1 K T G : Z,
    Float64.to_int (Float64.mul (S754_finite false M e) (Float64.of_int (Zpos n)))
      = Some i /\
    i = m1 / G /\ 0 < G /\ 0 < T /\ G * T = 2 ^ (- e) * K /\ 2 ^ 21 <= K /\
    2 ^ 52 <= Zpos n * K < 2 ^ 53 /\
    T * 2 ^ 52 <= Zpos M * (Zpos n * K) < T * 2 ^ 53 /\
    Zpos M * (Zpos n * K) / T <= m1 /\
    2 * Z.abs (m1 * T - Zpos M * (Zpos n * K)) <= T.
Proof.
  intros HM He Hn.
  destruct (of_int_pos n ltac:(lia)) as (N & HofN & HN & HdN). rewrite HofN.
  pose proof (digits2_pos_bounds n) as [Hnlo Hnhi].
  set (dn := Zpos (digits2_pos n)) in *.
  assert (Hdn : dn <= 32).
  { destruct (Z.le_gt_cases dn 32) as [H | H]; [exact H |].
    assert (2 ^ 32 <= 2 ^ (dn - 1)) by (apply Z.pow_le_mono_r; lia). lia. }
  assert (Hdn0 : 0 < dn) by (unfold dn; lia).
  pose proof (digits2_pos_bounds N) as [HNlo HNhi]. rewrite HdN in HNlo, HNhi.
  change (53 - 1) with 52 in HNlo.
  unfold Float64.mul, SFmul. cbn [xorb].
  change (binary_round_aux 53 1024) with (binary_round_aux Float64.prec Float64.emax).
  pose proof (digits2_pos_bounds (M * N)) as [HXlo HXhi].
  rewrite Pos2Z.inj_mul in HXlo, HXhi.
  set (dX := Zpos (digits2_pos (M * N))) in *.
  assert (HdX : 105 <= dX <= 106).
  { split.
    - destruct (Z.le_gt_cases 105 dX) as [H | H]; [exact H |].
      assert (2 ^ dX <= 2 ^ 104) by (apply Z.pow_le_mono_r; lia).
      assert (2 ^ 52 * 2 ^ 52 <= Zpos M * Zpos N) by nia.
      change (2 ^ 52 * 2 ^ 52) with (2 ^ 104) in *. lia.
    - destruct (Z.le_gt_cases dX 106) as [H | H]; [exact H |].
      assert (2 ^ 106 <= 2 ^ (dX - 1)) by (apply Z.pow_le_mono_r; lia).
      assert (Zpos M * Zpos N < 2 ^ 53 * 2 ^ 53) by nia.
      change (2 ^ 53 * 2 ^ 53) with (2 ^ 106) in *. lia. }
  destruct (binary_round_aux_shift (M * N) (e + (dn - 53)))
    as (m1 & m' & e' & Hround & Hq & Herr & He' & Hm1); fold dX; try lia.
  fold dX in Hround, Hq, Herr, He', Hm1.
  rewrite Hround. rewrite Pos2Z.inj_mul in Hq, Herr.
  set (s := dX - 53) in *. set (E := e + (dn - 53)) in *.
  assert (He'neg : e' < 0) by lia.
  destruct e' as [| ep | ep]; try lia.
  unfold Float64.to_int.
  exists (Z.shiftr (Zpos m') (Zpos ep)), m1, (2 ^ (53 - dn)), (2 ^ s), (2 ^ (- (E + s))).
  assert (HT : 0 < 2 ^ s) by (apply Z.pow_pos_nonneg; lia).
  assert (HG : 0 < 2 ^ (- (E + s))) by (apply Z.pow_pos_nonneg; lia).
  rewrite <- HN.
  split; [reflexivity |].
  split.
  { rewrite Z.shiftr_div_pow2 by lia. rewrite <- Hm1.
    assert (2 ^ (- (E + s)) = 2 ^ Zpos ep * 2 ^ (Zneg ep - (E + s))) as ->.
    { rewrite <- Z.pow_add_r by lia. f_equal. lia. }
    rewrite Z.div_mul_cancel_r; [reflexivity | lia |].
    apply Z.pow_nonzero; lia. }
  split; [exact HG |]. split; [exact HT |].
  split.
  { rewrite <- !Z.pow_add_r by lia. f_equal. unfold E. lia. }
  split; [apply Z.pow_le_mono_r; lia |].
  split; [lia |].
  split.
  { assert (2 ^ s * 2 ^ 52 = 2 ^ (dX - 1)) as ->
      by (rewrite <- Z.pow_add_r by lia; f_equal; unfold s; lia).
    assert (2 ^ s * 2 ^ 53 = 2 ^ dX) as ->
      by (rewrite <- Z.pow_add_r by lia; f_equal; unfold s; lia).
    lia. }
  split; [exact Hq | exact Herr].
Qed.

(** The integer arithmetic behind the index: a constant [M / P2] within
    half a unit in the last place of [p / 100], times [n], rounded to
    nearest and truncated. *)
Lemma index_arith (p n M P2 K T G m1 dl : Z) :
  0 <= p <= 100 -> 1 <= n ->
  2 ^ 52 <= M < 2 ^ 53 -> 2 ^ 52 <= P2 ->
  100 * M = p * P2 - dl -> -50 <= dl <= 50 ->
  2 ^ 52 <= n * K < 2 ^ 53 -> 2 ^ 21 <= K ->
  0 < T -> 0 < G -> G * T = P2 * K ->
  T * 2 ^ 52 <= M * (n * K) < T * 2 ^ 53 ->
  M * (n * K) / T <= m1 ->
  2 * Z.abs (m1 * T - M * (n * K)) <= T ->
  p * n / 100 - 1 <= m1 / G <= p * n / 100 /\
  ((p * n) mod 100 <> 0 \/ dl <= 0 \/ dl * 2 ^ 53 <= 50 * M -> m1 / G = p * n / 100).
Proof.
  intros Hp Hn HM HP2 HMp Hdl HN HK HT HG HGT HX Hq Herr.
  pose proof (Z.div_mod (p * n) 100 ltac:(lia)) as Hdm.
  pose proof (Z.mod_pos_bound (p * n) 100 ltac:(lia)) as Hr.
  set (q := p * n / 100) in *. set (r := (p * n) mod 100) in *.
  set (N := n * K) in *. set (X := M * N) in *.
  set (GT := G * T) in *.
  assert (Hid : 100 * X = (100 * q + r) * GT - dl * N).
  { unfold X, N. rewrite HGT. 
    replace (100 * (M * (n * K))) with (100 * M * (n * K)) by ring.
    rewrite HMp. rewrite <- Hdm. ring. }
  change (2 ^ 52) with 4503599627370496 in *.
  change (2 ^ 53) with 9007199254740992 in *.
  change (2 ^ 21) with 2097152 in *.
  assert (HTN : N < 2 * T) by nia.
  assert (HTlt : T < 4 * 9007199254740992) by nia.
  assert (HGTbig : 50 * (N + T) < GT).
  { assert (4503599627370496 * 2097152 <= GT) by (rewrite HGT; nia). lia. }
  assert (Hq0 : 0 <= q) by (apply Z.div_pos; nia).
  (* upper bound *)
  assert (Hup : m1 < G * (q + 1)).
  { assert (2 * (m1 * T) < 2 * ((q + 1) * GT)); [| unfold GT in *; nia].
    assert (dl * N >= -50 * N) by nia.
    assert (r * GT <= 99 * GT) by nia.
    lia. }
  (* lower bounds *)
  assert (Hlow1 : (G * q - 1) <= m1).
  { assert (HXl : (G * q - 1) * T <= X).
    { assert (dl * N <= 50 * N) by nia.
      assert (0 <= r * GT) by nia.
      unfold GT in *. nia. }
    assert (G * q - 1 <= X / T) by (apply Z.div_le_lower_bound; lia).
    lia. }
  assert (Hexact : r <> 0 \/ dl <= 0 \/ dl * 9007199254740992 <= 50 * M -> G * q <= m1).
  { intros [Hr0 | [Hd0 | Hd1]].
    - assert (2 * (q * GT) <= 2 * (m1 * T)); [| unfold GT in *; nia].
      assert (dl * N <= 50 * N) by nia.
      assert (GT <= r * GT) by nia.
      lia.
    - assert (HXl : G * q * T <= X).
      { assert (0 <= - dl * N) by nia. assert (0 <= r * GT) by nia.
        unfold GT in *. nia. }
      assert (G * q <= X / T) by (apply Z.div_le_lower_bound; lia).
      lia.
    - destruct (Z.le_gt_cases (G * q) m1) as [H | H]; [exact H | exfalso].
      assert (Hm : m1 = G * q - 1) by lia.
      assert (dl * N < 50 * T).
      { assert (dl * N * 9007199254740992 <= 50 * M * N) by nia.
        unfold X in HX. nia. }
      assert (0 <= r * GT) by nia.
      subst m1. unfold GT in *. nia. }
  split.
  - split.
    + apply Z.div_le_lower_bound; [lia |]. nia.
    + assert (m1 / G < q + 1) by (apply Z.div_lt_upper_bound; lia). lia.
  - intros Hc. specialize (Hexact Hc).
    apply Z.le_antisymm.
    + assert (m1 / G < q + 1) by (apply Z.div_lt_upper_bound; lia). lia.
    + apply Z.div_le_lower_bound; lia.
Qed.

Lemma percentile_constants_ok : forallb percentile_constant_ok (seqZ 1 100) = true.
Proof. vm_compute. reflexivity. Qed.

(** The index [int((percentile / 100) * len(sorted_data))] of
    [percentile], for an integer percentile in [0, 100] and a length
    below 2^32. *)
Lemma percentile_index (p : Z) (n : positive) :
  0 <= p <= 100 -> Zpos n < 2 ^ 32 ->
  exists i,
    Float64.to_int
      (Float64.mul (Float64.div (Float64.of_int p) (Float64.of_int 100))
                   (Float64.of_int (Zpos n))) = Some i /\
    p * Zpos n / 100 - 1 <= i <= p * Zpos n / 100 /\
    (i = p * Zpos n / 100 \/
     (p ∈ inexact_percentiles /\ (p * Zpos n) mod 100 = 0)).
Proof.
  intros Hp Hn.
  destruct (Z.eq_dec p 0) as [-> | Hp0].
  - destruct (of_int_pos n ltac:(lia)) as (N & -> & _).
    exists 0. split; [reflexivity |].
    rewrite Z.mul_0_l. change (0 / 100) with 0. split; [lia | left; reflexivity].
  - assert (Hin : In p (seqZ 1 100)).
    { apply list_elem_of_In, elem_of_seqZ. lia. }
    pose proof (proj1 (forallb_forall _ _) percentile_constants_ok p Hin) as Hok.
    unfold percentile_constant_ok in Hok.
    destruct (Float64.div (Float64.of_int p) (Float64.of_int 100))
      as [| | | [|] M e]; try discriminate.
    cbv zeta in Hok.
    repeat (apply andb_true_iff in Hok as [Hok ?]).
    destruct (mul_of_int M e n ltac:(lia) ltac:(lia) Hn)
      as (i & m1 & K & T & G & Hi & -> & HG & HT & HGT & HK & HN & HX & Hq & Herr).
    exists (m1 / G). split; [exact Hi |].
    assert (HP2 : 2 ^ 52 <= 2 ^ (- e)) by (apply Z.pow_le_mono_r; lia).
    destruct (index_arith p (Zpos n) (Zpos M) (2 ^ (- e)) K T G m1
                (p * 2 ^ (- e) - 100 * Zpos M))
      as [Hb Hex]; try lia.
    split; [exact Hb |].
    destruct (Z.eq_dec ((p * Zpos n) mod 100) 0) as [Hr | Hr];
      [| left; apply Hex; left; exact Hr].
    match goal with H : (_ || _) = true |- _ => apply orb_true_iff in H as [H | H] end.
    + left. apply Hex. right. apply orb_true_iff in H as [H | H]; [left | right]; lia.
    + right. split; [| exact Hr]. apply bool_decide_eq_true in H. exact H.
Qed.

(** ** Sorting *)

Section Sorted.
Context {A : Type}.
Variable lt : A -> A -> bool.

Lemma insert_sorted_Permutation (x : A) (l : list A) :
  insert_sorted lt x l ≡ₚ x :: l.
Proof.
  induction l as [| y l IH]; simpl; [reflexivity |].
  destruct (lt y x); [| reflexivity].
  rewrite IH. apply Permutation_swap.
Qed.

Lemma sorted_Permutation (data : list A) : sorted lt data ≡ₚ data.
Proof.
  induction data as [| x data IH]; simpl; [reflexivity |].
  rewrite insert_sorted_Permutation, IH. reflexivity.
Qed.

Lemma sorted_length (data : list A) : length (sorted lt data) = length data.
Proof. apply Permutation_length, sorted_Permutation. Qed.

Hypothesis lt_asym : forall a b, lt a b = true -> lt b a = false.
Hypothesis ge_trans : forall a b c, lt b a = false -> lt c b = false -> lt c a = false.

Lemma insert_sorted_StronglySorted (x : A) (l : list A) :
  StronglySorted (fun a b => lt b a = false) l ->
  StronglySorted (fun a b => lt b a = false) (insert_sorted lt x l).
Proof.
  induction 1 as [| y l Hs IH Hall]; simpl.
  - constructor; constructor.
  - destruct (lt y x) eqn:Hyx.
    + constructor; [exact IH |].
      rewrite insert_sorted_Permutation. constructor; [| exact Hall].
      apply lt_asym. exact Hyx.
    + constructor; [constructor; assumption |].
      constructor; [exact Hyx |].
      eapply Forall_impl; [exact Hall |].
      intros z Hz. simpl in Hz. eapply ge_trans; eassumption.
Qed.

Lemma sorted_StronglySorted (data : list A) :
  StronglySorted (fun a b => lt b a = false) (sorted lt data).
Proof.
  induction data as [| x data IH]; simpl; [constructor |].
  apply insert_sorted_StronglySorted. exact IH.
Qed.

Lemma lt_irrefl (a : A) : lt a a = false.
Proof. destruct (lt a a) eqn:H; [| reflexivity]. rewrite (lt_asym _ _ H) in H. discriminate. Qed.

Lemma StronglySorted_ascending (l : list A) :
  StronglySorted (fun a b => lt b a = false) l -> ascending lt l.
Proof.
  induction 1 as [| x l Hs IH Hall]; intros i j a b Hij Hi Hj.
  - rewrite lookup_nil in Hi. discriminate.
  - destruct i as [| i], j as [| j]; simpl in Hi, Hj; try lia.
    + injection Hi as <-. injection Hj as <-. apply lt_irrefl.
    + injection Hi as <-. rewrite Forall_forall in Hall.
      apply Hall. eapply list_elem_of_lookup_2, Hj.
    + apply (IH i j); [lia | assumption | assumption].
Qed.

Lemma sorted_ascending (data : list A) : ascending lt (sorted lt data).
Proof. apply StronglySorted_ascending, sorted_StronglySorted. Qed.

End Sorted.

(** ** Percentiles *)

Lemma py_getitem_lookup {A} (l : list A) (i : Z) :
  0 <= i < Z.of_nat (length l) ->
  exists x, py_getitem l i = Returns x /\ l !! Z.to_nat i = Some x.
Proof.
  intros Hi. unfold py_getitem.
  destruct (Z.ltb_spec i 0) as [H | _]; [lia |].
  destruct (Z.ltb_spec i 0) as [H | _]; [lia |].
  destruct (Z.leb_spec (Z.of_nat (length l)) i) as [H | _]; [lia |]. simpl.
  destruct (lookup_lt_is_Some_2 l (Z.to_nat i) ltac:(lia)) as [x Hx].
  rewrite Hx. exists x. split; reflexivity.
Qed.

Section Percentile.
Context {A : Type}.
Variable lt : A -> A -> bool.

(** What [percentile] returns for a non-empty list shorter than 2^32 and
    an integer percentile in [0, 100]. *)
Lemma percentile_rank (xs : list A) (p : Z) :
  xs <> [] -> Z.of_nat (length xs) < 2 ^ 32 -> 0 <= p <= 100 ->
  let len := Z.of_nat (length xs) in
  exists i x,
    percentile lt xs p = Returns x /\
    sorted lt xs !! Z.to_nat (Z.min i (len - 1)) = Some x /\
    x ∈ xs /\
    p * len / 100 - 1 <= i <= p * len / 100 /\
    (i = p * len / 100 \/ (p ∈ inexact_percentiles /\ (p * len) mod 100 = 0)) /\
    (i = p * len / 100 -> percentile lt xs p = nearest_rank lt xs p).
Proof.
  intros Hne Hlen Hp len.
  assert (Hpos : 0 < len) by (unfold len; destruct xs; [contradiction | simpl; lia]).
  destruct len as [| n |] eqn:Hn; try lia.
  destruct (percentile_index p n Hp ltac:(lia)) as (i & Hi & Hb & Hex).
  assert (Hq : 0 <= p * Zpos n / 100) by (apply Z.div_pos; lia).
  assert (Hidx : 0 <= Z.min i (Zpos n - 1) < Z.of_nat (length (sorted lt xs))).
  { rewrite sorted_length. fold len. rewrite Hn.
    destruct Hex as [-> | [Hin Hr]]; [lia |].
    assert (Hp1 : 1 <= p).
    { apply list_elem_of_In in Hin. simpl in Hin. intuition lia. }
    pose proof (Z.div_mod (p * Zpos n) 100 ltac:(lia)) as Hdm.
    rewrite Hr in Hdm. nia. }
  destruct (py_getitem_lookup (sorted lt xs) _ Hidx) as (x & Hget & Hlk).
  assert (Hperc : percentile lt xs p
                  = py_getitem (sorted lt xs) (Z.min i (Zpos n - 1))).
  { unfold percentile. rewrite sorted_length. fold len. rewrite Hn, Hi. reflexivity. }
  exists i, x. split; [rewrite Hperc; exact Hget |].
  split; [exact Hlk |].
  split.
  { rewrite <- (sorted_Permutation lt xs). eapply list_elem_of_lookup_2, Hlk. }
  split; [exact Hb |]. split; [exact Hex |].
  intros ->. rewrite Hperc. unfold nearest_rank. fold len. rewrite Hn. reflexivity.
Qed.

End Percentile.

(** C3, as the code has it. For every non-empty list [xs] of fewer than
    2^32 numbers, ordered by a strict order, and every integer percentile
    [p] in [0, 100], [percentile xs p] returns the element of the
    ascending-sorted [xs] at index [min(i, |xs| - 1)], where [i] is the
    integer part of the double-precision product of [p / 100] and [|xs|]
    (nearest rank, no interpolation). That [i] is [floor(p * |xs| / 100)]
    or one less; it is [floor(p * |xs| / 100)], and the result is the
    nearest-rank element of the specification, whenever [p * |xs|] is not
    a multiple of 100 or [p] is none of 29, 35, 41, 47, 57, 58, 69, 70,
    82, 94: in particular for 95 and 99, the percentiles the program
    computes. For [1, ..., 10] the 95th percentile is 10. *)
Theorem percentile_nearest_rank :
  (forall (A : Type) (lt : A -> A -> bool) (xs : list A) (p : Z),
     (forall a b, lt a b = true -> lt b a = false) ->
     (forall a b c, lt b a = false -> lt c b = false -> lt c a = false) ->
     xs <> [] -> Z.of_nat (length xs) < 2 ^ 32 -> 0 <= p <= 100 ->
     sorted lt xs ≡ₚ xs /\
     ascending lt (sorted lt xs) /\
     exists i x,
       percentile lt xs p = Returns x /\
       sorted lt xs !! Z.to_nat (Z.min i (Z.of_nat (length xs) - 1)) = Some x /\
       p * Z.of_nat (length xs) / 100 - 1 <= i <= p * Z.of_nat (length xs) / 100 /\
       (p ∉ inexact_percentiles \/ (p * Z.of_nat (length xs)) mod 100 <> 0 ->
        i = p * Z.of_nat (length xs) / 100 /\
        percentile lt xs p = nearest_rank lt xs p)) /\
  percentile Z.ltb [1; 2; 3; 4; 5; 6; 7; 8; 9; 10] 95 = Returns 10.
Proof.
  split; [| vm_compute; reflexivity].
  intros A lt xs p Hasym Htrans Hne Hlen Hp.
  split; [apply sorted_Permutation |].
  split; [apply sorted_ascending; assumption |].
  destruct (percentile_rank lt xs p Hne Hlen Hp)
    as (i & x & Hperc & Hlk & _ & Hb & Hex & Hnr).
  exists i, x. split; [exact Hperc |]. split; [exact Hlk |]. split; [exact Hb |].
  intros Hc.
  assert (Hi : i = p * Z.of_nat (length xs) / 100).
  { destruct Hex as [Hi | [Hin Hr]]; [exact Hi |].
    destruct Hc as [Hnin | Hr']; contradiction. }
  split; [exact Hi | exact (Hnr Hi)].
Qed.

Lemma percentile_nearest_rank_witness :
  [1; 2; 3; 4; 5; 6; 7; 8; 9; 10] <> [] /\
  0 <= 95 <= 100 /\
  exists i x,
    percentile Z.ltb [1; 2; 3; 4; 5; 6; 7; 8; 9; 10] 95 = Returns x /\
    i = 95 * 10 / 100.
Proof.
  split; [discriminate |]. split; [lia |].
  destruct (proj1 percentile_nearest_rank Z Z.ltb [1; 2; 3; 4; 5; 6; 7; 8; 9; 10] 95)
    as (_ & _ & i & x & Hperc & _ & _ & Hex).
  - intros a b. lia.
  - intros a b c. lia.
  - discriminate.
  - simpl. lia.
  - lia.
  - exists i, x. split; [exact Hperc |].
    apply Hex. left. intros Hin. apply list_elem_of_In in Hin. simpl in Hin.
    intuition lia.
Defined.

(** The claim of C3 read in exact arithmetic fails for the 29th
    percentile of a hundred values: 29/100 * 100 is 28.999999999999996 in
    double precision, so the element at index 28 is returned, not the one
    at index 29. *)
Lemma percentile_29_of_100 :
  percentile Z.ltb (seqZ 0 100) 29 = Returns 28 /\
  nearest_rank Z.ltb (seqZ 0 100) 29 = Returns 29.
Proof. split; vm_compute; reflexivity. Qed.

(* ================================================================= *)
(** * Further properties of the drivers, the statistics and the entry points *)

(** ** The result sink is append-only *)

Lemma make_request_prefix self r t0 t1 now request_id self' o :
  make_request self r t0 t1 now request_id = (self', o) ->
  results self `prefix_of` results self' /\ errors self `prefix_of` errors self'.
Proof.
  unfold make_request. destruct r as [status content | x].
  - intros [= <- _]. simpl. split; [eexists; reflexivity | reflexivity].
  - destruct (is_TimeoutError x); [| destruct (is_Exception x)]; intros [= <- _];
      simpl; split; try reflexivity; eexists; reflexivity.
Qed.

Lemma count_step_prefix e s s' :
  Count.step e s s' ->
  results (Count.self s) `prefix_of` results (Count.self s') /\
  errors (Count.self s) `prefix_of` errors (Count.self s').
Proof.
  intros Hstep.
  destruct Hstep as
    [s i Hl Hlt | s i Hl Hge | s i Hl Hbd | s Hl Hbd | s k id Hnf Hk
    | s k id t0 self' o Hnf Hk Hio]; simpl; try (split; reflexivity).
  - unfold Count.create. destruct (_ <=? _); simpl; split; reflexivity.
  - unfold Count.loop_end. destruct (Count.tasks s); simpl; split; reflexivity.
  - eapply make_request_prefix. exact Hio.
Qed.

Lemma duration_step_prefix e s s' :
  Duration.step e s s' ->
  results (Duration.self s) `prefix_of` results (Duration.self s') /\
  errors (Duration.self s) `prefix_of` errors (Duration.self s').
Proof.
  intros Hstep. destruct Hstep; simpl; try (split; reflexivity).
  eapply make_request_prefix. eassumption.
Qed.

(** X1. Outcomes are only ever appended: along every interleaving of a
    count-bound or a duration-bound run, the successes and the errors
    recorded at an earlier instant are a prefix of those recorded later, so
    no outcome is dropped, replaced or reordered. *)
Theorem sink_append_only (e : env) :
  (forall s s', rtc (Count.step e) s s' ->
     results (Count.self s) `prefix_of` results (Count.self s') /\
     errors (Count.self s) `prefix_of` errors (Count.self s')) /\
  (forall s s', rtc (Duration.step e) s s' ->
     results (Duration.self s) `prefix_of` results (Duration.self s') /\
     errors (Duration.self s) `prefix_of` errors (Duration.self s')).
Proof.
  split.
  - induction 1 as [| s s1 s' Hstep _ [IH1 IH2]]; [split; reflexivity |].
    destruct (count_step_prefix e s s1 Hstep) as [H1 H2].
    split; etransitivity; eassumption.
  - induction 1 as [| s s1 s' Hstep _ [IH1 IH2]]; [split; reflexivity |].
    destruct (duration_step_prefix e s s1 Hstep) as [H1 H2].
    split; etransitivity; eassumption.
Qed.

(** ** Backpressure *)

(** X2. In a count-bound run with a positive limit the driver never runs
    ahead of its tasks: in every state of every interleaving at most
    [concurrent] tasks are created and not yet finished, whether they have
    started or not. *)
Theorem count_backpressure (e : env) (tester : LoadTester) (s : Count.state) :
  0 < concurrent tester ->
  rtc (Count.step e) (Count.initial e tester) s ->
  Z.of_nat (count_pending s) <= concurrent tester.
Proof.
  intros Hc Hs.
  pose proof (count_inv_reachable e tester s ltac:(lia) Hs) as Hinv.
  pose proof (table_NoDup _ _ _ _ Hinv) as Hnd.
  pose proof (cinv_bound _ _ _ _ Hinv ltac:(lia)) as Hb.
  pose proof (cinv_pending _ _ _ _ Hinv) as Hp.
  unfold count_pending.
  assert (length (filter (fun t => negb (Count.is_done t)) (Count.table s))
          <= length (Count.tasks s))%nat; [| lia].
  rewrite <- (length_fmap fst (filter _ (Count.table s))).
  apply submseteq_length, NoDup_submseteq.
  - eapply sublist_NoDup; [exact Hnd |]. apply fmap_sublist, sublist_filter.
  - intros id (t & -> & Hin)%list_elem_of_fmap.
    apply list_elem_of_filter in Hin as [Hnd' Hin].
    apply Hp; [exact Hin |]. destruct (Count.is_done t); [contradiction | reflexivity].
Qed.

Lemma count_backpressure_witness :
  0 < concurrent sample_count_tester /\
  Z.of_nat (count_pending
              (Count.create 1 (Count.create 0 (Count.initial sample_env sample_count_tester))))
  <= concurrent sample_count_tester.
Proof.
  split; [reflexivity |].
  apply (count_backpressure sample_env sample_count_tester); [reflexivity |].
  eapply rtc_l; [apply (Count.step_create _ _ 0); reflexivity |].
  eapply rtc_l; [apply (Count.step_create _ _ 1); reflexivity |].
  apply rtc_refl.
Defined.

(** ** The semaphore of the duration-bound driver *)

(** X3. In a duration-bound run the semaphore never makes a worker wait:
    there are as many workers as slots, so whenever a worker has taken an
    id from the queue and is about to enter [async with semaphore], a slot
    is free. *)
Theorem semaphore_never_blocks (e : env) (tester : LoadTester) (d : Z)
    (s : Duration.state) (i : nat) (rid : Z) :
  rtc (Duration.step e) (Duration.initial e tester d) s ->
  Duration.workers s !! i = Some (Duration.WAcquire rid) ->
  (0 < Duration.sem s)%nat.
Proof.
  intros Hs Hi.
  pose proof (duration_inv_reachable e tester d s Hs) as Hinv.
  pose proof (inv_sem _ _ _ Hinv) as Hsem. pose proof (inv_workers _ _ _ Hinv) as Hw.
  unfold Duration.in_flight in Hsem.
  assert (length (filter Duration.is_request (Duration.workers s))
          < length (Duration.workers s))%nat; [| lia].
  apply (length_filter_lt _ _ (Duration.WAcquire rid)).
  - eapply list_elem_of_lookup_2, Hi.
  - simpl. auto.
Qed.

Lemma semaphore_never_blocks_witness :
  (0 < Duration.sem
         (Duration.w_get 0 0 []
            (Duration.enqueue sample_env
               (Duration.initial sample_env sample_duration_tester 5))))%nat.
Proof.
  apply (semaphore_never_blocks sample_env sample_duration_tester 5 _ 0%nat 0).
  - eapply rtc_l; [apply Duration.step_enqueue; reflexivity |].
    eapply rtc_l; [| apply rtc_refl].
    apply Duration.step_get; [discriminate | reflexivity | reflexivity].
  - reflexivity.
Defined.

Lemma duration_step_finished e s s' :
  Duration.step e s s' -> Duration.pc s' = Duration.Finished ->
  Duration.pc s = Duration.Joining /\ s' = Duration.join e s.
Proof.
  intros Hstep Hfin. destruct Hstep; simpl in Hfin; try discriminate;
    try congruence.
  split; [assumption | reflexivity].
Qed.

Lemma duration_finished_by_join e s0 s :
  rtc (Duration.step e) s0 s -> Duration.pc s = Duration.Finished ->
  Duration.pc s0 <> Duration.Finished ->
  exists s1, rtc (Duration.step e) s0 s1 /\ Duration.pc s1 = Duration.Joining /\
             s = Duration.join e s1.
Proof.
  intros Hs Hfin Hnf.
  revert Hfin.
  apply (rtc_ind_r (R := Duration.step e)
           (fun s => Duration.pc s = Duration.Finished ->
                     exists s1, rtc (Duration.step e) s0 s1 /\
                                Duration.pc s1 = Duration.Joining /\
                                s = Duration.join e s1) s0); [| | exact Hs].
  - intros Hfin. contradiction.
  - intros y z Hy Hstep _ Hfin.
    destruct (duration_step_finished e y z Hstep Hfin) as [Hj ->].
    exists y. split; [exact Hy | split; [exact Hj | reflexivity]].
Qed.

(** X4. When a duration-bound run has finished, nothing is left behind:
    the queue is empty with no unfinished item, no request is in flight,
    every slot of the semaphore is free again, every worker has left its
    loop, and the end of the run is time-stamped. *)
Theorem duration_finished_released (e : env) (tester : LoadTester) (d : Z)
    (s : Duration.state) :
  rtc (Duration.step e) (Duration.initial e tester d) s ->
  Duration.pc s = Duration.Finished ->
  Duration.queue s = [] /\
  Duration.unfinished s = 0%nat /\
  Duration.in_flight s = 0%nat /\
  Duration.sem s = Z.to_nat (concurrent tester) /\
  Forall (fun w => w = Duration.WExit) (Duration.workers s) /\
  exists t, end_time (Duration.self s) = Some t.
Proof.
  intros Hs Hfin.
  pose proof (duration_inv_reachable e tester d s Hs) as Hinv.
  pose proof (inv_finished _ _ _ Hinv Hfin) as Hz.
  pose proof (inv_unfinished _ _ _ Hinv) as Hu.
  pose proof (inv_sem _ _ _ Hinv) as Hsem.
  assert (Hq : Duration.queue s = []) by (apply length_zero_iff_nil; lia).
  assert (Hh : Duration.held (Duration.workers s) = [])
    by (apply length_zero_iff_nil; lia).
  assert (Hfl : Duration.in_flight s = 0%nat).
  { pose proof (in_flight_le_held (Duration.workers s)) as Hle.
    rewrite Hh in Hle. simpl in Hle. unfold Duration.in_flight. lia. }
  split; [exact Hq |]. split; [exact Hz |]. split; [exact Hfl |].
  split; [lia |].
  destruct (duration_finished_by_join e _ s Hs Hfin ltac:(discriminate))
    as (s1 & _ & _ & ->).
  split; [| eexists; reflexivity].
  simpl. apply Forall_fmap, Forall_forall. intros w _. reflexivity.
Qed.

Lemma duration_finished_released_witness :
  exists s,
    run_duration_test sample_env 20 sample_duration_tester 5 = Some (Returns s) /\
    Duration.sem s = 2%nat /\ Duration.queue s = [].
Proof.
  eexists. split; [vm_compute; reflexivity |].
  match goal with |- Duration.sem ?s = _ /\ _ =>
    assert (Hs : rtc (Duration.step sample_env)
                   (Duration.initial sample_env sample_duration_tester 5) s)
  end.
  { repeat (eapply rtc_l; [apply duration_next_step; vm_compute; reflexivity |]).
    apply rtc_refl. }
  destruct (duration_finished_released sample_env sample_duration_tester 5 _ Hs eq_refl)
    as (Hq & _ & _ & Hsem & _).
  split; [exact Hsem | exact Hq].
Defined.

(** ** The event loop follows the step relation *)

Lemma duration_exec_sound e fuel s s' :
  Duration.exec e fuel s = Some s' ->
  rtc (Duration.step e) s s' /\ Duration.pc s' = Duration.Finished.
Proof.
  revert s. induction fuel as [| fuel IH]; intros s Hex.
  - simpl in Hex. destruct (Duration.pc s) eqn:Hpc; try discriminate.
    injection Hex as <-. split; [apply rtc_refl | exact Hpc].
  - simpl in Hex.
    destruct (Duration.pc s) eqn:Hpc.
    + destruct (Duration.next e s) as [s1 |] eqn:Hn; [| discriminate].
      destruct (IH _ Hex) as [Hr Hf]. split; [| exact Hf].
      eapply rtc_l; [apply duration_next_step; exact Hn | exact Hr].
    + destruct (Duration.next e s) as [s1 |] eqn:Hn; [| discriminate].
      destruct (IH _ Hex) as [Hr Hf]. split; [| exact Hf].
      eapply rtc_l; [apply duration_next_step; exact Hn | exact Hr].
    + injection Hex as <-. split; [apply rtc_refl | exact Hpc].
Qed.

Lemma count_exec_sound e fuel s s' :
  Count.exec e fuel s = Some s' ->
  rtc (Count.step e) s s' /\ Count.pc s' = Count.Finished.
Proof.
  revert s. induction fuel as [| fuel IH]; intros s Hex.
  - simpl in Hex. destruct (Count.pc s) eqn:Hpc; try discriminate.
    injection Hex as <-. split; [apply rtc_refl | exact Hpc].
  - simpl in Hex.
    destruct (Count.pc s) eqn:Hpc;
      try (destruct (Count.next e s) as [s1 |] eqn:Hn; [| discriminate];
           destruct (IH _ Hex) as [Hr Hf]; split; [| exact Hf];
           eapply rtc_l; [apply count_next_step; exact Hn | exact Hr]).
    injection Hex as <-. split; [apply rtc_refl | exact Hpc].
Qed.

(** ** A duration-bound run without workers *)

(** X5. With a concurrency limit of zero a duration-bound run starts no
    worker, so nothing ever takes an id from the queue: if the first
    reading of the clock is before the deadline, no interleaving issues a
    request or reaches the end of [run_duration_test], and the event loop
    does not return whatever the fuel. *)
Theorem zero_limit_duration_never_finishes (e : env) (tester : LoadTester) (d : Z) :
  concurrent tester = 0 ->
  Duration.before_deadline e (Duration.initial e tester d) = true ->
  (forall s,
     rtc (Duration.step e) (Duration.initial e tester d) s ->
     Duration.pc s <> Duration.Finished /\
     Duration.workers s = [] /\
     Z.of_nat (length (Duration.queue s)) = Duration.request_id s /\
     results (Duration.self s) = results tester /\
     errors (Duration.self s) = errors tester) /\
  (forall fuel, run_duration_test e fuel tester d = None).
Proof.
  intros Hc Hbefore.
  assert (Hreach : forall s,
            rtc (Duration.step e) (Duration.initial e tester d) s ->
            (Duration.pc s <> Duration.Finished /\
             Duration.workers s = [] /\
             Z.of_nat (length (Duration.queue s)) = Duration.request_id s /\
             results (Duration.self s) = results tester /\
             errors (Duration.self s) = errors tester) /\
            (s = Duration.initial e tester d \/ (0 < Duration.unfinished s)%nat)).
  { intros s Hs.
    apply (rtc_ind_r (R := Duration.step e)
             (fun s => (Duration.pc s <> Duration.Finished /\
                        Duration.workers s = [] /\
                        Z.of_nat (length (Duration.queue s)) = Duration.request_id s /\
                        results (Duration.self s) = results tester /\
                        errors (Duration.self s) = errors tester) /\
                       (s = Duration.initial e tester d \/
                        (0 < Duration.unfinished s)%nat))
             (Duration.initial e tester d)); [| | exact Hs].
    - split; [| left; reflexivity]. simpl. rewrite Hc.
      repeat split; try reflexivity. discriminate.
    - intros y z _ Hstep [(Hpc & Hw & Hq & Hr & He) Hu].
      destruct Hstep as [u Hp Hb | u Hp Hb | u Hp Hz | u i rid q Hp Hi Hqq
                        | u i Hp Hi Hqq | u i rid Hp Hi Hsem
                        | u i rid t0 self' o Hp Hi Hiss];
        try (rewrite Hw in Hi; discriminate).
      + split; [| right; simpl; lia].
        simpl. rewrite length_app. simpl.
        repeat split; try assumption; [discriminate | lia].
      + destruct Hu as [-> | Hu]; [congruence |].
        split; [| right; exact Hu].
        simpl. repeat split; try assumption. discriminate.
      + destruct Hu as [-> | Hu]; [discriminate | lia]. }
  split; [intros s Hs; apply (Hreach s Hs) |].
  intros fuel. unfold run_duration_test. rewrite Hc. simpl.
  destruct (Duration.exec e fuel (Duration.initial e tester d)) as [s |] eqn:Hex;
    [| reflexivity].
  destruct (duration_exec_sound _ _ _ _ Hex) as [Hs Hfin].
  destruct (Hreach s Hs) as [(Hpc & _) _]. contradiction.
Qed.

Lemma zero_limit_duration_never_finishes_witness :
  run_duration_test sample_env 1000 zero_limit_duration_tester 5 = None.
Proof.
  apply (zero_limit_duration_never_finishes sample_env zero_limit_duration_tester 5);
    vm_compute; reflexivity.
Defined.

(** ** A deadline that has already passed *)

Lemma find_replicate_get (P : Duration.wstate -> bool) n :
  P Duration.WGet = false ->
  list_find (fun w => P w) (replicate n Duration.WGet) = None.
Proof.
  intros HP. apply list_find_None, Forall_forall.
  intros w [-> _]%elem_of_replicate. rewrite HP. auto.
Qed.

(** X6. If the first reading of the clock in the admission loop is
    already at or past the deadline (a duration that is not positive, or
    a slow start), the duration-bound run admits no request in any
    interleaving: the queue stays empty, the workers can only time out,
    the results and the errors are untouched; and the event loop reaches
    the end of the run in two steps. *)
Theorem duration_deadline_passed (e : env) (tester : LoadTester) (d : Z) :
  0 <= concurrent tester ->
  Duration.before_deadline e (Duration.initial e tester d) = false ->
  (forall s,
     rtc (Duration.step e) (Duration.initial e tester d) s ->
     Duration.request_id s = 0 /\
     Duration.admitted s = [] /\
     Duration.queue s = [] /\
     Duration.in_flight s = 0%nat /\
     results (Duration.self s) = results tester /\
     errors (Duration.self s) = errors tester) /\
  (forall fuel, (2 <= fuel)%nat ->
     exists s,
       run_duration_test e fuel tester d = Some (Returns s) /\
       Duration.pc s = Duration.Finished /\
       results (Duration.self s) = results tester /\
       errors (Duration.self s) = errors tester).
Proof.
  intros Hc Hpassed. split.
  - intros s Hs.
    assert (Hinv : (Duration.pc s = Duration.Admitting -> s = Duration.initial e tester d) /\
                   Duration.request_id s = 0 /\
                   Duration.admitted s = [] /\
                   Duration.queue s = [] /\
                   Forall (fun w => w = Duration.WGet \/ w = Duration.WExit)
                          (Duration.workers s) /\
                   results (Duration.self s) = results tester /\
                   errors (Duration.self s) = errors tester).
    { apply (rtc_ind_r (R := Duration.step e)
               (fun s => (Duration.pc s = Duration.Admitting ->
                          s = Duration.initial e tester d) /\
                         Duration.request_id s = 0 /\
                         Duration.admitted s = [] /\
                         Duration.queue s = [] /\
                         Forall (fun w => w = Duration.WGet \/ w = Duration.WExit)
                                (Duration.workers s) /\
                         results (Duration.self s) = results tester /\
                         errors (Duration.self s) = errors tester)
               (Duration.initial e tester d)); [| | exact Hs].
      - simpl. repeat split; try reflexivity.
        apply Forall_forall. intros w [-> _]%elem_of_replicate. left; reflexivity.
      - intros y z _ Hstep (Hadm & Hrid & Ha & Hq & Hw & Hr & He).
        destruct Hstep as [u Hp Hb | u Hp Hb | u Hp Hz | u i rid q Hp Hi Hqq
                        | u i Hp Hi Hqq | u i rid Hp Hi Hsem
                        | u i rid t0 self' o Hp Hi Hiss].
        + rewrite (Hadm Hp) in Hb. congruence.
        + simpl. repeat split; try assumption. discriminate.
        + simpl. repeat split; try assumption; [discriminate |].
          apply Forall_fmap, Forall_forall. intros w _. right; reflexivity.
        + congruence.
        + simpl. repeat split; try assumption; [congruence |].
          apply Forall_insert; [exact Hw | right; reflexivity].
        + apply list_elem_of_lookup_2 in Hi.
          destruct (proj1 (Forall_forall _ _) Hw _ Hi); discriminate.
        + apply list_elem_of_lookup_2 in Hi.
          destruct (proj1 (Forall_forall _ _) Hw _ Hi); discriminate. }
    destruct Hinv as (_ & Hrid & Ha & Hq & Hw & Hr & He).
    repeat split; try assumption.
    unfold Duration.in_flight. apply length_zero_iff_nil.
    induction Hw as [| w ws [-> | ->] _ IH]; [reflexivity | exact IH | exact IH].
  - intros fuel Hfuel.
    destruct fuel as [| [| fuel]]; try lia.
    exists (Duration.join e (Duration.stop (Duration.initial e tester d))).
    split; [| split; [reflexivity | split; reflexivity]].
    unfold run_duration_test.
    destruct (Z.ltb_spec (concurrent tester) 0) as [Hneg | _]; [lia |].
    assert (Hex : Duration.exec e (S (S fuel)) (Duration.initial e tester d)
                  = Some (Duration.join e (Duration.stop (Duration.initial e tester d)))).
    { change (Duration.exec e (S (S fuel)) (Duration.initial e tester d))
        with (match Duration.next e (Duration.initial e tester d) with
              | Some s' => Duration.exec e (S fuel) s'
              | None => None
              end).
      assert (Hn1 : Duration.next e (Duration.initial e tester d)
                    = Some (Duration.stop (Duration.initial e tester d))).
      { unfold Duration.next.
        change (Duration.pc (Duration.initial e tester d)) with Duration.Admitting.
        cbv iota. rewrite Hpassed. reflexivity. }
      rewrite Hn1.
      change (Duration.exec e (S fuel) (Duration.stop (Duration.initial e tester d)))
        with (match Duration.next e (Duration.stop (Duration.initial e tester d)) with
              | Some s' => Duration.exec e fuel s'
              | None => None
              end).
      assert (Hn2 : Duration.next e (Duration.stop (Duration.initial e tester d))
                    = Some (Duration.join e (Duration.stop (Duration.initial e tester d)))).
      { unfold Duration.next. cbn [Duration.pc Duration.stop Duration.queue
                                   Duration.workers Duration.initial Duration.sem
                                   Duration.unfinished].
        rewrite (find_replicate_get Duration.is_acquire) by reflexivity.
        rewrite (find_replicate_get Duration.is_request) by reflexivity.
        reflexivity. }
      rewrite Hn2. destruct fuel; reflexivity. }
    rewrite Hex. reflexivity.
Qed.

Lemma duration_deadline_passed_witness :
  exists s,
    run_duration_test sample_env 2 sample_duration_tester (-1) = Some (Returns s) /\
    results (Duration.self s) = [].
Proof.
  destruct (duration_deadline_passed sample_env sample_duration_tester (-1)
              ltac:(discriminate) ltac:(vm_compute; reflexivity))
    as [_ Hrun].
  destruct (Hrun 2%nat ltac:(lia)) as (s & Hs & _ & Hr & _).
  exists s. split; [exact Hs | exact Hr].
Defined.

(** ** First in, first out *)

Lemma duration_queue_reachable e tester d s0 :
  rtc (Duration.step e) (Duration.initial e tester d) s0 ->
  Z.of_nat (length (Duration.queue s0)) <= Duration.request_id s0 /\
  Duration.queue s0 =
    seqZ (Duration.request_id s0 - Z.of_nat (length (Duration.queue s0)))
         (Z.of_nat (length (Duration.queue s0))).
Proof.
  intros Hs.
  apply (rtc_ind_r (R := Duration.step e)
           (fun s => Z.of_nat (length (Duration.queue s)) <= Duration.request_id s /\
                     Duration.queue s =
                       seqZ (Duration.request_id s - Z.of_nat (length (Duration.queue s)))
                            (Z.of_nat (length (Duration.queue s))))
           (Duration.initial e tester d)); [| | exact Hs].
  - simpl. split; [lia | reflexivity].
  - intros y z _ Hstep [Hle Hq].
    destruct Hstep as [s Hp Hb | s Hp Hb | s Hp Hz | s i rid q Hp Hi Hqq
                      | s i Hp Hi Hqq | s i rid Hp Hi Hsem
                      | s i rid t0 self' o Hp Hi Hiss];
      simpl; try (split; assumption).
    + rewrite length_app. simpl. split; [lia |].
      replace (Z.of_nat (length (Duration.queue s) + 1))
        with (Z.of_nat (length (Duration.queue s)) + 1) by lia.
      rewrite seqZ_app by lia.
      replace (Duration.request_id s + 1
               - (Z.of_nat (length (Duration.queue s)) + 1))
        with (Duration.request_id s - Z.of_nat (length (Duration.queue s))) by lia.
      rewrite <- Hq. f_equal.
      replace (Duration.request_id s - Z.of_nat (length (Duration.queue s))
               + Z.of_nat (length (Duration.queue s)))
        with (Duration.request_id s) by lia.
      reflexivity.
    + rewrite Hqq in Hle, Hq. simpl length in Hle, Hq.
      split; [lia |].
      rewrite seqZ_cons in Hq by lia. injection Hq as Hrid Hq'.
      rewrite Hq' at 1. f_equal; lia.
Qed.

(** X7. The queue of a duration-bound run is first in, first out: in
    every state of every interleaving it holds the most recently admitted
    ids, consecutive and in order of admission, and the ids the workers
    have taken so far (in hand, or with their outcome recorded) are
    exactly the ids admitted before them. *)
Theorem duration_fifo_dispatch (e : env) (tester : LoadTester) (d : Z)
    (s : Duration.state) :
  rtc (Duration.step e) (Duration.initial e tester d) s ->
  let waiting := Z.of_nat (length (Duration.queue s)) in
  0 <= Duration.request_id s - waiting /\
  Duration.queue s = seqZ (Duration.request_id s - waiting) waiting /\
  Duration.held (Duration.workers s) ++ outcome_ids (Duration.self s)
    ≡ₚ seqZ 0 (Duration.request_id s - waiting) ++ outcome_ids tester.
Proof.
  intros Hs waiting.
  destruct (duration_queue_reachable e tester d s Hs) as [Hle Hq].
  fold waiting in Hle, Hq.
  pose proof (duration_inv_reachable e tester d s Hs) as Hinv.
  pose proof (inv_ids _ _ _ Hinv) as Hids.
  split; [lia |]. split; [exact Hq |].
  replace (Duration.request_id s)
    with ((Duration.request_id s - waiting) + waiting) in Hids at 1 by lia.
  rewrite seqZ_app in Hids by lia.
  replace (0 + (Duration.request_id s - waiting))
    with (Duration.request_id s - waiting) in Hids by lia.
  rewrite <- Hq in Hids.
  rewrite <- app_assoc in Hids.
  rewrite (Permutation_app_swap_app (seqZ 0 (Duration.request_id s - waiting))) in Hids.
  apply Permutation_app_inv_l in Hids. symmetry. exact Hids.
Qed.

Lemma duration_fifo_dispatch_witness :
  Duration.queue
    (Duration.enqueue sample_env
       (Duration.w_get 0 0 []
          (Duration.enqueue sample_env
             (Duration.initial sample_env sample_duration_tester 5))))
  = seqZ 1 1.
Proof.
  assert (Hs : rtc (Duration.step sample_env)
                 (Duration.initial sample_env sample_duration_tester 5)
                 (Duration.enqueue sample_env
                    (Duration.w_get 0 0 []
                       (Duration.enqueue sample_env
                          (Duration.initial sample_env sample_duration_tester 5))))).
  { eapply rtc_l; [apply Duration.step_enqueue; reflexivity |].
    eapply rtc_l; [apply (Duration.step_get _ _ 0%nat 0 []);
                   [discriminate | reflexivity | reflexivity] |].
    eapply rtc_l; [apply Duration.step_enqueue; reflexivity |].
    apply rtc_refl. }
  pose proof (duration_fifo_dispatch sample_env sample_duration_tester 5 _ Hs) as H.
  cbv zeta in H. destruct H as (_ & Hq & _). exact Hq.
Defined.

(** ** What a finished count-bound run has recorded *)

Lemma count_step_responsive e s s' :
  Count.step e s s' ->
  (env_responsive e -> errors (Count.self s') = errors (Count.self s)) /\
  (env_failing e -> results (Count.self s') = results (Count.self s)).
Proof.
  intros Hstep.
  destruct Hstep as
    [s i Hl Hlt | s i Hl Hge | s i Hl Hbd | s Hl Hbd | s k id Hnf Hk
    | s k id t0 self' o Hnf Hk Hio]; simpl; try (split; reflexivity).
  - unfold Count.create. destruct (_ <=? _); simpl; split; reflexivity.
  - unfold Count.loop_end. destruct (Count.tasks s); simpl; split; reflexivity.
  - unfold Count.issue in Hio. split.
    + intros Hr. destruct (Hr id) as (st & c & Hnet). rewrite Hnet in Hio.
      rewrite make_request_got in Hio. injection Hio as <- _. reflexivity.
    + intros Hf. destruct (Hf id) as (x & Hnet & Hx). rewrite Hnet in Hio.
      rewrite make_request_failed in Hio by exact Hx.
      injection Hio as <- _. reflexivity.
Qed.

(** On a network that answers every request, a count-bound run adds no
    error; on a network that fails every request, it adds no success. *)
Lemma count_reachable_responsive e tester s :
  rtc (Count.step e) (Count.initial e tester) s ->
  (env_responsive e -> errors (Count.self s) = errors tester) /\
  (env_failing e -> results (Count.self s) = results tester).
Proof.
  intros Hs.
  apply (rtc_ind_r (R := Count.step e)
           (fun s => (env_responsive e -> errors (Count.self s) = errors tester) /\
                     (env_failing e -> results (Count.self s) = results tester))
           (Count.initial e tester)); [| | exact Hs].
  - split; reflexivity.
  - intros y z _ Hstep [IH1 IH2].
    destruct (count_step_responsive e y z Hstep) as [H1 H2].
    split; intros H; [rewrite (H1 H), (IH1 H) | rewrite (H2 H), (IH2 H)];
      reflexivity.
Qed.

(** A finished count-bound run has one more outcome per requested id. *)
Lemma count_finished_length e tester s :
  0 <= concurrent tester ->
  rtc (Count.step e) (Count.initial e tester) s ->
  Count.pc s = Count.Finished ->
  (length (results (Count.self s)) + length (errors (Count.self s)) =
   length (results tester) + length (errors tester)
   + Z.to_nat (total_requests tester))%nat.
Proof.
  intros Hc Hs Hfin.
  pose proof (count_inv_reachable e tester s Hc Hs) as Hinv.
  destruct (count_finished_ids _ _ _ _ Hinv Hfin) as [_ Hout].
  apply Permutation_length in Hout.
  unfold outcome_ids in Hout. rewrite !length_app, !length_map, length_seqZ in Hout.
  lia.
Qed.

(** X8. A finished count-bound run has recorded exactly one outcome per
    requested id on top of what the tester held before, in every
    interleaving: the successes and the errors together grow by
    [total_requests]. On a network that answers every request no error is
    added, and on a network that fails every request no success is. *)
Theorem count_finished_totals (e : env) (tester : LoadTester) (s : Count.state) :
  0 <= concurrent tester ->
  rtc (Count.step e) (Count.initial e tester) s ->
  Count.pc s = Count.Finished ->
  (length (results (Count.self s)) + length (errors (Count.self s)) =
   length (results tester) + length (errors tester)
   + Z.to_nat (total_requests tester))%nat /\
  (env_responsive e ->
   errors (Count.self s) = errors tester /\
   length (results (Count.self s)) =
     (length (results tester) + Z.to_nat (total_requests tester))%nat) /\
  (env_failing e ->
   results (Count.self s) = results tester /\
   length (errors (Count.self s)) =
     (length (errors tester) + Z.to_nat (total_requests tester))%nat).
Proof.
  intros Hc Hs Hfin.
  pose proof (count_finished_length e tester s Hc Hs Hfin) as Hout.
  destruct (count_reachable_responsive e tester s Hs) as [Hk1 Hk2].
  split; [exact Hout |]. split.
  - intros Hr. split; [exact (Hk1 Hr) |]. rewrite (Hk1 Hr) in Hout. lia.
  - intros Hf. split; [exact (Hk2 Hf) |]. rewrite (Hk2 Hf) in Hout. lia.
Qed.

Lemma count_finished_totals_witness :
  exists s,
    run_count_test sample_env 28 sample_count_tester = Some (Returns s) /\
    (length (results (Count.self s)) + length (errors (Count.self s)) = 5)%nat.
Proof.
  destruct (Count.exec sample_env 28 (Count.initial sample_env sample_count_tester))
    as [s |] eqn:Hex; [| vm_compute in Hex; discriminate].
  exists s. split.
  { unfold run_count_test.
    change (concurrent sample_count_tester <? 0) with false. cbv iota.
    rewrite Hex. reflexivity. }
  destruct (count_exec_sound _ _ _ _ Hex) as [Hs Hfin].
  destruct (count_finished_totals sample_env sample_count_tester s
              ltac:(discriminate) Hs Hfin) as [Htot _].
  exact Htot.
Defined.

(** ** Percentiles: extremes, monotonicity, order of arrival *)

Lemma percentile_empty_ok :
  forallb (fun p =>
             match percentile Z.ltb [] p with
             | Raises (Exn IndexError _) => true
             | _ => false
             end) (seqZ 0 101) = true.
Proof. vm_compute. reflexivity. Qed.

(** X13. [percentile] of an empty list raises [IndexError] for every
    integer percentile in [0, 100], whatever the type of the data: the
    index [min(0, -1)] is out of range. [calculate_statistics] calls it
    behind its test for empty results only. *)
Theorem percentile_empty_raises (A : Type) (lt : A -> A -> bool) (p : Z) :
  0 <= p <= 100 ->
  exists msg, percentile lt [] p = Raises (Exn IndexError msg).
Proof.
  intros Hp.
  assert (Hin : In p (seqZ 0 101)).
  { apply list_elem_of_In, elem_of_seqZ. lia. }
  pose proof (proj1 (forallb_forall _ _) percentile_empty_ok p Hin) as Hok.
  cbv beta in Hok. unfold percentile in *.
  change (sorted lt []) with (@nil A). change (sorted Z.ltb []) with (@nil Z) in Hok.
  change (Z.of_nat (length (@nil A))) with 0.
  change (Z.of_nat (length (@nil Z))) with 0 in Hok.
  destruct (Float64.to_int _) as [i |].
  - change (Z.min i (0 - 1)) with (Z.min i (-1)) in *.
    assert (Hget : forall (B : Type) (j : Z), j < 0 ->
              py_getitem (@nil B) j = Raises (Exn IndexError "list index out of range")).
    { intros B j Hj. unfold py_getitem. cbn [length].
      change (Z.of_nat 0) with 0.
      destruct (Z.ltb_spec j 0) as [_ | H]; [| lia].
      destruct (Z.ltb_spec (0 + j) 0) as [_ | H]; [| lia]. reflexivity. }
    rewrite Hget by lia. eexists; reflexivity.
  - discriminate.
Qed.

Lemma percentile_empty_raises_witness :
  exists msg, percentile Float64.ltb [] 95 = Raises (Exn IndexError msg).
Proof. apply (percentile_empty_raises _ Float64.ltb 95). lia. Defined.

Section PercentileOrder.
Context {A : Type}.
Variable lt : A -> A -> bool.
Hypothesis lt_asym : forall a b, lt a b = true -> lt b a = false.
Hypothesis ge_trans : forall a b c, lt b a = false -> lt c b = false -> lt c a = false.

(** X12. Over a strict order, the percentile 0 of a non-empty list of
    fewer than 2^32 elements is a minimum of the list and the percentile
    100 is a maximum: both are elements of the list, no element is below
    the first and none is above the second. *)
Theorem percentile_extremes (xs : list A) :
  xs <> [] -> Z.of_nat (length xs) < 2 ^ 32 ->
  exists lo hi,
    percentile lt xs 0 = Returns lo /\ percentile lt xs 100 = Returns hi /\
    lo ∈ xs /\ hi ∈ xs /\
    forall y, y ∈ xs -> lt y lo = false /\ lt hi y = false.
Proof.
  intros Hne Hlen.
  assert (Hpos : 0 < Z.of_nat (length xs)) by (destruct xs; [contradiction | simpl; lia]).
  destruct (percentile_rank lt xs 0 Hne Hlen ltac:(lia))
    as (i & lo & Hlo & Hlk & Hin & Hb & Hex & _).
  destruct (percentile_rank lt xs 100 Hne Hlen ltac:(lia))
    as (j & hi & Hhi & Hlk' & Hin' & Hb' & Hex' & _).
  cbv zeta in *.
  exists lo, hi. repeat split; try assumption.
  - assert (Hi : i = 0).
    { destruct Hex as [-> | [Hbad _]]; [reflexivity |].
      apply list_elem_of_In in Hbad. simpl in Hbad. intuition discriminate. }
    subst i. rewrite Z.min_l in Hlk by lia. simpl in Hlk.
    pose proof H as Hy. rewrite <- (sorted_Permutation lt xs) in Hy.
    apply list_elem_of_lookup_1 in Hy as [k Hk].
    apply (sorted_ascending lt lt_asym ge_trans xs 0%nat k lo y); [lia | exact Hlk | exact Hk].
  - assert (Hj : Z.min j (Z.of_nat (length xs) - 1) = Z.of_nat (length xs) - 1).
    { assert (Hd : 100 * Z.of_nat (length xs) / 100 = Z.of_nat (length xs))
        by (rewrite Z.mul_comm, Z.div_mul; lia).
      rewrite Hd in Hb'. lia. }
    rewrite Hj in Hlk'.
    pose proof H as Hy. rewrite <- (sorted_Permutation lt xs) in Hy.
    apply list_elem_of_lookup_1 in Hy as [k Hk].
    pose proof (lookup_lt_Some _ _ _ Hk) as Hklt. rewrite sorted_length in Hklt.
    apply (sorted_ascending lt lt_asym ge_trans xs k
             (Z.to_nat (Z.of_nat (length xs) - 1)) y hi); [lia | exact Hk | exact Hlk'].
Qed.

(** X11. Over a strict order, [percentile] is monotone in the
    percentile: for a non-empty list of fewer than 2^32 elements and
    integer percentiles [p <= q] in [0, 100], the value returned for [q]
    is not below the value returned for [p], although the index computed
    in floating point can be one short of the exact one. *)
Theorem percentile_monotone (xs : list A) (p q : Z) :
  xs <> [] -> Z.of_nat (length xs) < 2 ^ 32 -> 0 <= p -> p <= q -> q <= 100 ->
  exists x y,
    percentile lt xs p = Returns x /\ percentile lt xs q = Returns y /\
    lt y x = false.
Proof.
  intros Hne Hlen Hp Hpq Hq.
  assert (Hpos : 0 < Z.of_nat (length xs)) by (destruct xs; [contradiction | simpl; lia]).
  destruct (percentile_rank lt xs p Hne Hlen ltac:(lia))
    as (i & x & Hx & Hlk & _ & Hb & Hex & _).
  destruct (percentile_rank lt xs q Hne Hlen ltac:(lia))
    as (j & y & Hy & Hlk' & _ & Hb' & Hex' & _).
  cbv zeta in *.
  exists x, y. split; [exact Hx |]. split; [exact Hy |].
  destruct (Z.eq_dec p q) as [<- | Hne'].
  - rewrite Hx in Hy. injection Hy as <-. apply (lt_irrefl lt lt_asym).
  - set (n := Z.of_nat (length xs)) in *.
    assert (Hij : Z.min i (n - 1) <= Z.min j (n - 1)).
    { assert (Hfp : p * n / 100 <= q * n / 100) by (apply Z.div_le_mono; nia).
      destruct Hex' as [-> | [_ Hr]].
      - lia.
      - assert (i <= j); [| lia].
        pose proof (Z.div_mod (q * n) 100 ltac:(lia)) as Hdm. rewrite Hr in Hdm.
        pose proof (Z.div_mod (p * n) 100 ltac:(lia)) as Hdm'.
        pose proof (Z.mod_pos_bound (p * n) 100 ltac:(lia)) as Hm.
        assert (p * n / 100 < q * n / 100) by nia. lia. }
    assert (Hi0 : 0 <= Z.min i (n - 1)).
    { assert (0 <= p * n / 100) by (apply Z.div_pos; nia).
      destruct Hex as [-> | [Hin Hr]]; [lia |].
      assert (Hp1 : 1 <= p).
      { apply list_elem_of_In in Hin. simpl in Hin. intuition lia. }
      pose proof (Z.div_mod (p * n) 100 ltac:(lia)) as Hdm. rewrite Hr in Hdm. nia. }
    apply (sorted_ascending lt lt_asym ge_trans xs
             (Z.to_nat (Z.min i (n - 1))) (Z.to_nat (Z.min j (n - 1))) x y);
      [lia | exact Hlk | exact Hlk'].
Qed.

Hypothesis lt_antisym : forall a b, lt a b = false -> lt b a = false -> a = b.

(** X19. Over a strict total order, [percentile] does not depend on the
    order in which the data arrived: two lists with the same elements
    give the same result. *)
Theorem percentile_order_independent (xs ys : list A) (p : Z) :
  xs ≡ₚ ys -> percentile lt xs p = percentile lt ys p.
Proof.
  intros Hperm.
  assert (Hsorted : sorted lt xs = sorted lt ys).
  { apply (StronglySorted_unique_strong (fun a b => lt b a = false)).
    - intros a b _ _ Hab Hba. apply lt_antisym; assumption.
    - apply sorted_StronglySorted; assumption.
    - apply sorted_StronglySorted; assumption.
    - rewrite !sorted_Permutation. exact Hperm. }
  unfold percentile. rewrite Hsorted. reflexivity.
Qed.

End PercentileOrder.

Lemma Z_ltb_asym (a b : Z) : (a <? b) = true -> (b <? a) = false.
Proof. intros H%Z.ltb_lt. apply Z.ltb_ge. lia. Qed.

Lemma Z_ltb_ge_trans (a b c : Z) : (b <? a) = false -> (c <? b) = false -> (c <? a) = false.
Proof. intros H1%Z.ltb_ge H2%Z.ltb_ge. apply Z.ltb_ge. lia. Qed.

Lemma Z_ltb_antisym (a b : Z) : (a <? b) = false -> (b <? a) = false -> a = b.
Proof. intros H1%Z.ltb_ge H2%Z.ltb_ge. lia. Qed.

Lemma percentile_extremes_witness :
  exists lo hi,
    percentile Z.ltb [3; 1; 2] 0 = Returns lo /\ percentile Z.ltb [3; 1; 2] 100 = Returns hi /\
    lo ∈ [3; 1; 2] /\ hi ∈ [3; 1; 2] /\
    forall y, y ∈ [3; 1; 2] -> (y <? lo) = false /\ (hi <? y) = false.
Proof.
  apply (percentile_extremes Z.ltb Z_ltb_asym Z_ltb_ge_trans [3; 1; 2]);
    [discriminate | vm_compute; reflexivity].
Defined.

Lemma percentile_monotone_witness :
  exists x y,
    percentile Z.ltb [3; 1; 2] 50 = Returns x /\ percentile Z.ltb [3; 1; 2] 95 = Returns y /\
    (y <? x) = false.
Proof.
  apply (percentile_monotone Z.ltb Z_ltb_asym Z_ltb_ge_trans [3; 1; 2] 50 95);
    [discriminate | vm_compute; reflexivity | lia | lia | lia].
Defined.

Lemma percentile_order_independent_witness :
  percentile Z.ltb [3; 1; 2] 95 = percentile Z.ltb [1; 2; 3] 95.
Proof.
  apply (percentile_order_independent Z.ltb Z_ltb_asym Z_ltb_ge_trans Z_ltb_antisym).
  exact (Permutation_cons_append [1; 2] 3).
Defined.

(** ** The histogram does not depend on the order of arrival *)

Lemma count_status_codes_lookup (codes : list Z) (code : Z) :
  count_status_codes codes !! code =
  if decide (code ∈ codes)
  then Some (Z.of_nat (count_occ Z.eq_dec codes code))
  else None.
Proof.
  unfold count_status_codes. rewrite fold_bump_lookup, lookup_empty. cbn [default].
  destruct (decide _); reflexivity.
Qed.

(** X18. The histogram of status codes depends on the codes only, not on
    the order in which the responses arrived: two lists with the same
    codes give the same mapping; and the histogram of a concatenation
    holds, for each code, the sum of the counts of the two parts. *)
Theorem count_status_codes_order_independent (l1 l2 : list Z) :
  l1 ≡ₚ l2 ->
  count_status_codes l1 = count_status_codes l2 /\
  forall l3 code,
    default 0 (count_status_codes (l1 ++ l3) !! code) =
    default 0 (count_status_codes l2 !! code)
    + default 0 (count_status_codes l3 !! code).
Proof.
  intros Hperm.
  assert (Heq : count_status_codes l1 = count_status_codes l2).
  { apply map_eq. intros code. rewrite !count_status_codes_lookup.
    rewrite (proj1 (Permutation_count_occ Z.eq_dec l1 l2) Hperm code).
    destruct (decide (code ∈ l1)) as [H1 | H1];
      destruct (decide (code ∈ l2)) as [H2 | H2]; try reflexivity.
    - rewrite Hperm in H1. contradiction.
    - rewrite <- Hperm in H2. contradiction. }
  split; [exact Heq |].
  intros l3 code. rewrite <- Heq. rewrite !count_status_codes_lookup.
  rewrite count_occ_app.
  assert (Hz : forall l, code ∉ l -> count_occ Z.eq_dec l code = 0%nat).
  { intros l Hl. apply count_occ_not_In. rewrite <- list_elem_of_In. exact Hl. }
  destruct (decide (code ∈ l1 ++ l3)) as [H13 | H13];
    destruct (decide (code ∈ l1)) as [H1 | H1];
    destruct (decide (code ∈ l3)) as [H3 | H3]; cbn [default];
    try (exfalso; apply H13, elem_of_app; auto; fail);
    try (apply elem_of_app in H13 as [? | ?]; contradiction);
    try rewrite (Hz l1 H1); try rewrite (Hz l3 H3); unfold id; lia.
Qed.

Lemma count_status_codes_order_independent_witness :
  count_status_codes [200; 404; 200] = count_status_codes [404; 200; 200].
Proof.
  apply (count_status_codes_order_independent [200; 404; 200] [404; 200; 200]).
  apply perm_swap.
Defined.

(** ** The URL handed to the tester *)

(** X17. [main] hands the tester a URL that begins with [http://] or
    [https://]: a URL that has such a scheme is passed on unchanged, any
    other one gets [http://] in front, and doing it twice changes
    nothing more. The other arguments are passed on as they are, with
    no results, no errors and no times yet. *)
Theorem main_tester_url (a : args) :
  has_scheme (url (main_tester a)) = true /\
  (has_scheme (args_url a) = true -> url (main_tester a) = args_url a) /\
  (has_scheme (args_url a) = false ->
   url (main_tester a) = "http://" +:+ args_url a) /\
  normalize_url (normalize_url (args_url a)) = normalize_url (args_url a) /\
  results (main_tester a) = [] /\ errors (main_tester a) = [] /\
  start_time (main_tester a) = None /\ end_time (main_tester a) = None.
Proof.
  assert (Hpre : forall u, has_scheme ("http://" +:+ u) = true).
  { intros u. unfold has_scheme. simpl. destruct u; reflexivity. }
  assert (Hn : forall u, has_scheme (normalize_url u) = true).
  { intros u. unfold normalize_url. fold (has_scheme u).
    destruct (has_scheme u) eqn:Hu; [exact Hu | apply Hpre]. }
  split; [apply Hn |]. split; [| split; [| split]].
  - intros H. simpl. unfold normalize_url. fold (has_scheme (args_url a)).
    rewrite H. reflexivity.
  - intros H. simpl. unfold normalize_url. fold (has_scheme (args_url a)).
    rewrite H. reflexivity.
  - pose proof (Hn (args_url a)) as H.
    unfold normalize_url at 1. fold (has_scheme (normalize_url (args_url a))).
    rewrite H. reflexivity.
  - repeat split.
Qed.

(** ** Statistics of a run that has data *)

Lemma py_min_Z (x : Z) (l : list Z) :
  py_min Z.ltb x l ∈ x :: l /\ Forall (fun y => py_min Z.ltb x l <= y) (x :: l).
Proof.
  unfold py_min. revert x. induction l as [| y l IH]; intros x.
  - simpl. split; [apply list_elem_of_here | constructor; [lia | constructor]].
  - cbn [fold_left].
    destruct (IH (if y <? x then y else x)) as [Hin Hall].
    apply Forall_cons in Hall as [Hm Hall]. split.
    + apply elem_of_cons in Hin as [-> | Hin].
      * destruct (y <? x); [apply list_elem_of_further, list_elem_of_here
                           | apply list_elem_of_here].
      * do 2 apply list_elem_of_further. exact Hin.
    + destruct (Z.ltb_spec y x); repeat constructor; try lia; exact Hall.
Qed.

Lemma py_max_Z (x : Z) (l : list Z) :
  py_max Z.ltb x l ∈ x :: l /\ Forall (fun y => y <= py_max Z.ltb x l) (x :: l).
Proof.
  unfold py_max. revert x. induction l as [| y l IH]; intros x.
  - simpl. split; [apply list_elem_of_here | constructor; [lia | constructor]].
  - cbn [fold_left].
    destruct (IH (if x <? y then y else x)) as [Hin Hall].
    apply Forall_cons in Hall as [Hm Hall]. split.
    + apply elem_of_cons in Hin as [-> | Hin].
      * destruct (x <? y); [apply list_elem_of_further, list_elem_of_here
                           | apply list_elem_of_here].
      * do 2 apply list_elem_of_further. exact Hin.
    + destruct (Z.ltb_spec x y); repeat constructor; try lia; exact Hall.
Qed.

Lemma not_inexact_95 : 95 ∉ inexact_percentiles.
Proof. intros H%list_elem_of_In. simpl in H. intuition discriminate. Qed.

Lemma not_inexact_99 : 99 ∉ inexact_percentiles.
Proof. intros H%list_elem_of_In. simpl in H. intuition discriminate. Qed.

Lemma py_last_suffix {A} (k : nat) (l : list A) :
  py_last k l `suffix_of` l /\ length (py_last k l) = Nat.min k (length l).
Proof.
  unfold py_last. split; [apply suffix_drop |]. rewrite length_drop. lia.
Qed.


Lemma foldr_add_Permutation (l l' : list Z) :
  l ≡ₚ l' -> foldr Z.add 0 l = foldr Z.add 0 l'.
Proof.
  induction 1 as [| x l l' _ IH | x y l | l l' l'' _ IH1 _ IH2]; simpl; lia.
Qed.

Lemma StronglySorted_strict (l : list Z) :
  StronglySorted Z.le l -> NoDup l -> StronglySorted Z.lt l.
Proof.
  induction 1 as [| x l Hs IH Hall]; intros Hnd; [constructor |].
  apply NoDup_cons in Hnd as [Hx Hnd].
  constructor; [apply IH; exact Hnd |].
  apply Forall_forall. intros y Hy.
  pose proof (proj1 (Forall_forall _ _) Hall y Hy) as Hle.
  assert (x <> y) by (intros ->; contradiction). lia.
Qed.

Section ReportFacts.
Variable statistics_mean : list number -> number.
Variable statistics_median : list number -> number.

(** X9. Once both times of a run are set, [calculate_statistics] raises
    nothing: for a tester that holds at least one success and fewer than
    2^32 of them, it returns a record whose total time is the difference
    of the two times and whose 95th and 99th percentiles are response
    times of the run, equal to the nearest-rank elements in exact
    arithmetic (the floating-point index is exact for 95 and 99). *)
Theorem calculate_statistics_defined (self : LoadTester) (t0 t1 : spec_float) :
  start_time self = Some t0 -> end_time self = Some t1 ->
  results self <> [] -> Z.of_nat (length (results self)) < 2 ^ 32 ->
  exists st,
    calculate_statistics statistics_mean statistics_median self = Returns (Some st) /\
    stats_total_time st = Float64.sub t1 t0 /\
    nearest_rank Float64.ltb (map result_response_time (results self)) 95
      = Returns (rt_p95 (stats_response_time st)) /\
    nearest_rank Float64.ltb (map result_response_time (results self)) 99
      = Returns (rt_p99 (stats_response_time st)) /\
    rt_p95 (stats_response_time st) ∈ map result_response_time (results self) /\
    rt_p99 (stats_response_time st) ∈ map result_response_time (results self).
Proof.
  intros Hs He Hne Hlen.
  set (rts := map result_response_time (results self)).
  assert (Hrne : rts <> []).
  { unfold rts. destruct (results self); [contradiction | discriminate]. }
  assert (Hrlen : Z.of_nat (length rts) < 2 ^ 32).
  { unfold rts. rewrite length_map. exact Hlen. }
  destruct (percentile_rank Float64.ltb rts 95 Hrne Hrlen ltac:(lia))
    as (i & x & Hx & _ & Hxin & _ & Hex & Hnr).
  destruct (percentile_rank Float64.ltb rts 99 Hrne Hrlen ltac:(lia))
    as (j & y & Hy & _ & Hyin & _ & Hex' & Hnr').
  cbv zeta in *.
  assert (Hi : i = 95 * Z.of_nat (length rts) / 100).
  { destruct Hex as [Hi | [Hbad _]]; [exact Hi |]. destruct (not_inexact_95 Hbad). }
  assert (Hj : j = 99 * Z.of_nat (length rts) / 100).
  { destruct Hex' as [Hj | [Hbad _]]; [exact Hj |]. destruct (not_inexact_99 Hbad). }
  specialize (Hnr Hi). specialize (Hnr' Hj).
  rewrite Hx in Hnr. rewrite Hy in Hnr'.
  unfold calculate_statistics. fold rts.
  destruct (results self) as [| r0 rs] eqn:Hres; [contradiction |].
  rewrite He, Hs, Hx, Hy.
  eexists. split; [reflexivity |].
  split; [reflexivity |].
  split; [symmetry; exact Hnr |]. split; [symmetry; exact Hnr' |].
  split; [exact Hxin | exact Hyin].
Qed.

(** X14. In every record of statistics the smallest and the largest
    content length are attained by a success of the run and bound the
    content length of every success. *)
Theorem content_length_extrema (self : LoadTester) (st : stats) :
  calculate_statistics statistics_mean statistics_median self = Returns (Some st) ->
  (exists r, r ∈ results self /\ content_length r = cl_min (stats_content_length st)) /\
  (exists r, r ∈ results self /\ content_length r = cl_max (stats_content_length st)) /\
  (forall r, r ∈ results self ->
     cl_min (stats_content_length st) <= content_length r
     <= cl_max (stats_content_length st)).
Proof.
  unfold calculate_statistics.
  destruct (results self) as [| r0 rs] eqn:Hres; [discriminate |].
  destruct (end_time self), (start_time self); try discriminate.
  destruct (percentile Float64.ltb _ 95); [| discriminate].
  destruct (percentile Float64.ltb _ 99); [| discriminate].
  intros [= <-].
  cbn [stats_content_length cl_min cl_max].
  destruct (py_min_Z (content_length r0) (map content_length rs)) as [Hmin Hminall].
  destruct (py_max_Z (content_length r0) (map content_length rs)) as [Hmax Hmaxall].
  change (content_length r0 :: map content_length rs)
    with (map content_length (r0 :: rs)) in *.
  split; [| split].
  - apply list_elem_of_fmap in Hmin as (r & Heq & Hin). exists r. split; [exact Hin | auto].
  - apply list_elem_of_fmap in Hmax as (r & Heq & Hin). exists r. split; [exact Hin | auto].
  - intros r Hr. rewrite Forall_forall in Hminall, Hmaxall.
    split; [apply Hminall | apply Hmaxall]; apply list_elem_of_fmap; exists r; auto.
Qed.


(** X16. The status table of the printed report lists every status code
    of the run once, in strictly ascending order, each with the number of
    successes that carry it; the counts of the table add up to the number
    of successes; and at most the last ten errors are listed. *)
Theorem print_report_status_table (self : LoadTester) (st : stats)
    (rows : list (Z * Z * spec_float)) (recent : list (Z * string)) :
  print_report statistics_mean statistics_median self = Returns (Report st rows recent) ->
  StronglySorted Z.lt (map (fun r => r.1.1) rows) /\
  (forall code, code ∈ map (fun r => r.1.1) rows <->
                code ∈ map status_code (results self)) /\
  (forall code n pct, (code, n, pct) ∈ rows ->
     n = Z.of_nat (count_occ Z.eq_dec (map status_code (results self)) code)) /\
  foldr Z.add 0 (map (fun r => r.1.2) rows) = Z.of_nat (length (results self)) /\
  length recent = Nat.min 10 (length (errors self)).
Proof.
  unfold print_report.
  destruct (calculate_statistics statistics_mean statistics_median self)
    as [[st' |] | x0] eqn:Hcalc; unfold mbind, pyres_bind; try discriminate.
  intros [= -> <- <-].
  destruct (calculate_statistics_Some _ _ _ _ Hcalc) as (_ & _ & _ & _ & Hcodes & _).
  set (codes := map status_code (results self)) in *.
  set (m := stats_status_codes st) in *.
  set (srt := sorted (fun a b : Z * Z => a.1 <? b.1) (map_to_list m)).
  assert (Hperm : srt ≡ₚ map_to_list m) by apply sorted_Permutation.
  assert (Hkeys : map (fun r : Z * Z * spec_float => r.1.1) (map (status_row st) srt)
                  = map fst srt).
  { rewrite map_map. apply map_ext. intros [k v]. reflexivity. }
  assert (Hvals : map (fun r : Z * Z * spec_float => r.1.2) (map (status_row st) srt)
                  = map snd srt).
  { rewrite map_map. apply map_ext. intros [k v]. reflexivity. }
  assert (Hlk : forall k v, (k, v) ∈ srt <-> m !! k = Some v).
  { intros k v. rewrite Hperm. apply elem_of_map_to_list. }
  split; [| split; [| split; [| split]]].
  - rewrite Hkeys. apply StronglySorted_strict.
    + assert (Hss : StronglySorted (fun a b : Z * Z => (b.1 <? a.1) = false) srt).
      { apply sorted_StronglySorted.
        - intros a b H. apply Z_ltb_asym. exact H.
        - intros a b c H1 H2. eapply Z_ltb_ge_trans; eassumption. }
      clear -Hss. induction Hss as [| a l _ IH Hall]; [constructor |].
      simpl. constructor; [exact IH |].
      apply Forall_fmap. eapply Forall_impl; [exact Hall |].
      intros b Hb. simpl in *. apply Z.ltb_ge in Hb. exact Hb.
    + change (map fst srt) with (fst <$> srt). rewrite Hperm.
      apply NoDup_fst_map_to_list.
  - intros code. rewrite Hkeys. split.
    + intros ([k v] & -> & Hin)%list_elem_of_fmap. apply Hlk in Hin.
      rewrite Hcodes, count_status_codes_lookup in Hin.
      simpl. destruct (decide (k ∈ codes)); [assumption | discriminate].
    + intros Hin.
      apply list_elem_of_fmap.
      exists (code, Z.of_nat (count_occ Z.eq_dec codes code)). split; [reflexivity |].
      apply Hlk. rewrite Hcodes, count_status_codes_lookup.
      destruct (decide (code ∈ codes)); [reflexivity | contradiction].
  - intros code n pct Hin.
    apply list_elem_of_fmap in Hin as ([k v] & Heq & Hin).
    unfold status_row in Heq. simpl in Heq. injection Heq as -> -> _.
    apply Hlk in Hin.
    rewrite Hcodes, count_status_codes_lookup in Hin.
    destruct (decide (k ∈ codes)); [| discriminate]. congruence.
  - rewrite Hvals.
    change (map snd srt) with (snd <$> srt).
    rewrite (foldr_add_Permutation _ (snd <$> map_to_list m))
      by (rewrite Hperm; reflexivity).
    pose proof (fold_bump_sum codes ∅) as Hsum.
    fold (count_status_codes codes) in Hsum. rewrite <- Hcodes in Hsum.
    fold m in Hsum. unfold sum_values in Hsum.
    rewrite map_fold_empty in Hsum.
    unfold codes in Hsum. rewrite length_map, Z.add_0_l in Hsum. rewrite <- Hsum.
    rewrite map_fold_foldr. clear.
    induction (map_to_list m) as [| [k v] l IH]; [reflexivity |].
    rewrite fmap_cons. cbn [foldr]. rewrite IH. reflexivity.
  - rewrite length_map. apply py_last_suffix.
Qed.

End ReportFacts.

Lemma calculate_statistics_defined_witness :
  exists st,
    calculate_statistics (fun _ => Int 0) (fun _ => Int 0) mixed_run = Returns (Some st) /\
    stats_total_time st = Float64.sub (Float64.of_int 31) (Float64.of_int 0).
Proof.
  destruct (calculate_statistics_defined (fun _ => Int 0) (fun _ => Int 0) mixed_run
              (Float64.of_int 0) (Float64.of_int 31) eq_refl eq_refl
              ltac:(discriminate) ltac:(vm_compute; reflexivity))
    as (st & Hst & Ht & _).
  exists st. split; [exact Hst | exact Ht].
Defined.

Lemma content_length_extrema_witness :
  exists st,
    calculate_statistics (fun _ => Int 0) (fun _ => Int 0) mixed_run = Returns (Some st) /\
    forall r, r ∈ results mixed_run ->
      cl_min (stats_content_length st) <= content_length r
      <= cl_max (stats_content_length st).
Proof.
  eexists. split; [vm_compute; reflexivity |].
  apply (content_length_extrema (fun _ => Int 0) (fun _ => Int 0) mixed_run).
  vm_compute. reflexivity.
Defined.

Lemma print_report_status_table_witness :
  exists st rows recent,
    print_report (fun _ => Int 0) (fun _ => Int 0) mixed_run
      = Returns (Report st rows recent) /\
    StronglySorted Z.lt (map (fun r => r.1.1) rows).
Proof.
  eexists _, _, _. split; [vm_compute; reflexivity |].
  eapply (print_report_status_table (fun _ => Int 0) (fun _ => Int 0) mixed_run).
  vm_compute. reflexivity.
Defined.

(** ** From the run to the report *)

Lemma count_times_reachable e tester s :
  rtc (Count.step e) (Count.initial e tester) s ->
  start_time (Count.self s) = Some (clock e 0) /\
  (Count.pc s = Count.Finished -> exists t, end_time (Count.self s) = Some t).
Proof.
  intros Hs.
  apply (rtc_ind_r (R := Count.step e)
           (fun s => start_time (Count.self s) = Some (clock e 0) /\
                     (Count.pc s = Count.Finished ->
                      exists t, end_time (Count.self s) = Some t))
           (Count.initial e tester)); [| | exact Hs].
  - split; [reflexivity | discriminate].
  - intros y z _ Hstep [Hst Hend].
    destruct Hstep as
      [u i Hl Hlt | u i Hl Hge | u i Hl Hbd | u Hl Hbd | u k id Hnf Hk
      | u k id t0 self' o Hnf Hk Hio].
    + unfold Count.create. destruct (_ <=? _); simpl; (split; [exact Hst | discriminate]).
    + unfold Count.loop_end. destruct (Count.tasks u); simpl.
      * split; [exact Hst | intros _; eexists; reflexivity].
      * split; [exact Hst | discriminate].
    + simpl. split; [exact Hst | discriminate].
    + simpl. split; [exact Hst | intros _; eexists; reflexivity].
    + simpl. split; [exact Hst | intros H; contradiction].
    + simpl. split; [| intros H; contradiction].
      unfold Count.issue in Hio.
      destruct (make_request_Returns _ _ _ _ _ _ _ _ Hio) as (_ & _ & _ & _ & Hstart).
      rewrite Hstart. exact Hst.
Qed.

Section RunFacts.
Variable statistics_mean : list number -> number.
Variable statistics_median : list number -> number.

(** With both times set and fewer than 2^32 successes, the statistics
    are computed without an exception. *)
Lemma calculate_statistics_total (self : LoadTester) (t0 t1 : spec_float) :
  start_time self = Some t0 -> end_time self = Some t1 ->
  Z.of_nat (length (results self)) < 2 ^ 32 ->
  exists o,
    calculate_statistics statistics_mean statistics_median self = Returns o /\
    (o = None <-> results self = []).
Proof.
  intros Hs He Hlen.
  destruct (results self) as [| r0 rs] eqn:Hres.
  - exists None. split; [apply calculate_statistics_nil; exact Hres | split; reflexivity].
  - set (rts := map result_response_time (results self)).
    assert (Hrne : rts <> []) by (unfold rts; rewrite Hres; discriminate).
    assert (Hrlen : Z.of_nat (length rts) < 2 ^ 32).
    { unfold rts. rewrite length_map, Hres. exact Hlen. }
    destruct (percentile_rank Float64.ltb rts 95 Hrne Hrlen ltac:(lia))
      as (i & x & Hx & _).
    destruct (percentile_rank Float64.ltb rts 99 Hrne Hrlen ltac:(lia))
      as (j & y & Hy & _).
    unfold calculate_statistics. fold rts. rewrite Hres, He, Hs, Hx, Hy.
    eexists. split; [reflexivity |]. split; discriminate.
Qed.

Lemma print_report_total (self : LoadTester) (t0 t1 : spec_float) :
  start_time self = Some t0 -> end_time self = Some t1 ->
  Z.of_nat (length (results self)) < 2 ^ 32 ->
  exists out,
    print_report statistics_mean statistics_median self = Returns out /\
    (out = NoDataNotice <-> results self = []) /\
    (forall st rows recent, out = Report st rows recent ->
       successful_requests st = Z.of_nat (length (results self)) /\
       failed_requests st = Z.of_nat (length (errors self))).
Proof.
  intros Hs He Hlen.
  destruct (calculate_statistics_total self t0 t1 Hs He Hlen) as (o & Hcalc & Ho).
  unfold print_report. rewrite Hcalc. unfold mbind, pyres_bind.
  destruct o as [st |].
  - eexists. split; [reflexivity |]. split.
    + split; [discriminate |]. intros H. apply Ho in H. discriminate.
    + intros st' rows recent [= <- _ _].
      destruct (calculate_statistics_Some _ _ _ _ Hcalc) as (_ & H1 & H2 & _).
      split; assumption.
  - exists NoDataNotice. split; [reflexivity |]. split.
    + split; [intros _; apply Ho; reflexivity | reflexivity].
    + intros st rows recent H. discriminate.
Qed.

(** X10. A count-bound run of a fresh tester with a non-negative limit
    and fewer than 2^32 requests, on a network that fails in ordinary
    ways only, ends normally: [run] does not exit with status 1, every
    request has its outcome, and what is printed is the notice exactly
    when no request succeeded, and otherwise a report whose numbers of
    successes and of failures are those of the recorded outcomes. *)
Theorem run_count_completes (e : env) (fuel : nat) (tester : LoadTester) :
  (duration tester = None \/ duration tester = Some 0) ->
  0 <= concurrent tester ->
  env_ordinary e ->
  results tester = [] -> errors tester = [] ->
  total_requests tester < 2 ^ 32 ->
  (2 + 5 * Z.to_nat (total_requests tester) < fuel)%nat ->
  exists self' out,
    run statistics_mean statistics_median e fuel tester = Some (Completed self' out) /\
    (length (results self') + length (errors self')
     = Z.to_nat (total_requests tester))%nat /\
    (out = NoDataNotice <-> results self' = []) /\
    (forall st rows recent, out = Report st rows recent ->
       successful_requests st = Z.of_nat (length (results self')) /\
       failed_requests st = Z.of_nat (length (errors self'))) /\
    (env_failing e -> out = NoDataNotice) /\
    (env_responsive e -> 0 < total_requests tester ->
     exists st rows, out = Report st rows [] /\
                     successful_requests st = total_requests tester /\
                     failed_requests st = 0).
Proof.
  intros Hd Hc Henv Hres Herr Hn Hfuel.
  pose proof (count_inv_initial e tester Hc) as Hinv0.
  destruct (count_exec_finishes e _ _ _ fuel _ Hinv0 Henv) as (s & Hex & Hfin & Hrtc).
  { unfold count_measure. simpl. rewrite Z.sub_0_r. lia. }
  pose proof (count_finished_length e tester s Hc Hrtc Hfin) as Htot.
  destruct (count_reachable_responsive e tester s Hrtc) as [Hresp Hfail].
  rewrite Hres, Herr in Htot. simpl in Htot.
  destruct (count_times_reachable e tester s Hrtc) as [Hstart Hend].
  destruct (Hend Hfin) as [t1 Ht1].
  destruct (print_report_total (Count.self s) _ _ Hstart Ht1 ltac:(lia))
    as (out & Hprint & Hnotice & Hnum).
  assert (Hrun : run statistics_mean statistics_median e fuel tester
                 = Some (Completed (Count.self s) out)).
  { assert (Hcount : run_count_test e fuel tester = Some (Returns s)).
    { unfold run_count_test. destruct (Z.ltb_spec (concurrent tester) 0); [lia |].
      rewrite Hex. reflexivity. }
    unfold run, report.
    destruct Hd as [-> | ->]; cbn [Z.eqb]; rewrite Hcount; cbn [mbind option_bind];
      rewrite Hprint; reflexivity. }
  exists (Count.self s), out.
  split; [exact Hrun |]. split; [exact Htot |]. split; [exact Hnotice |].
  split; [exact Hnum |]. split.
  - intros Hf. apply Hnotice. rewrite (Hfail Hf). exact Hres.
  - intros Hr Hpos. pose proof (Hresp Hr) as He'.
    assert (Hl : length (results (Count.self s)) = Z.to_nat (total_requests tester)).
    { rewrite He', Herr in Htot. simpl in Htot. lia. }
    destruct out as [| st rows recent].
    + assert (Hnil : results (Count.self s) = []) by (apply Hnotice; reflexivity).
      rewrite Hnil in Hl. simpl in Hl. lia.
    + destruct (Hnum st rows recent eq_refl) as [H1 H2].
      assert (Hrecent : recent = []).
      { unfold print_report in Hprint.
        destruct (calculate_statistics statistics_mean statistics_median (Count.self s))
          as [[st' |] | x0]; unfold mbind, pyres_bind in Hprint; try discriminate.
        injection Hprint as _ _ <-. rewrite He', Herr. reflexivity. }
      exists st, rows. rewrite Hrecent. split; [reflexivity |].
      rewrite H1, H2, He', Herr, Hl. simpl. split; [lia | reflexivity].
Qed.

End RunFacts.

Lemma run_count_completes_witness :
  exists self' out,
    run (fun _ => Int 0) (fun _ => Int 0) sample_env 28 sample_count_tester
      = Some (Completed self' out) /\
    (length (results self') + length (errors self') = 5)%nat.
Proof.
  destruct (run_count_completes (fun _ => Int 0) (fun _ => Int 0)
              sample_env 28 sample_count_tester
              (or_introl eq_refl) ltac:(discriminate) sample_env_ordinary
              eq_refl eq_refl eq_refl ltac:(simpl; lia))
    as (self' & out & Hrun & Htot & _).
  exists self', out. split; [exact Hrun | exact Htot].
Defined.

(** ** The duration-bound run, from the clock to the report *)

Lemma duration_times_reachable e tester d s :
  rtc (Duration.step e) (Duration.initial e tester d) s ->
  start_time (Duration.self s) = Some (clock e 0) /\
  (Duration.pc s = Duration.Finished -> exists t, end_time (Duration.self s) = Some t).
Proof.
  intros Hs.
  apply (rtc_ind_r (R := Duration.step e)
           (fun s => start_time (Duration.self s) = Some (clock e 0) /\
                     (Duration.pc s = Duration.Finished ->
                      exists t, end_time (Duration.self s) = Some t))
           (Duration.initial e tester d)); [| | exact Hs].
  - split; [reflexivity | discriminate].
  - intros y z _ Hstep [Hst Hend].
    destruct Hstep as [u Hp Hb | u Hp Hb | u Hp Hz | u i rid q Hp Hi Hqq
                      | u i Hp Hi Hqq | u i rid Hp Hi Hsem
                      | u i rid t0 self' o Hp Hi Hiss]; simpl;
      try (split; [exact Hst | first [discriminate | intros H; congruence]]).
    + split; [exact Hst | intros _; eexists; reflexivity].
    + split; [| intros H; congruence].
      unfold Duration.issue in Hiss.
      destruct (make_request_Returns _ _ _ _ _ _ _ _ Hiss) as (_ & _ & _ & _ & Hstart).
      rewrite Hstart. exact Hst.
Qed.

(** Every admission uses up a reading of the clock that is below the
    deadline. *)
Lemma duration_admissions_bounded e tester d n s :
  clock_reaches e n (Duration.deadline (Duration.initial e tester d)) ->
  rtc (Duration.step e) (Duration.initial e tester d) s ->
  Duration.request_id s < Z.of_nat (Duration.tick s) /\
  Duration.request_id s <= Z.of_nat n.
Proof.
  intros Hclock Hs.
  assert (Hgen : forall s0 s1, rtc (Duration.step e) s0 s1 ->
            s0 = Duration.initial e tester d ->
            rtc (Duration.step e) (Duration.initial e tester d) s1 /\
            Duration.request_id s1 < Z.of_nat (Duration.tick s1) /\
            Duration.request_id s1 <= Z.of_nat n).
  { intros s0 s1 H01 ->.
    apply (rtc_ind_r (R := Duration.step e)
             (fun s => rtc (Duration.step e) (Duration.initial e tester d) s /\
                       Duration.request_id s < Z.of_nat (Duration.tick s) /\
                       Duration.request_id s <= Z.of_nat n)
             (Duration.initial e tester d)); [| | exact H01].
    - split; [apply rtc_refl |]. simpl. lia.
    - intros y z _ Hstep (Hy & Hlt & Hle).
      split; [eapply rtc_r; eassumption |].
      destruct Hstep as [u Hp Hb | u Hp Hb | u Hp Hz | u i rid q Hp Hi Hqq
                        | u i Hp Hi Hqq | u i rid Hp Hi Hsem
                        | u i rid t0 self' o Hp Hi Hiss]; simpl; try lia.
      assert (Htick : (Duration.tick u < n)%nat).
      { destruct (Nat.lt_ge_cases (Duration.tick u) n) as [H | H]; [exact H |].
        unfold Duration.before_deadline in Hb.
        rewrite (duration_reachable_deadline e _ _ Hy) in Hb.
        rewrite (Hclock _ H) in Hb. discriminate. }
      lia. }
  apply (Hgen _ _ Hs eq_refl).
Qed.

Section DurationRunFacts.
Variable statistics_mean : list number -> number.
Variable statistics_median : list number -> number.

(** X20. A duration-bound run of a fresh tester with at least one
    worker, on a network that fails in ordinary ways only and under a
    clock that reaches the deadline at its [n]-th reading, ends normally:
    [run] does not exit with status 1, at most [n] outcomes are recorded
    (one admission per reading of the clock at most), and what is printed
    is the notice exactly when no request succeeded, and otherwise a
    report whose numbers of successes and of failures are those of the
    recorded outcomes. *)
Theorem run_duration_completes (e : env) (fuel : nat) (tester : LoadTester)
    (d : Z) (n : nat) :
  duration tester = Some d -> d <> 0 ->
  0 < concurrent tester ->
  env_ordinary e ->
  clock_reaches e n (Duration.deadline (Duration.initial e tester d)) ->
  Z.of_nat n < 2 ^ 32 ->
  results tester = [] -> errors tester = [] ->
  (4 * n + 5 + Z.to_nat (concurrent tester) < fuel)%nat ->
  exists self' out,
    run statistics_mean statistics_median e fuel tester = Some (Completed self' out) /\
    (length (results self') + length (errors self') <= n)%nat /\
    (out = NoDataNotice <-> results self' = []) /\
    (forall st rows recent, out = Report st rows recent ->
       successful_requests st = Z.of_nat (length (results self')) /\
       failed_requests st = Z.of_nat (length (errors self'))).
Proof.
  intros Hd Hd0 Hc Henv Hclock Hn Hres Herr Hfuel.
  pose proof (duration_inv_initial e tester d) as Hinv0.
  destruct (duration_exec_finishes e n _ _ fuel _ Hinv0 ltac:(lia) Henv Hclock)
    as (s & Hex & Hfin & Hrtc).
  { pose proof (duration_initial_measure e n tester d). lia. }
  pose proof (duration_inv_reachable e tester d s Hrtc) as Hinv.
  pose proof (duration_finished_outcomes _ _ s Hinv Hfin) as Hout.
  apply Permutation_length in Hout.
  unfold outcome_ids in Hout. rewrite Hres, Herr in Hout.
  rewrite !length_app, !length_map in Hout. simpl in Hout.
  pose proof (f_equal (@length Z) (inv_admitted _ _ _ Hinv)) as Hadm.
  rewrite length_map, length_seqZ in Hadm.
  destruct (duration_admissions_bounded e tester d n s Hclock Hrtc) as [_ Hle].
  destruct (duration_times_reachable e tester d s Hrtc) as [Hstart Hend].
  destruct (Hend Hfin) as [t1 Ht1].
  destruct (print_report_total statistics_mean statistics_median
              (Duration.self s) _ _ Hstart Ht1 ltac:(lia))
    as (out & Hprint & Hnotice & Hnum).
  exists (Duration.self s), out.
  split; [| split; [lia | split; [exact Hnotice | exact Hnum]]].
  assert (Hrun : run_duration_test e fuel tester d = Some (Returns s)).
  { unfold run_duration_test. destruct (Z.ltb_spec (concurrent tester) 0); [lia |].
    rewrite Hex. reflexivity. }
  unfold run, report. rewrite Hd.
  destruct (Z.eqb_spec d 0) as [H0 | _]; [contradiction |].
  rewrite Hrun. cbn [mbind option_bind]. rewrite Hprint. reflexivity.
Qed.



End DurationRunFacts.

Lemma run_duration_completes_witness :
  exists self' out,
    run (fun _ => Int 0) (fun _ => Int 0) sample_env 20 sample_duration_tester
      = Some (Completed self' out) /\
    (length (results self') + length (errors self') <= 3)%nat.
Proof.
  destruct (run_duration_completes (fun _ => Int 0) (fun _ => Int 0)
              sample_env 20 sample_duration_tester 5 3
              eq_refl ltac:(discriminate) eq_refl sample_env_ordinary
              sample_clock_reaches eq_refl eq_refl eq_refl ltac:(simpl; lia))
    as (self' & out & Hrun & Htot & _).
  exists self', out. split; [exact Hrun | exact Htot].
Defined.


(** ** The configuration is read, never written *)

Lemma make_request_configuration self r t0 t1 now request_id :
  configuration (make_request self r t0 t1 now request_id).1 = configuration self.
Proof.
  unfold make_request. destruct r as [status content | x]; [reflexivity |].
  destruct (is_TimeoutError x); [reflexivity |].
  destruct (is_Exception x); reflexivity.
Qed.

Lemma count_reachable_configuration e tester s :
  rtc (Count.step e) (Count.initial e tester) s ->
  configuration (Count.self s) = configuration tester.
Proof.
  intros Hs.
  apply (rtc_ind_r (R := Count.step e)
           (fun s => configuration (Count.self s) = configuration tester)
           (Count.initial e tester)); [reflexivity | | exact Hs].
  intros y z _ Hstep IH.
  destruct Hstep as
    [u i Hl Hlt | u i Hl Hge | u i Hl Hbd | u Hl Hbd | u k id Hnf Hk
    | u k id t0 self' o Hnf Hk Hio]; try exact IH.
  - unfold Count.create. destruct (_ <=? _); exact IH.
  - unfold Count.loop_end. destruct (Count.tasks u); exact IH.
  - simpl. unfold Count.issue in Hio.
    pose proof (make_request_configuration (Count.self u) (net e id) t0
                  (clock e (Count.tick u)) (now_iso e (Count.tick u)) id) as Hcfg.
    rewrite Hio in Hcfg. simpl in Hcfg. rewrite Hcfg. exact IH.
Qed.

Lemma duration_reachable_configuration e tester d s :
  rtc (Duration.step e) (Duration.initial e tester d) s ->
  configuration (Duration.self s) = configuration tester.
Proof.
  intros Hs.
  apply (rtc_ind_r (R := Duration.step e)
           (fun s => configuration (Duration.self s) = configuration tester)
           (Duration.initial e tester d)); [reflexivity | | exact Hs].
  intros y z _ Hstep IH.
  destruct Hstep as [u Hp Hb | u Hp Hb | u Hp Hz | u i rid q Hp Hi Hqq
                    | u i Hp Hi Hqq | u i rid Hp Hi Hsem
                    | u i rid t0 self' o Hp Hi Hiss]; try exact IH.
  simpl. unfold Duration.issue in Hiss.
  pose proof (make_request_configuration (Duration.self u) (net e rid) t0
                (clock e (Duration.tick u)) (now_iso e (Duration.tick u)) rid) as Hcfg.
  rewrite Hiss in Hcfg. simpl in Hcfg. rewrite Hcfg. exact IH.
Qed.

Section Configuration.
Variable statistics_mean : list number -> number.
Variable statistics_median : list number -> number.

Lemma run_Completed_configuration e fuel tester self out :
  run statistics_mean statistics_median e fuel tester = Some (Completed self out) ->
  configuration self = configuration tester.
Proof.
  assert (Hrep : forall self0,
            report statistics_mean statistics_median self0 = Completed self out ->
            self = self0).
  { intros self0. unfold report.
    destruct (print_report statistics_mean statistics_median self0); [| discriminate].
    intros [= <- _]. reflexivity. }
  assert (Hcount : forall r,
            run_count_test e fuel tester = Some r ->
            match r with
            | Returns s => report statistics_mean statistics_median (Count.self s)
            | Raises x => Exit1 x
            end = Completed self out ->
            configuration self = configuration tester).
  { intros r Hr Hc. unfold run_count_test in Hr.
    destruct (concurrent tester <? 0); [injection Hr as <-; discriminate |].
    destruct (Count.exec e fuel (Count.initial e tester)) as [s |] eqn:Hex;
      [| discriminate].
    injection Hr as <-. rewrite (Hrep _ Hc).
    apply (count_reachable_configuration e), (count_exec_sound _ _ _ _ Hex). }
  assert (Hdur : forall d r,
            run_duration_test e fuel tester d = Some r ->
            match r with
            | Returns s => report statistics_mean statistics_median (Duration.self s)
            | Raises x => Exit1 x
            end = Completed self out ->
            configuration self = configuration tester).
  { intros d r Hr Hc. unfold run_duration_test in Hr.
    destruct (concurrent tester <? 0); [injection Hr as <-; discriminate |].
    destruct (Duration.exec e fuel (Duration.initial e tester d)) as [s |] eqn:Hex;
      [| discriminate].
    injection Hr as <-. rewrite (Hrep _ Hc).
    apply (duration_reachable_configuration e tester d),
          (duration_exec_sound _ _ _ _ Hex). }
  unfold run.
  destruct (duration tester) as [d |]; [destruct (d =? 0) |].
  - destruct (run_count_test e fuel tester) as [r |] eqn:Hr; cbn [mbind option_bind];
      [| discriminate]. intros [= H]. exact (Hcount r eq_refl H).
  - destruct (run_duration_test e fuel tester d) as [r |] eqn:Hr;
      cbn [mbind option_bind]; [| discriminate].
    intros [= H]. exact (Hdur d r Hr H).
  - destruct (run_count_test e fuel tester) as [r |] eqn:Hr; cbn [mbind option_bind];
      [| discriminate]. intros [= H]. exact (Hcount r eq_refl H).
Qed.

(** X22. A run reads the configuration of the tester and never writes
    it: in every state of a count-bound or a duration-bound run the URL,
    the limit, the request count, the duration and the time-out are those
    the tester was constructed with, so the [test_config] that [main]
    saves is the command line, with the URL completed by its scheme. *)
Theorem configuration_unchanged (e : env) (fuel : nat) (a : args) :
  (forall tester s,
     rtc (Count.step e) (Count.initial e tester) s ->
     configuration (Count.self s) = configuration tester) /\
  (forall tester d s,
     rtc (Duration.step e) (Duration.initial e tester d) s ->
     configuration (Duration.self s) = configuration tester) /\
  (forall r rd,
     main statistics_mean statistics_median e fuel a = Some (r, Some rd) ->
     test_config rd =
       (normalize_url (args_url a), args_concurrent a, args_requests a,
        args_duration a, args_timeout a)).
Proof.
  split; [apply count_reachable_configuration |].
  split; [apply duration_reachable_configuration |].
  intros r rd. unfold main.
  destruct (run statistics_mean statistics_median e fuel (main_tester a))
    as [r0 |] eqn:Hrun; cbn [mbind option_bind]; [| discriminate].
  intros [= -> Hsaved].
  destruct r as [self out | x]; [| discriminate].
  pose proof (run_Completed_configuration _ _ _ _ _ Hrun) as Hcfg.
  destruct (args_output a) as [f |]; [| discriminate].
  destruct (String.eqb f ""); [discriminate |].
  unfold save_report in Hsaved.
  destruct (calculate_statistics statistics_mean statistics_median self)
    as [[st |] | x0]; unfold mbind, pyres_bind in Hsaved; try discriminate.
  injection Hsaved as <-. cbn [test_config].
  exact Hcfg.
Qed.

End Configuration.

(** ** No outcome is recorded twice *)

Lemma omap_done_sublist (tbl : list (Z * Count.tstate)) :
  omap done_id tbl `sublist_of` map fst tbl.
Proof.
  induction tbl as [| [id t] tbl IH]; [constructor |].
  destruct t; cbn [omap list_omap done_id snd fst map].
  - apply sublist_cons. exact IH.
  - apply sublist_cons. exact IH.
  - apply sublist_skip. exact IH.
Qed.

(** X23. Starting from a fresh tester, no request is recorded twice and
    only ids that were given out are recorded: in every state of a
    count-bound run the ids of the recorded outcomes are distinct and lie
    in [0, total_requests), and in every state of a duration-bound run
    they are distinct and below the next id to be given out. *)
Theorem outcomes_recorded_once (e : env) (tester : LoadTester) :
  results tester = [] -> errors tester = [] -> 0 <= concurrent tester ->
  (forall s,
     rtc (Count.step e) (Count.initial e tester) s ->
     NoDup (outcome_ids (Count.self s)) /\
     forall id, id ∈ outcome_ids (Count.self s) -> 0 <= id < total_requests tester) /\
  (forall d s,
     rtc (Duration.step e) (Duration.initial e tester d) s ->
     NoDup (outcome_ids (Duration.self s)) /\
     forall id, id ∈ outcome_ids (Duration.self s) -> 0 <= id < Duration.request_id s).
Proof.
  intros Hres Herr Hc.
  assert (Hbase : outcome_ids tester = []).
  { unfold outcome_ids. rewrite Hres, Herr. reflexivity. }
  split.
  - intros s Hs.
    pose proof (count_inv_reachable e tester s Hc Hs) as Hinv.
    pose proof (cinv_outcomes _ _ _ _ Hinv) as Hout.
    rewrite Hbase, app_nil_r in Hout.
    pose proof (table_NoDup _ _ _ _ Hinv) as Hnd.
    pose proof (omap_done_sublist (Count.table s)) as Hsub.
    split.
    + rewrite <- Hout. eapply sublist_NoDup; eassumption.
    + intros id Hid. rewrite <- Hout in Hid.
      assert (Hin : id ∈ map fst (Count.table s)).
      { eapply elem_of_sublist; [exact Hid | exact Hsub]. }
      rewrite (cinv_ids _ _ _ _ Hinv) in Hin. apply elem_of_seqZ in Hin.
      pose proof (cinv_pc _ _ _ _ Hinv) as Hpc.
      destruct (Count.pc s); lia.
  - intros d s Hs.
    pose proof (duration_inv_reachable e tester d s Hs) as Hinv.
    pose proof (inv_ids _ _ _ Hinv) as Hids.
    rewrite Hbase, app_nil_r in Hids.
    assert (Hnd : NoDup (Duration.queue s ++ Duration.held (Duration.workers s)
                         ++ outcome_ids (Duration.self s))).
    { rewrite <- Hids. apply NoDup_seqZ. }
    split.
    + apply NoDup_app in Hnd as (_ & _ & Hnd). apply NoDup_app in Hnd as (_ & _ & Hnd).
      exact Hnd.
    + intros id Hid.
      assert (Hin : id ∈ seqZ 0 (Duration.request_id s)).
      { rewrite Hids. apply elem_of_app. right. apply elem_of_app. right. exact Hid. }
      apply elem_of_seqZ in Hin. lia.
Qed.

Lemma outcomes_recorded_once_witness :
  NoDup (outcome_ids
           (Count.self (Count.create 0 (Count.initial sample_env sample_count_tester)))).
Proof.
  apply (proj1 (outcomes_recorded_once sample_env sample_count_tester
                  eq_refl eq_refl ltac:(discriminate))).
  eapply rtc_l; [apply (Count.step_create _ _ 0); reflexivity | apply rtc_refl].
Defined.
